(** * CSV Field Mapper: the field-mapping and transformation engine

    A shallow embedding of the core of [9_csv_field_mapper.py] (class
    [CSVFieldMapper]): the value extractors, the mapping table, the
    calculation run and the guards of load and export, with the
    properties the specification states about them; then the counters,
    the dialog that edits the target fields, the detection of the
    delimiter, the rows of the export and sessions of user actions, with
    further properties of the code.

    Conventions of the embedding:
    - a Python [str] is a [string]; the builtins [str.upper], [str.lower],
      [str.isspace] and [int] are modelled on ASCII text (characters
      above 127 have no case, are no digits and no white space);
    - a Python value that can sit in a cell is a [value];
    - a [dict] is a [gmap]; the iteration order of a dict is not tracked
      (the export takes the key order of the table as a parameter);
    - code that can raise returns a [result] that names the exception;
      [try]/[except] is a match on it.  Where a table is filled in place
      while exceptions can be raised, the code returns a [run], which
      keeps what was filled in so far;
    - [int], [str] of an [int] and the f-string of an [int] raise
      [ValueError] beyond 4300 digits, as the interpreter does by
      default;
    - the decoder behind [json.loads] is a parameter of the development
      (section variable [json_loads]): it returns the decoded document or
      raises, [json.JSONDecodeError], [ValueError], [RecursionError] or
      another exception.  [loads] adds what is known of it whatever the
      document: no integer of more than 4300 digits comes out of it;
    - the file dialog and the CSV reader are seen through what they did
      to [load_csv] ([read_result]);
    - the Tk widgets are left out, except for what Tk can do to a
      calculation run: at each place where the run calls into Tk
      (opening the progress dialog, each [progress.update], closing the
      dialog, the report of the result and the three steps of the error
      handler) the environment ([tk_env]) says whether the call returns
      or raises [TclError].  The warning boxes of the guards are taken to
      return;
    - the depth of recursion and memory are not modelled, other than by
      what the decoder may raise. *)

From Stdlib Require Import ZArith Ascii String DecimalString DecimalFacts
  DecimalPos DecimalN DecimalZ Floats.SpecFloat.
From stdpp Require Import base option list gmap strings fin_maps.

Set Warnings "-register-all".
Local Open Scope Z_scope.

(** ** Python builtins on text *)

Module Py.

Definition in_range (lo hi : N) (c : ascii) : bool :=
  ((lo <=? N_of_ascii c) && (N_of_ascii c <=? hi))%N.

(** [str.upper] and [str.lower], one character at a time. *)
Definition upper_char (c : ascii) : ascii :=
  if in_range 97 122 c then ascii_of_N (N_of_ascii c - 32) else c.

Definition lower_char (c : ascii) : ascii :=
  if in_range 65 90 c then ascii_of_N (N_of_ascii c + 32) else c.

Fixpoint upper (s : string) : string :=
  match s with
  | EmptyString => EmptyString
  | String c s' => String (upper_char c) (upper s')
  end.

Fixpoint lower (s : string) : string :=
  match s with
  | EmptyString => EmptyString
  | String c s' => String (lower_char c) (lower s')
  end.

(** [s[:n]] and [s[n:]] for [0 <= n]. *)
Fixpoint take (n : nat) (s : string) : string :=
  match n, s with
  | O, _ => EmptyString
  | S _, EmptyString => EmptyString
  | S n', String c s' => String c (take n' s')
  end.

Fixpoint drop (n : nat) (s : string) : string :=
  match n, s with
  | O, _ => s
  | S _, EmptyString => EmptyString
  | S n', String c s' => drop n' s'
  end.

(** [str.isspace] on one ASCII character: TAB, LF, VT, FF, CR, the four
    separators FS, GS, RS, US and the blank. *)
Definition is_space (c : ascii) : bool :=
  in_range 9 13 c || in_range 28 32 c.

Fixpoint lstrip (s : string) : string :=
  match s with
  | EmptyString => EmptyString
  | String c s' => if is_space c then lstrip s' else s
  end.

Fixpoint rstrip (s : string) : string :=
  match s with
  | EmptyString => EmptyString
  | String c s' =>
      match rstrip s' with
      | EmptyString => if is_space c then EmptyString else String c EmptyString
      | r => String c r
      end
  end.

Definition strip (s : string) : string := rstrip (lstrip s).

(** The digits of an [int] literal: decimal digits, a single underscore
    allowed between two digits.  [after_digit] tells whether the
    character before [s] was a digit. *)
Fixpoint int_digits (after_digit : bool) (s : string) : option Decimal.uint :=
  match s with
  | EmptyString => if after_digit then Some Decimal.Nil else None
  | String c s' =>
      if Ascii.eqb c "_"
      then (if after_digit
            then match s' with
                 | EmptyString => None
                 | _ => int_digits false s'
                 end
            else None)
      else uint_of_char c (int_digits true s')
  end.

(** The white space [int] drops around the literal of an ASCII string:
    TAB, LF, VT, FF, CR and the blank.  The separators FS, GS, RS and US
    are white space for [str.strip], not here. *)
Definition is_int_space (c : ascii) : bool :=
  in_range 9 13 c || Ascii.eqb c " ".

Fixpoint int_lstrip (s : string) : string :=
  match s with
  | EmptyString => EmptyString
  | String c s' => if is_int_space c then int_lstrip s' else s
  end.

Fixpoint int_rstrip (s : string) : string :=
  match s with
  | EmptyString => EmptyString
  | String c s' =>
      match int_rstrip s' with
      | EmptyString => if is_int_space c then EmptyString else String c EmptyString
      | r => String c r
      end
  end.

(** [sys.get_int_max_str_digits()], as the interpreter starts: the
    longest run of digits that [int] reads and [str] writes. *)
Definition max_str_digits : nat := 4300.

(** The value of the digits [d], unless there are too many. *)
Definition int_of_digits (negative : bool) (d : Decimal.uint) : option Z :=
  if (Decimal.nb_digits d <=? max_str_digits)%nat
  then Some (Z.of_int (if negative then Decimal.Neg d else Decimal.Pos d))
  else None.

(** [int(s)] in base 10: surrounding white space is dropped, one sign is
    allowed, then come the digits, at most [max_str_digits] of them.
    [None] is [ValueError]. *)
Definition int (s : string) : option Z :=
  match int_rstrip (int_lstrip s) with
  | String c r =>
      if Ascii.eqb c "-" then int_digits false r ≫= int_of_digits true
      else if Ascii.eqb c "+" then int_digits false r ≫= int_of_digits false
      else int_digits false (String c r) ≫= int_of_digits false
  | EmptyString => None
  end.

(** The decimal text of an [int]. *)
Definition str_int (n : Z) : string := NilZero.string_of_int (Z.to_int n).

(** Whether [n] has at most [max_str_digits] digits. *)
Definition int_fits (n : Z) : bool :=
  (Decimal.nb_digits (N.to_uint (Z.abs_N n)) <=? max_str_digits)%nat.

(** [str(n)] and [f"{n}"] for an [int].  [None] is [ValueError]. *)
Definition format_int (n : Z) : option string :=
  if int_fits n then Some (str_int n) else None.

End Py.

(** ** Values, exceptions *)

(** What a cell of the calculated table can hold: a raw string, or
    whatever [json.loads] produced at a path ([None], [bool], [int],
    [float], [str], [list], [dict]). *)
Inductive value : Type :=
  | PyNone
  | PyBool (b : bool)
  | PyInt (n : Z)
  | PyFloat (f : spec_float)
  | PyStr (s : string)
  | PyList (l : list value)
  | PyDict (d : list (string * value)).

Inductive exn : Type :=
  | JSONDecodeError
  | AttributeError
  | TypeError
  | ValueError
  | RecursionError
  | KeyError
  | TclError.

Inductive result (A : Type) : Type :=
  | Ok (a : A)
  | Raise (e : exn).
Arguments Ok {A} a.
Arguments Raise {A} e.

#[global] Instance result_ret : MRet result := fun A a => Ok a.
#[global] Instance result_bind : MBind result := fun A B f m =>
  match m with
  | Ok a => f a
  | Raise e => Raise e
  end.

(** Whether [str(v)] returns: no [int] in [v] has more than
    [Py.max_str_digits] digits.  On one that has, [str] raises
    [ValueError]. *)
Fixpoint str_ok (v : value) : bool :=
  match v with
  | PyInt n => Py.int_fits n
  | PyList l => forallb str_ok l
  | PyDict d => forallb (fun '(_, v') => str_ok v') d
  | _ => true
  end.

(** [d[key]] on the items of a dict, first match. *)
Fixpoint dict_lookup (key : string) (d : list (string * value)) : option value :=
  match d with
  | [] => None
  | (k, v) :: d' => if String.eqb k key then Some v else dict_lookup key d'
  end.

(** [obj.get(key, default)]: only a dict has the method. *)
Definition py_get (obj : value) (key : string) (dflt : value) : result value :=
  match obj with
  | PyDict d => Ok (default dflt (dict_lookup key d))
  | _ => Raise AttributeError
  end.

(** A literal [dict] of strings: [key in d] and [d[key]] in one lookup. *)
Fixpoint assoc (key : string) (d : list (string * string)) : option string :=
  match d with
  | [] => None
  | (k, v) :: d' => if String.eqb k key then Some v else assoc key d'
  end.

(** [x in l] for a list of strings. *)
Definition str_in (x : string) (l : list string) : bool :=
  existsb (String.eqb x) l.

(** ** The value extractors *)

Definition survey_tp3_fields : list (string * string) :=
  [("EFLI", "efli"); ("AFLI", "afli"); ("RISS", "riss"); ("ONA", "ona")].

Definition eval_tp3_fields : list (string * string) :=
  [("ZWAUS", "zwaus"); ("ZWBIN", "zwbin"); ("ZWONA", "zwona");
   ("ZWRSF", "zwrsf"); ("ZWSCH", "zwsch"); ("ZWAFLI", "zwafli");
   ("ZWBORD", "zwbord"); ("ZWEFLI", "zwefli"); ("ZWRISS", "zwriss");
   ("ZWWURZ", "zwwurz")].

Definition overall_fields : list (string * string) :=
  [("GW", "gw"); ("GEB", "geb"); ("SUB", "sub")].

(** The target fields that [calculate_data] sends to the business-data
    extractor. *)
Definition business_fields : list string :=
  ["EFLI"; "AFLI"; "RISS"; "ZWAUS"; "ZWBIN"; "ZWONA";
   "ZWRSF"; "ZWSCH"; "ZWAFLI"; "ZWBORD"; "ZWEFLI";
   "ZWRISS"; "ZWWURZ"; "GW"; "GEB"; "SUB"].

Definition _extract_vnk (hiline_section : string) : string :=
  if negb (String.eqb hiline_section "") && (2 <=? String.length hiline_section)%nat
  then let half_len := Nat.div (String.length hiline_section) 2 in
       Py.take half_len hiline_section
  else hiline_section.

Definition _extract_nnk (hiline_section : string) : string :=
  if negb (String.eqb hiline_section "") && (2 <=? String.length hiline_section)%nat
  then let half_len := Nat.div (String.length hiline_section) 2 in
       Py.drop half_len hiline_section
  else hiline_section.

(** [hiline_road[0]] is the one-character string [Py.take 1 hiline_road]
    (the string is not empty where it is evaluated). *)
Definition _extract_klasse (hiline_road : string) : string :=
  if String.eqb hiline_road "" then ""
  else
    let letter :=
      if negb (String.eqb hiline_road "") then Py.upper (Py.take 1 hiline_road) else "" in
    let numeric_part :=
      if (1 <? String.length hiline_road)%nat then Py.drop 1 hiline_road else "" in
    match Py.int numeric_part ≫= Py.format_int with
    | Some numeric_text => letter +:+ numeric_text
    | None => letter +:+ numeric_part
    end.

Definition _extract_nummer (hiline_road : string) : string :=
  if String.eqb hiline_road "" then ""
  else if (1 <? String.length hiline_road)%nat then Py.drop 1 hiline_road else "".

(** The exceptions the [except] clause of [_extract_from_business_data]
    names. *)
Definition caught (e : exn) : bool :=
  match e with
  | JSONDecodeError | AttributeError | TypeError => true
  | _ => false
  end.

Section Extractor.

(** The decoder behind [json.loads]: it returns the document or raises,
    [json.JSONDecodeError] for text that is no JSON, and whatever else
    the interpreter makes of the text ([RecursionError] for nesting that
    is too deep, say). *)
Variable json_loads : string -> result value.

(** [json.loads(json_str)].  The decoder reads an integer literal with
    [int], so it raises [ValueError] rather than return a document that
    holds an integer of more than [Py.max_str_digits] digits. *)
Definition loads (json_str : string) : result value :=
  match json_loads json_str with
  | Ok data => if str_ok data then Ok data else Raise ValueError
  | Raise e => Raise e
  end.

(** The body of the [try] in [_extract_from_business_data]. *)
Definition business_data_lookup (json_str target_field : string) : result value :=
  data ← loads json_str;
  match assoc target_field survey_tp3_fields with
  | Some key =>
      d1 ← py_get data "survey_result" (PyDict []);
      d2 ← py_get d1 "tp3" (PyDict []);
      py_get d2 key (PyStr "")
  | None =>
  match assoc target_field eval_tp3_fields with
  | Some key =>
      d1 ← py_get data "evaluation_result" (PyDict []);
      d2 ← py_get d1 "tp3" (PyDict []);
      py_get d2 key (PyStr "")
  | None =>
  match assoc target_field overall_fields with
  | Some key =>
      d1 ← py_get data "evaluation_result" (PyDict []);
      d2 ← py_get d1 "overall" (PyDict []);
      py_get d2 key (PyStr "")
  | None => Ok (PyStr "")
  end end end.

(** [except (json.JSONDecodeError, AttributeError, TypeError): return ""]. *)
Definition _extract_from_business_data (json_str target_field : string) : result value :=
  match business_data_lookup json_str target_field with
  | Raise JSONDecodeError | Raise AttributeError | Raise TypeError => Ok (PyStr "")
  | r => r
  end.

(** The transformation [calculate_data] applies to one raw cell (the
    chain of tests on [target_field] and [csv_column.lower()]). *)
Definition transform (target_field csv_column raw_value : string) : result value :=
  if String.eqb target_field "VNK" && String.eqb (Py.lower csv_column) "hiline_section"
  then Ok (PyStr (_extract_vnk raw_value))
  else if String.eqb target_field "NNK" && String.eqb (Py.lower csv_column) "hiline_section"
  then Ok (PyStr (_extract_nnk raw_value))
  else if String.eqb target_field "KLASSE" && String.eqb (Py.lower csv_column) "hiline_road"
  then Ok (PyStr (_extract_klasse raw_value))
  else if String.eqb target_field "NUMMER" && String.eqb (Py.lower csv_column) "hiline_road"
  then Ok (PyStr (_extract_nummer raw_value))
  else if String.eqb (Py.lower csv_column) "business_data" && str_in target_field business_fields
  then _extract_from_business_data raw_value target_field
  else Ok (PyStr raw_value).

End Extractor.

(** ** The application state *)

(** The fields of [CSVFieldMapper] the engine reads and writes. *)
Record App : Type := mkApp {
  TARGET_FIELDS : list string;
  csv_headers : list string;
  csv_data : list (list string);
  mappings : gmap string string;
  calculated_data : option (gmap string (list value));
}.

Definition set_TARGET_FIELDS (x : list string) (st : App) : App :=
  mkApp x (csv_headers st) (csv_data st) (mappings st) (calculated_data st).
Definition set_csv_headers (x : list string) (st : App) : App :=
  mkApp (TARGET_FIELDS st) x (csv_data st) (mappings st) (calculated_data st).
Definition set_csv_data (x : list (list string)) (st : App) : App :=
  mkApp (TARGET_FIELDS st) (csv_headers st) x (mappings st) (calculated_data st).
Definition set_mappings (x : gmap string string) (st : App) : App :=
  mkApp (TARGET_FIELDS st) (csv_headers st) (csv_data st) x (calculated_data st).
Definition set_calculated_data (x : option (gmap string (list value))) (st : App) : App :=
  mkApp (TARGET_FIELDS st) (csv_headers st) (csv_data st) (mappings st) x.

(** [field in self.target_widgets]: the widgets are keyed by the target
    fields. *)
Definition in_target_widgets (field : string) (st : App) : bool :=
  str_in field (TARGET_FIELDS st).

(** ** The mapping table *)

(** [csv_column] is [var.get()], the entry chosen in the combo box. *)
Definition on_mapping_selected (target_field csv_column : string) (st : App) : App :=
  let st1 :=
    if negb (String.eqb csv_column "")
    then set_mappings (<[target_field := csv_column]> (mappings st)) st
    else set_mappings (delete target_field (mappings st)) st in
  set_calculated_data None st1.

Definition clear_mappings (st : App) : App :=
  set_calculated_data None (set_mappings ∅ st).

Definition clear_single_mapping (target_field : string) (st : App) : App :=
  set_calculated_data None (set_mappings (delete target_field (mappings st)) st).

(** The loop of [auto_map] over [enumerate(self.TARGET_FIELDS)], from
    index [i] on. *)
Fixpoint auto_map_loop (headers : list string) (i : nat) (fields : list string)
    (m : gmap string string) : gmap string string :=
  match fields with
  | [] => m
  | target_field :: rest =>
      let m' :=
        if (i <? length headers)%nat
        then match headers !! i with
             | Some h => <[target_field := h]> m
             | None => m
             end
        else m in
      auto_map_loop headers (S i) rest m'
  end.

Definition auto_map (st : App) : App :=
  match csv_headers st with
  | [] => st
  | _ =>
      let st1 := clear_mappings st in
      set_mappings (auto_map_loop (csv_headers st1) 0 (TARGET_FIELDS st1) (mappings st1)) st1
  end.

Definition mapping_rules : list (string * list string) :=
  [("ID", ["ID"]);
   ("hiline_carriageway", ["LAGE"]);
   ("hiline_road", ["KLASSE"; "NUMMER"]);
   ("business_data",
      ["EFLI"; "AFLI"; "RISS"; "ZWAUS"; "ZWBIN"; "ZWONA";
       "ZWRSF"; "ZWSCH"; "ZWAFLI"; "ZWBORD"; "ZWEFLI";
       "ZWRISS"; "ZWWURZ"; "GW"; "GEB"; "SUB"]);
   ("hiline_section", ["VNK"; "NNK"]);
   ("hiline_lane", ["FS"])].

(** [{h.lower(): h for h in self.csv_headers}]: a later header wins. *)
Definition csv_header_map (headers : list string) : gmap string string :=
  foldl (fun m h => <[Py.lower h := h]> m) ∅ headers.

(** The inner loop of [smart_auto_map] over the target fields of one rule;
    the state is the mapping and the counter [matched]. *)
Definition smart_rule_loop (st : App) (actual_csv_col : string)
    (target_fields : list string) (acc : gmap string string * nat)
    : gmap string string * nat :=
  foldl (fun '(m, matched) target_field =>
           if in_target_widgets target_field st
           then (<[target_field := actual_csv_col]> m, S matched)
           else (m, matched))
        acc target_fields.

(** Returns the number shown in the message box with the new state. *)
Definition smart_auto_map (st : App) : nat * App :=
  match csv_headers st with
  | [] => (O, st)
  | _ =>
      let st1 := clear_mappings st in
      let header_map := csv_header_map (csv_headers st1) in
      let '(m, matched) :=
        foldl (fun acc '(csv_col_key, target_fields) =>
                 match header_map !! Py.lower csv_col_key with
                 | Some actual_csv_col => smart_rule_loop st1 actual_csv_col target_fields acc
                 | None => acc
                 end)
              (mappings st1, O) mapping_rules in
      (matched, set_mappings m st1)
  end.

(** [old_mappings] is the copy taken before the dialog opened. *)
Definition rebuild_target_panel (old_mappings : gmap string string) (st : App) : App :=
  let st1 := set_mappings ∅ st in
  match csv_headers st1 with
  | [] => st1
  | _ =>
      set_mappings
        (map_fold (fun field_name csv_col m =>
                     if in_target_widgets field_name st1 && str_in csv_col (csv_headers st1)
                     then <[field_name := csv_col]> m
                     else m)
                  (mappings st1) old_mappings)
        st1
  end.

(** [dialog_result] is [dialog.result]: [None] when the dialog was
    cancelled, the list of field names when it was saved. *)
Definition edit_target_fields (dialog_result : option (list string)) (st : App) : App :=
  let old_mappings := mappings st in
  match dialog_result with
  | Some ((_ :: _) as fields) =>
      let st1 := set_TARGET_FIELDS fields st in
      let st2 := rebuild_target_panel old_mappings st1 in
      set_calculated_data None st2
  | _ => st
  end.

(** ** Loading a source table *)

(** What the file dialog and the CSV reader did in [load_csv].
    The headers are the ones after [strip]. *)
Inductive read_result : Type :=
  | NoFileChosen
      (* [askopenfilename] returned an empty path *)
  | ReadFailed (assigned : option (list string))
      (* an exception reached the outer [except]; [assigned] holds the
         headers when [self.csv_headers] had been assigned before it was
         raised (by [list(reader)], say) *)
  | ReadOk (headers : list string) (rows : list (list string)).

Definition load_csv (r : read_result) (st : App) : App :=
  match r with
  | NoFileChosen => st
  | ReadFailed None => st
  | ReadFailed (Some headers) => set_csv_headers headers st
  | ReadOk headers rows =>
      set_calculated_data None (set_csv_data rows (set_csv_headers headers st))
  end.

(** ** The progress dialog *)

(** The state of a [ProgressDialog] that is no widget. *)
Record ProgressDialog : Type := mkProgress {
  cancelled : bool;
}.

(** The places where [calculate_data] calls into Tk once its guards are
    passed. *)
Inductive tk_call : Type :=
  | OpenDialog
      (* lines 859-860: [ProgressDialog(...)] and [progress.start()] *)
  | Update (current : nat)
      (* [progress.update(current, total_rows, ...)] *)
  | Close
      (* line 900: [self.dialog.destroy()] in [progress.close()] *)
  | Report
      (* lines 902-910: the status label, the save button, [showinfo] *)
  | HandlerClose
      (* line 914: [self.dialog.destroy()] in [progress.close()] *)
  | HandlerReport
      (* line 915: [showerror] *)
  | HandlerLabel.
      (* line 917: the status label *)

(** What a call into Tk does: it returns, or it raises [TclError] (the
    grab cannot be taken, the application has been destroyed while an
    earlier [update] pumped events, ...). *)
Inductive tk_event : Type :=
  | TkIdle
  | TkRaise.

(** The environment of a run tells what each call does. *)
Definition tk_env : Type := tk_call -> tk_event.

Definition tk_do (tk : tk_env) (call : tk_call) : result unit :=
  match tk call with
  | TkIdle => Ok tt
  | TkRaise => Raise TclError
  end.

(** [update] writes to widgets only. *)
Definition progress_update (tk : tk_env) (current : nat) : result unit :=
  tk_do tk (Update current).

(** [close]: the flag is written first, then the window is destroyed
    ([call] is [Close] or [HandlerClose]). *)
Definition progress_close (tk : tk_env) (call : tk_call) (progress : ProgressDialog)
    : result unit * ProgressDialog :=
  (tk_do tk call, mkProgress true).

Definition is_raise (e : tk_event) : bool :=
  match e with
  | TkRaise => true
  | TkIdle => false
  end.

(** Whether Tk raises at one of the [progress.update] calls the loop
    makes from [row_idx] on, over [n] rows. *)
Fixpoint raises_from (tk : tk_env) (row_idx n : nat) : bool :=
  match n with
  | O => false
  | S n' =>
      ((row_idx mod 100 =? 0)%nat && is_raise (tk (Update row_idx)))
      || raises_from tk (S row_idx) n'
  end.

(** Whether Tk raises at one of the calls of the [try] block of a run
    over [total] rows. *)
Definition try_raises (tk : tk_env) (total : nat) : bool :=
  raises_from tk 0 total || is_raise (tk (Update total))
  || is_raise (tk Close) || is_raise (tk Report).

(** Whether Tk raises at one of the calls of the failure handler. *)
Definition handler_raises (tk : tk_env) : bool :=
  is_raise (tk HandlerClose) || is_raise (tk HandlerReport) || is_raise (tk HandlerLabel).

(** Whether Tk raises at one of the calls a run over [total] rows can
    make. *)
Definition tk_raises (tk : tk_env) (total : nat) : bool :=
  is_raise (tk OpenDialog) || try_raises tk total || handler_raises tk.

(** ** The calculation run *)

(** [{h: i for i, h in enumerate(self.csv_headers)}], from index [i] on. *)
Fixpoint index_headers (i : nat) (headers : list string) (m : gmap string nat)
    : gmap string nat :=
  match headers with
  | [] => m
  | h :: rest => index_headers (S i) rest (<[h := i]> m)
  end.

Definition header_index (headers : list string) : gmap string nat :=
  index_headers 0 headers ∅.

(** [header_index.get(csv_column, -1)]. *)
Definition csv_col_index (headers : list string) (csv_column : string) : Z :=
  match header_index headers !! csv_column with
  | Some i => Z.of_nat i
  | None => -1
  end.

(** [row[i] if 0 <= i < len(row) else ""]. *)
Definition raw_value (row : list string) (i : Z) : string :=
  if (0 <=? i) && (i <? Z.of_nat (length row))
  then default "" (row !! Z.to_nat i)
  else "".

(** [{k: v for k, v in self.mappings.items() if v}]. *)
Definition active_mappings (m : gmap string string) : gmap string string :=
  filter (fun kv => kv.2 ≠ "") m.

Abbreviation table := (gmap string (list value)).

(** [self.calculated_data[target_field].append(value)]. *)
Definition append_cell (target_field : string) (v : value) (t : table) : result table :=
  match t !! target_field with
  | Some column => Ok (<[target_field := column ++ [v]]> t)
  | None => Raise KeyError
  end.

(** How a block that works on a state ends: it runs through, or an
    exception leaves it; either way with the state as it is then. *)
Inductive run (S : Type) : Type :=
  | Done (s : S)
  | Raised (e : exn) (s : S).
Arguments Done {S} s.
Arguments Raised {S} e s.

Definition run_state {S : Type} (r : run S) : S :=
  match r with
  | Done s | Raised _ s => s
  end.


Section Calculation.

Variable json_loads : string -> result value.

(** The inner loop of [calculate_data] over [active_mappings.items()],
    for one row, on the table [self.calculated_data] holds. *)
Fixpoint process_fields (headers : list string) (row : list string)
    (items : list (string * string)) (t : table) : run table :=
  match items with
  | [] => Done t
  | (target_field, csv_column) :: rest =>
      let i := csv_col_index headers csv_column in
      let raw := raw_value row i in
      match transform json_loads target_field csv_column raw with
      | Raise e => Raised e t
      | Ok v =>
          match append_cell target_field v t with
          | Raise e => Raised e t
          | Ok t' => process_fields headers row rest t'
          end
      end
  end.

(** The outer loop over [enumerate(self.csv_data)], from [row_idx] on.
    It does not read the [cancelled] flag of the dialog. *)
Fixpoint process_rows (tk : tk_env) (headers : list string)
    (active : gmap string string)
    (row_idx : nat) (rows : list (list string)) (t : table) : run table :=
  match rows with
  | [] => Done t
  | row :: rest =>
      match (if (row_idx mod 100 =? 0)%nat
             then progress_update tk row_idx
             else Ok tt) with
      | Raise e => Raised e t
      | Ok _ =>
          match process_fields headers row (map_to_list active) t with
          | Raised e t' => Raised e t'
          | Done t' => process_rows tk headers active (S row_idx) rest t'
          end
      end
  end.

(** The table line 868 assigns. *)
Definition fresh_table (st : App) : table :=
  (fun _ => []) <$> active_mappings (mappings st).

(** The body of the [try] in [calculate_data], lines 863-910: the state
    is the dialog and the table [self.calculated_data] holds. *)
Definition calculate_run (tk : tk_env) (st : App) (progress : ProgressDialog)
    : run (ProgressDialog * table) :=
  let total_rows := length (csv_data st) in
  let active := active_mappings (mappings st) in
  match process_rows tk (csv_headers st) active 0 (csv_data st) (fresh_table st) with
  | Raised e t => Raised e (progress, t)
  | Done t =>
      match progress_update tk total_rows with
      | Raise e => Raised e (progress, t)
      | Ok _ =>
          match progress_close tk Close progress with
          | (Raise e, progress') => Raised e (progress', t)
          | (Ok _, progress') =>
              match tk_do tk Report with
              | Raise e => Raised e (progress', t)
              | Ok _ => Done (progress', t)
              end
          end
      end
  end.

(** How a call of [calculate_data] ends: with one of the two warnings,
    with the completion message (fields, rows), with the error message
    of the [except] branch, or with an exception that leaves the
    method. *)
Inductive outcome : Type :=
  | Warning (msg : string)
  | Complete (fields rows : nat)
  | Failure (e : exn)
  | Crash (e : exn).

(** The [except Exception] branch, lines 913-917, entered with the table
    [t] in [self.calculated_data]. *)
Definition handle_failure (tk : tk_env) (e : exn) (progress : ProgressDialog)
    (t : table) (st : App) : outcome * App :=
  match progress_close tk HandlerClose progress with
  | (Raise e', _) => (Crash e', set_calculated_data (Some t) st)
  | (Ok _, _) =>
      match tk_do tk HandlerReport with
      | Raise e' => (Crash e', set_calculated_data (Some t) st)
      | Ok _ =>
          match tk_do tk HandlerLabel with
          | Raise e' => (Crash e', set_calculated_data None st)
          | Ok _ => (Failure e, set_calculated_data None st)
          end
      end
  end.

Definition calculate_data (tk : tk_env) (st : App) : outcome * App :=
  if bool_decide (mappings st = ∅)
  then (Warning "No mappings defined. Please map some fields first.", st)
  else match csv_data st with
  | [] => (Warning "No CSV data loaded.", st)
  | _ =>
      match tk_do tk OpenDialog with
      | Raise e => (Crash e, st)
      | Ok _ =>
          let progress := mkProgress false in
          match calculate_run tk st progress with
          | Done (_, t) =>
              (Complete (size (active_mappings (mappings st))) (length (csv_data st)),
               set_calculated_data (Some t) st)
          | Raised e (progress', t) => handle_failure tk e progress' t st
          end
      end
  end.

End Calculation.

(** ** Export *)

(** The guard of [save_to_access]: [if not self.calculated_data] sends
    the user back to Calculate. *)
Definition can_export (st : App) : bool :=
  match calculated_data st with
  | Some t => negb (bool_decide (t = ∅))
  | None => false
  end.

Section ExportCells.

(** The text of the [repr] of a [float], a [list] or a [dict], where
    [repr] returns. *)
Variable py_repr : value -> string.

(** The text [str(v)] gives where it returns. *)
Definition str_text (v : value) : string :=
  match v with
  | PyNone => "None"
  | PyBool true => "True"
  | PyBool false => "False"
  | PyInt n => Py.str_int n
  | PyStr s => s
  | _ => py_repr v
  end.

(** [str(v)]: [ValueError] when [v] holds an [int] of too many digits. *)
Definition py_str (v : value) : result string :=
  if str_ok v then Ok (str_text v) else Raise ValueError.

(** The cell [_save_as_csv] and [_save_as_access] append for [v]. *)
Definition export_cell (v : value) : result string :=
  match v with
  | PyNone => Ok ""
  | _ => py_str v
  end.

End ExportCells.

(** ** A decoder to run the examples

    The theorems below hold for every [json_loads].  To evaluate the
    extractors on concrete documents, [Json.loads] decodes the part of
    JSON the examples use: objects, arrays, strings without escapes,
    integers, [true], [false] and [null], nested as deep as the
    interpreter lets them.  Everything else is rejected as
    [JSONDecodeError]; an integer of too many digits is [ValueError],
    raised where the decoder meets it. *)

Module Json.

Definition dquote : ascii := "034"%char.

(** [quoted s] is [s] between double quotes. *)
Definition quoted (s : string) : string :=
  String dquote (s +:+ String dquote EmptyString).

Definition is_ws (c : ascii) : bool :=
  Ascii.eqb c " " || Ascii.eqb c "009" || Ascii.eqb c "010" || Ascii.eqb c "013".

Fixpoint skip_ws (s : string) : string :=
  match s with
  | String c s' => if is_ws c then skip_ws s' else s
  | EmptyString => EmptyString
  end.

Definition decode_error {A : Type} : result A := Raise JSONDecodeError.

(** The characters up to the closing quote, and what follows it. *)
Fixpoint string_body (s : string) : result (string * string) :=
  match s with
  | EmptyString => decode_error
  | String c s' =>
      if Ascii.eqb c dquote then Ok (EmptyString, s')
      else if Ascii.eqb c "\" || Py.in_range 0 31 c then decode_error
      else '(body, rest) ← string_body s'; Ok (String c body, rest)
  end.

Definition is_digit (c : ascii) : bool := Py.in_range 48 57 c.

(** The longest prefix of digits, and what follows it. *)
Fixpoint digits (s : string) : string * string :=
  match s with
  | String c s' =>
      if is_digit c then let '(d, rest) := digits s' in (String c d, rest) else (EmptyString, s)
  | EmptyString => (EmptyString, EmptyString)
  end.

Definition starts_fraction (s : string) : bool :=
  match s with
  | String c _ => Ascii.eqb c "." || Ascii.eqb c "e" || Ascii.eqb c "E"
  | EmptyString => false
  end.

(** An optional minus sign and digits without a superfluous leading
    zero, not followed by a fraction or an exponent; the digits go
    through [int]. *)
Definition integer (s : string) : result (Z * string) :=
  let '(negative, s1) :=
    match s with
    | String "-" r => (true, r)
    | _ => (false, s)
    end in
  let '(d, rest) := digits s1 in
  match d with
  | EmptyString => decode_error
  | String "0" (String _ _) => decode_error
  | _ =>
      if starts_fraction rest then decode_error
      else match Py.int d with
           | Some n => Ok (if negative : bool then - n else n, rest)
           | None => Raise ValueError
           end
  end.

Definition literal (word : string) (v : value) (s : string) : result (value * string) :=
  if String.prefix word s then Ok (v, Py.drop (String.length word) s) else decode_error.

(** [d[k] = v] on the items of a dict: a key keeps its first place. *)
Fixpoint dict_set (k : string) (v : value) (d : list (string * value))
    : list (string * value) :=
  match d with
  | [] => [(k, v)]
  | (k', v') :: d' => if String.eqb k' k then (k, v) :: d' else (k', v') :: dict_set k v d'
  end.

Inductive mode : Type :=
  | Value
  | Members (acc : list (string * value))
  | Elements (acc : list value).

Fixpoint parse (fuel : nat) (m : mode) (s : string) : result (value * string) :=
  match fuel with
  | O => decode_error
  | S fuel' =>
      match m with
      | Value =>
          match skip_ws s with
          | String "{" r =>
              match skip_ws r with
              | String "}" r' => Ok (PyDict [], r')
              | _ => parse fuel' (Members []) r
              end
          | String "[" r =>
              match skip_ws r with
              | String "]" r' => Ok (PyList [], r')
              | _ => parse fuel' (Elements []) r
              end
          | String "n" _ as t => literal "null" PyNone t
          | String "t" _ as t => literal "true" (PyBool true) t
          | String "f" _ as t => literal "false" (PyBool false) t
          | String c r as t =>
              if Ascii.eqb c dquote
              then '(body, rest) ← string_body r; Ok (PyStr body, rest)
              else '(n, rest) ← integer t; Ok (PyInt n, rest)
          | EmptyString => decode_error
          end
      | Members acc =>
          match skip_ws s with
          | String c r =>
              if Ascii.eqb c dquote
              then
                '(key, r1) ← string_body r;
                match skip_ws r1 with
                | String ":" r2 =>
                    '(v, r3) ← parse fuel' Value r2;
                    let acc' := dict_set key v acc in
                    match skip_ws r3 with
                    | String "," r4 => parse fuel' (Members acc') r4
                    | String "}" r4 => Ok (PyDict acc', r4)
                    | _ => decode_error
                    end
                | _ => decode_error
                end
              else decode_error
          | EmptyString => decode_error
          end
      | Elements acc =>
          '(v, r1) ← parse fuel' Value s;
          let acc' := acc ++ [v] in
          match skip_ws r1 with
          | String "," r2 => parse fuel' (Elements acc') r2
          | String "]" r2 => Ok (PyList acc', r2)
          | _ => decode_error
          end
      end
  end.

Definition loads (s : string) : result value :=
  '(v, rest) ← parse (2 * S (String.length s)) Value s;
  match skip_ws rest with
  | EmptyString => Ok v
  | _ => decode_error
  end.

(** The document [{"evaluation_result": {"overall": {"geb": g}}}]. *)
Definition geb_document (g : string) : string :=
  "{" +:+ quoted "evaluation_result" +:+ ": {" +:+ quoted "overall" +:+ ": {"
      +:+ quoted "geb" +:+ ": " +:+ g +:+ "}}}".

End Json.

(** ** What the specification talks about *)

(** A decimal rendering without leading zeros: an optional minus sign,
    then ["0"] alone or digits that do not start with ["0"]. *)
Definition no_leading_zeros (s : string) : bool :=
  match s with
  | String "0" (String _ _) => false
  | String "-" (String "0" _) => false
  | String "-" EmptyString => false
  | EmptyString => false
  | _ => true
  end.

(** [n] times the digit 1. *)
Fixpoint ones (n : nat) : string :=
  match n with
  | O => EmptyString
  | S n' => String "1" (ones n')
  end.

Definition int_digits_of (d : Decimal.int) : Decimal.uint :=
  match d with
  | Decimal.Pos u | Decimal.Neg u => u
  end.

(** The path table of the specification: the two objects to go through
    and the key to read, for a target field. *)
Definition spec_path (target_field : string) : option (string * string * string) :=
  if str_in target_field ["EFLI"; "AFLI"; "RISS"; "ONA"]
  then Some ("survey_result", "tp3", Py.lower target_field)
  else if str_in target_field
            ["ZWAUS"; "ZWBIN"; "ZWONA"; "ZWRSF"; "ZWSCH"; "ZWAFLI"; "ZWBORD";
             "ZWEFLI"; "ZWRISS"; "ZWWURZ"]
  then Some ("evaluation_result", "tp3", Py.lower target_field)
  else if str_in target_field ["GW"; "GEB"; "SUB"]
  then Some ("evaluation_result", "overall", Py.lower target_field)
  else None.

(** The member [key] of a document, when the document is an object that
    has it. *)
Definition member (key : string) (obj : value) : option value :=
  match obj with
  | PyDict d => dict_lookup key d
  | _ => None
  end.

(** The value a document holds at a path, when every step exists. *)
Definition value_at (data : value) (path : string * string * string) : option value :=
  let '(outer, inner, key) := path in
  d1 ← member outer data;
  d2 ← member inner d1;
  member key d2.

(** The three chained [.get] calls of the extractor along a path. *)
Definition get_chain (data : value) (path : string * string * string) : result value :=
  let '(outer, inner, key) := path in
  d1 ← py_get data outer (PyDict []);
  d2 ← py_get d1 inner (PyDict []);
  py_get d2 key (PyStr "").

(** The positional auto-map as the specification words it, between the
    state before ([st]) and the mapping after ([m]). *)
Definition positional (st : App) (m : gmap string string) : Prop :=
  let T := TARGET_FIELDS st in
  let H := csv_headers st in
  let n := Nat.min (length T) (length H) in
  (forall i f h, (i < n)%nat -> T !! i = Some f -> H !! i = Some h -> m !! f = Some h)
  /\ (forall i f, (n <= i)%nat -> T !! i = Some f -> m !! f = None)
  /\ (forall f h, m !! f = Some h ->
        exists i, (i < n)%nat /\ T !! i = Some f /\ H !! i = Some h).

Section Table.

Variable json_loads : string -> result value.

(** The value [transform] gives when it does not raise. *)
Definition cell_value (target_field csv_column raw : string) : value :=
  match transform json_loads target_field csv_column raw with
  | Ok v => v
  | Raise _ => PyStr ""
  end.

(** The cell of [target_field], mapped to [csv_column], for [row]. *)
Definition cell (headers : list string) (target_field csv_column : string)
    (row : list string) : value :=
  cell_value target_field csv_column (raw_value row (csv_col_index headers csv_column)).

(** The table of a run that completes: one column per active mapping,
    one cell per row. *)
Definition calc_table (st : App) : gmap string (list value) :=
  map_imap (fun target_field csv_column =>
              Some (cell (csv_headers st) target_field csv_column <$> csv_data st))
           (active_mappings (mappings st)).

End Table.

(** ** States and environments for the examples *)

Module Sample.

(** Two target fields mapped, one row loaded, a table left by an earlier
    run. *)
Definition app : App :=
  mkApp ["A"; "GEB"] ["a"; "business_data"] [["1"; Json.geb_document "3"]]
        (<["A" := "a"]> {["GEB" := "business_data"]})
        (Some {["A" := [PyStr "old"]]}).

(** A document with an integer of 4301 digits at the path of GEB, and
    [app] with that document in its row. *)
Definition long_integer : string := Json.geb_document (ones 4301).

Definition long_integer_app : App :=
  mkApp ["A"; "GEB"] ["a"; "business_data"] [["1"; long_integer]]
        (<["A" := "a"]> {["GEB" := "business_data"]})
        (Some {["A" := [PyStr "old"]]}).

(** Headers that lack two of the mapped columns, and a row that is too
    short for the third. *)
Definition ragged : App :=
  mkApp ["A"; "GEB"; "B"] ["b"; "c"] [["1"]; ["2"; "3"]]
        (<["A" := "a"]> (<["GEB" := "business_data"]> {["B" := "c"]}))
        None.

Definition no_mapping : App :=
  mkApp ["A"] ["a"] [["1"]] ∅ (Some {["A" := [PyStr "old"]]}).

(** No headers, with a mapping left from an earlier file. *)
Definition no_headers : App :=
  mkApp ["A"] [] [] {["A" := "x"]} None.

(** A target field entered twice in the edit dialog. *)
Definition twice : App :=
  mkApp ["A"; "A"] ["x"; "y"] [] ∅ None.

Definition five_three : App :=
  mkApp ["A"; "B"; "C"; "D"; "E"] ["x"; "y"; "z"] [] {["E" := "z"]} None.

Definition idle : tk_env := fun _ => TkIdle.



(** [app] after a run of Calculate. *)
Definition calculated : App := (calculate_data Json.loads idle app).2.

Definition no_repr : value -> string := fun _ => "".

End Sample.

(** * Further parts of the program *)

(** ** The usage counters *)

(** The dict [column_usage_count] that [update_csv_mapped_indicators] and
    [update_counts] build from [self.mappings.values()]. *)
Definition column_usage_count (m : gmap string string) : gmap string nat :=
  map_fold (fun _ csv_col counts =>
              <[csv_col := (default O (counts !! csv_col) + 1)%nat]> counts)
           ∅ m.

(** [column_usage_count.get(col_name, 0)]. *)
Definition usage_count (m : gmap string string) (col_name : string) : nat :=
  default O (column_usage_count m !! col_name).

(** The numbers [update_counts] shows: [mapped], [remaining] and
    [shared_columns]. *)
Definition mapped_count (st : App) : nat := size (mappings st).

Definition remaining_count (st : App) : Z :=
  Z.of_nat (length (TARGET_FIELDS st)) - Z.of_nat (size (mappings st)).

Definition shared_columns (st : App) : nat :=
  size (filter (fun kv => (1 < kv.2)%nat) (column_usage_count (mappings st))).

(** ** The dialog that edits the target fields *)

Module EditTargetFieldsDialog.

Definition newline : ascii := "010"%char.

(** [s.split("\n")]. *)
Fixpoint split (s : string) : list string :=
  match s with
  | EmptyString => [EmptyString]
  | String c s' =>
      if Ascii.eqb c newline then EmptyString :: split s'
      else match split s' with
           | line :: lines => String c line :: lines
           | [] => [String c EmptyString]
           end
  end.

(** ["\n".join(current_fields)] followed by the newline that
    [text_area.get("1.0", tk.END)] appends to the content. *)
Definition shown (current_fields : list string) : string :=
  String.concat (String newline EmptyString) current_fields
  +:+ String newline EmptyString.

(** [save]: the new [self.result], [None] when the warning is shown and
    the result stays as it was. *)
Definition save (text : string) : option (list string) :=
  let fields :=
    Py.strip <$> List.filter (fun f => negb (String.eqb (Py.strip f) ""))
                             (split (Py.strip text)) in
  match fields with
  | [] => None
  | _ => Some fields
  end.

End EditTargetFieldsDialog.

(** ** Detecting the delimiter *)

(** [s.count(c)] for a single character. *)
Fixpoint count_char (c : ascii) (s : string) : nat :=
  match s with
  | EmptyString => O
  | String c' s' => ((if Ascii.eqb c' c then 1 else 0) + count_char c s')%nat
  end.

(** The delimiter [load_csv] chooses from the sample it read. *)
Definition detect_delimiter (sample : string) : ascii :=
  let first_line := default "" (head (EditTargetFieldsDialog.split sample)) in
  let semicolon_count := count_char ";" first_line in
  let comma_count := count_char "," first_line in
  let tab_count := count_char "009" first_line in
  if (comma_count <? semicolon_count)%nat && (tab_count <? semicolon_count)%nat
  then ";"%char
  else if (comma_count <? tab_count)%nat && (semicolon_count <? tab_count)%nat
  then "009"%char
  else ","%char.

(** ** Building the exported rows *)

Module Save.

Inductive error : Type :=
  | IndexError
  | KeyError
  | ValueError.

(** What [_save_as_csv] does before and while it writes: the warning, the
    header and the rows handed to the writer, or the exception that
    reaches its [except]. *)
Inductive outcome : Type :=
  | NoData
  | Written (header : list string) (rows : list (list string))
  | Failed (e : error).

Section Rows.

Variable py_repr : value -> string.

(** [[f for f in self.calculated_data.keys() if self.calculated_data[f]]];
    [keys] is the key list of the dict, in its order. *)
Definition fields_with_data (keys : list string) (t : table) : list string :=
  List.filter (fun f => match t !! f with
                        | Some (_ :: _) => true
                        | _ => false
                        end) keys.

(** [self.calculated_data[field][i]], converted for the writer; the
    only exception of the conversion is the [ValueError] of [str]. *)
Definition cell_text (t : table) (i : nat) (field : string) : error + string :=
  match t !! field with
  | Some column =>
      match column !! i with
      | Some v =>
          match export_cell py_repr v with
          | Ok text => inr text
          | Raise _ => inl ValueError
          end
      | None => inl IndexError
      end
  | None => inl KeyError
  end.

(** A loop that appends what [f] gives for each element, left to
    right, and stops at the first exception. *)
Fixpoint collect {A B : Type} (f : A -> error + B) (l : list A) : error + list B :=
  match l with
  | [] => inr []
  | x :: rest =>
      match f x with
      | inl e => inl e
      | inr y =>
          match collect f rest with
          | inl e => inl e
          | inr ys => inr (y :: ys)
          end
      end
  end.

(** The rows of [_save_as_csv] and the [data_rows] of [_save_as_access]. *)
Definition _save_as_csv (keys : list string) (t : table) : outcome :=
  match fields_with_data keys t with
  | [] => NoData
  | (first :: _) as fields =>
      let num_rows := length (default [] (t !! first)) in
      match collect (fun i => collect (cell_text t i) fields) (seq 0 num_rows) with
      | inr rows => Written fields rows
      | inl e => Failed e
      end
  end.

End Rows.

End Save.

(** ** The default configuration *)

Definition DEFAULT_TARGET_FIELDS : list string :=
  ["ID"; "ZENDI"; "KLASSE"; "NUMMER"; "BUCHSTABE"; "LAGE"; "FS"; "VNK"; "NNK";
   "VST"; "BST"; "VKM"; "BKM"; "FSANZAHL"; "FBANZAHL"; "OD_FS"; "BAULAST";
   "RADWEG_FLA"; "RAD"; "Bauw_3"; "BREITE"; "RIS"; "RISK"; "FLI"; "FLIK";
   "SUB"; "VER"; "AUS"; "SEN"; "HEB"; "RISG"; "FLIG"; "RSF"; "KUN"; "GEF";
   "G"; "BAUW_PR"; "DATUM_3"; "Uhr_3"; "ZWRIS"; "ZWRISK"; "ZWFLI"; "ZWFLIK";
   "ZWSUB"; "ZWVER"; "ZWAUS"; "ZWSEN"; "ZWHEB"; "ZWRISG"; "ZWFLIG"; "ZWKUN";
   "TWGEB"; "TWSUB"; "GW"; "NIC_L"; "NIC_R"; "NIC"; "ZWNIC"; "FUNKTION";
   "BAUW"; "DATUM_1A"; "UHRZEIT_1A"; "VM_1A"; "AUN"; "ZWAUN"; "PGR_AVG";
   "PGR_MAX"; "ZWPGR"; "SBL"; "DBL"; "W"; "LWI_FS"; "RML_LWI_FS"; "LWI_OD";
   "RML_LWI_OD"; "ZWLWI"; "S03"; "S10"; "S30"; "LN"; "K"; "DATUM_1B";
   "UHRZEIT_1B"; "VM_1B"; "MSPTR"; "MSPTL"; "MSPT"; "ZWSPT"; "MSPHR"; "MSPHL";
   "MSPH"; "ZWSPH"; "SSPTR"; "SSPTL"; "SSPHR"; "SSPHL"; "QN"; "DATUM_2";
   "UHRZEIT_2"; "VMIN_2"; "GRI_40"; "GRI_60"; "GRI_80"; "ZWGRI"; "UHRZEIT_3";
   "VM_3"; "RISS"; "ZWRISS"; "EFLI"; "AFLI"; "ZWAFLI"; "ONA"; "BIN"; "RSFA";
   "ZWRSFA"; "LQRL"; "ZWLQRL"; "LQRP"; "ZWLQRP"; "LQR"; "ZWLQR"; "EABF";
   "ZWEABF"; "EABP"; "ZWEABP"; "EAB"; "ZWEAB"; "KASL"; "ZWKASL"; "KASP";
   "ZWKASP"; "ZWKAS"; "RSFB"; "ZWRSFB"; "NTR"; "FUF"; "BTE"; "TWUM"; "ZK";
   "MESSJAHR"; "ZWAUN_15"; "ZWLWI_15"; "ZWDBL_15"; "ZWSBL_15"; "ZWBPL_15";
   "ZWSPT_15"; "ZWSPH_15"; "ZWGRI_15"; "ZWRISS_15"; "ZWFLI_15"; "ZWAFLI_15";
   "ZWRISG_15"; "ZWLQRL_15"; "ZWLQRP_15"; "ZWLQR_15"; "ZWRSFB_15"; "ZWRSFA_15";
   "TWE_15"; "TWN_15"; "TWEQLQ_15"; "TWRIO_15"; "GEB_15"; "SUB_15"; "GW_15";
   "OFS"; "IRI"; "ZWPGR_AVG"; "ZWPGR_MAX"; "ZWEFLI"; "ZWONA"; "ZWBIN"; "ZWOFS";
   "ZWSCH"; "ZWBORD"; "ZWWURZ"; "ZWRSF"; "GEB"].

(** The state [__init__] builds. *)
Definition initial : App := mkApp DEFAULT_TARGET_FIELDS [] [] ∅ None.

(** ** Sessions *)

(** What the user can do between two looks at the state. *)
Inductive event : Type :=
  | SelectMapping (target_field csv_column : string)
  | ClearSingleMapping (target_field : string)
  | ClearMappings
  | AutoMap
  | SmartAutoMap
  | EditTargetFields (dialog_result : option (list string))
  | LoadCsv (r : read_result)
  | Calculate (tk : tk_env).

(** The combo box and the clear button of a row exist for the target
    fields only. *)
Definition enabled (ev : event) (st : App) : Prop :=
  match ev with
  | SelectMapping target_field _ | ClearSingleMapping target_field =>
      target_field ∈ TARGET_FIELDS st
  | _ => True
  end.

(** A load that fails after [self.csv_headers] was assigned. *)
Definition half_loaded (ev : event) : Prop :=
  match ev with
  | LoadCsv (ReadFailed (Some _)) => True
  | _ => False
  end.

Section Sessions.

Variable json_loads : string -> result value.

Definition apply_event (ev : event) (st : App) : App :=
  match ev with
  | SelectMapping target_field csv_column => on_mapping_selected target_field csv_column st
  | ClearSingleMapping target_field => clear_single_mapping target_field st
  | ClearMappings => clear_mappings st
  | AutoMap => auto_map st
  | SmartAutoMap => (smart_auto_map st).2
  | EditTargetFields dialog_result => edit_target_fields dialog_result st
  | LoadCsv r => load_csv r st
  | Calculate tk => (calculate_data json_loads tk st).2
  end.

(** The states a session reaches from [start]. *)
Inductive reachable (start : App) : App -> Prop :=
  | reach_start : reachable start start
  | reach_step st ev :
      reachable start st -> enabled ev st -> reachable start (apply_event ev st).

(** A run whose failure handler fails in its turn: the application has
    been destroyed, and the session is over. *)
Definition handler_failed (ev : event) (st : App) : Prop :=
  match ev with
  | Calculate tk =>
      tk OpenDialog = TkIdle /\ exists e, (calculate_data json_loads tk st).1 = Crash e
  | _ => False
  end.

(** The same, in sessions without a half-finished load, as long as the
    application lives. *)
Inductive reachable_clean (start : App) : App -> Prop :=
  | clean_start : reachable_clean start start
  | clean_step st ev :
      reachable_clean start st -> enabled ev st -> ~ half_loaded ev ->
      ~ handler_failed ev st ->
      reachable_clean start (apply_event ev st).

End Sessions.

(** ** Notions the further properties are stated with *)

(** The text of a run of decimal digits. *)
Definition digits_text (u : Decimal.uint) : string := NilEmpty.string_of_uint u.

(** The target fields bound to a column. *)
Definition bound_to (m : gmap string string) (col : string) : gmap string string :=
  filter (fun kv => kv.2 = col) m.

(** The loop of [smart_auto_map] over the rules. *)
Definition smart_rules_loop (st : App) (header_map : gmap string string)
    (rules : list (string * list string)) (acc : gmap string string * nat)
    : gmap string string * nat :=
  foldl (fun acc '(csv_col_key, target_fields) =>
           match header_map !! Py.lower csv_col_key with
           | Some actual_csv_col => smart_rule_loop st actual_csv_col target_fields acc
           | None => acc
           end)
        acc rules.

(** Every mapped field is a target field. *)
Definition keys_are_fields (st : App) : Prop :=
  forall f, is_Some (mappings st !! f) -> f ∈ TARGET_FIELDS st.

(** The stored table, when there is one, is the table of the current
    mapping and source table. *)
Definition table_is_current (json_loads : string -> result value) (st : App) : Prop :=
  forall t, calculated_data st = Some t -> t = calc_table json_loads st.

(** The text of an exported cell, where the conversion returns. *)
Definition export_text (py_repr : value -> string) (v : value) : string :=
  match v with
  | PyNone => ""
  | _ => str_text py_repr v
  end.

(** A string that does not start with white space. *)
Definition head_ok (s : string) : Prop :=
  match s with
  | EmptyString => True
  | String c _ => Py.is_space c = false
  end.

(** A field name as the dialog leaves it: not empty, no white space at
    either end, on one line. *)
Definition clean (f : string) : Prop :=
  f <> "" /\ Py.strip f = f /\ count_char EditTargetFieldsDialog.newline f = O.

(** The lines of the dialog, joined. *)
Definition joined (fields : list string) : string :=
  String.concat (String EditTargetFieldsDialog.newline "") fields.

(** ** Sample sessions *)

Module Session.

(** A file with a road column and an id column, loaded into the state
    the program starts in; its second row is too short. *)
Definition loaded : App :=
  load_csv (ReadOk ["HiLine_Road"; "Id"] [["l0048"; "7"]; ["k0012"]]) initial.

Definition mapped : App := (smart_auto_map loaded).2.

Definition calculated : App := (calculate_data Json.loads Sample.idle mapped).2.

(** A file whose only header cell is blank, mapped by position. *)
Definition unnamed : App :=
  auto_map (load_csv (ReadOk [""] [["1"]]) (mkApp ["A"] [] [] ∅ None)).

End Session.

(** * Properties *)

(** ** Text *)

Lemma take_drop (n : nat) (s : string) : Py.take n s +:+ Py.drop n s = s.
Proof.
  revert s; induction n as [|n IH]; intros [|c s]; simpl; try reflexivity.
  transitivity (String c (Py.take n s +:+ Py.drop n s)); [reflexivity |].
  f_equal. apply IH.
Qed.

Lemma length_take (n : nat) (s : string) :
  (n <= String.length s)%nat -> String.length (Py.take n s) = n.
Proof.
  revert s; induction n as [|n IH]; intros [|c s] Hn; simpl in *; try lia.
  f_equal. apply IH. lia.
Qed.

Lemma eqb_empty_length (s : string) :
  String.eqb s "" = (String.length s =? 0)%nat.
Proof. destruct s; reflexivity. Qed.

(** ** Integers and their decimal text *)

Lemma string_of_uint_nonnil (u : Decimal.uint) :
  u <> Decimal.Nil -> NilZero.string_of_uint u = NilEmpty.string_of_uint u.
Proof. destruct u; [congruence | reflexivity ..]. Qed.

Lemma int_lstrip_uint (u : Decimal.uint) :
  Py.int_lstrip (NilEmpty.string_of_uint u) = NilEmpty.string_of_uint u.
Proof. destruct u; reflexivity. Qed.

Lemma int_rstrip_uint (u : Decimal.uint) :
  Py.int_rstrip (NilEmpty.string_of_uint u) = NilEmpty.string_of_uint u.
Proof.
  induction u; cbn [NilEmpty.string_of_uint Py.int_rstrip]; try reflexivity;
    rewrite IHu; destruct (NilEmpty.string_of_uint u); reflexivity.
Qed.

Lemma int_digits_uint (u : Decimal.uint) (after_digit : bool) :
  u <> Decimal.Nil \/ after_digit = true ->
  Py.int_digits after_digit (NilEmpty.string_of_uint u) = Some u.
Proof.
  revert after_digit; induction u; intros b Hb;
    cbn [NilEmpty.string_of_uint Py.int_digits];
    try (rewrite (IHu true) by (right; reflexivity); reflexivity).
  destruct Hb as [Hb | ->]; [congruence | reflexivity].
Qed.

Lemma int_of_digits_fits (negative : bool) (d : Decimal.uint) :
  (Decimal.nb_digits d <= Py.max_str_digits)%nat ->
  Py.int_of_digits negative d
  = Some (Z.of_int (if negative then Decimal.Neg d else Decimal.Pos d)).
Proof.
  intros H. unfold Py.int_of_digits.
  replace (Decimal.nb_digits d <=? Py.max_str_digits)%nat with true
    by (symmetry; apply Nat.leb_le; exact H).
  reflexivity.
Qed.

Lemma int_of_digits_long (negative : bool) (d : Decimal.uint) :
  (Py.max_str_digits < Decimal.nb_digits d)%nat -> Py.int_of_digits negative d = None.
Proof.
  intros H. unfold Py.int_of_digits.
  replace (Decimal.nb_digits d <=? Py.max_str_digits)%nat with false
    by (symmetry; apply Nat.leb_gt; exact H).
  reflexivity.
Qed.

(** [int] on the text of a run of digits: its value, unless there are
    more than [max_str_digits] of them. *)
Lemma int_uint (u : Decimal.uint) :
  u <> Decimal.Nil ->
  Py.int (NilEmpty.string_of_uint u) = Py.int_of_digits false u.
Proof.
  intros Hu. unfold Py.int. rewrite int_lstrip_uint, int_rstrip_uint.
  pose proof (int_digits_uint u false (or_introl Hu)) as Hd.
  destruct u; try congruence;
    cbn [NilEmpty.string_of_uint] in *; cbn [Ascii.eqb Bool.eqb];
    rewrite Hd; reflexivity.
Qed.

Lemma int_string_of_int (d : Decimal.int) :
  int_digits_of d <> Decimal.Nil ->
  (Decimal.nb_digits (int_digits_of d) <= Py.max_str_digits)%nat ->
  Py.int (NilZero.string_of_int d) = Some (Z.of_int d).
Proof.
  destruct d as [u|u]; simpl; intros Hu Hlen.
  - rewrite string_of_uint_nonnil by assumption.
    rewrite int_uint by assumption. apply (int_of_digits_fits false). exact Hlen.
  - rewrite string_of_uint_nonnil by assumption.
    unfold Py.int. cbn [Py.int_lstrip].
    change (Py.is_int_space "-") with false. cbv iota.
    cbn [Py.int_rstrip]. rewrite int_rstrip_uint.
    pose proof (int_digits_uint u false (or_introl Hu)) as Hd.
    destruct u; try congruence;
      cbn [NilEmpty.string_of_uint] in *; cbn [Ascii.eqb Bool.eqb];
      rewrite Hd; apply (int_of_digits_fits true); exact Hlen.
Qed.

Lemma abs_N_to_int (n : Z) : int_digits_of (Z.to_int n) = N.to_uint (Z.abs_N n).
Proof. destruct n; reflexivity. Qed.

(** Reading back the text of an integer that [str] can write gives the
    integer. *)
Lemma int_str_int (n : Z) : Py.int_fits n = true -> Py.int (Py.str_int n) = Some n.
Proof.
  intros Hfit. unfold Py.str_int. rewrite int_string_of_int.
  - f_equal. apply DecimalZ.of_to.
  - destruct n; simpl; [discriminate | apply DecimalPos.Unsigned.to_uint_nonnil ..].
  - rewrite abs_N_to_int. apply Nat.leb_le. exact Hfit.
Qed.

Lemma nb_digits_unorm_max (d : Decimal.uint) :
  (Decimal.nb_digits (Decimal.unorm d) <= Nat.max 1 (Decimal.nb_digits d))%nat.
Proof.
  destruct d; [simpl; lia | ..];
    match goal with
    | |- context [Decimal.unorm ?u] =>
        pose proof (nb_digits_unorm u ltac:(discriminate)); lia
    end.
Qed.

Lemma int_fits_of_digits (negative : bool) (d : Decimal.uint) (n : Z) :
  Py.int_of_digits negative d = Some n -> Py.int_fits n = true.
Proof.
  unfold Py.int_of_digits.
  destruct (Decimal.nb_digits d <=? Py.max_str_digits)%nat eqn:Hlen; [|discriminate].
  apply Nat.leb_le in Hlen. intros [= <-]. unfold Py.int_fits. apply Nat.leb_le.
  assert (Habs : Z.abs_N (Z.of_int (if negative then Decimal.Neg d else Decimal.Pos d))
                 = N.of_uint d).
  { destruct negative; simpl; unfold Z.of_uint, N.of_uint;
      destruct (Pos.of_uint d); reflexivity. }
  rewrite Habs, DecimalN.Unsigned.to_of.
  pose proof (nb_digits_unorm_max d). unfold Py.max_str_digits in *. lia.
Qed.

(** What [int] reads, [str] can write. *)
Lemma int_fits_of_int (s : string) (n : Z) : Py.int s = Some n -> Py.int_fits n = true.
Proof.
  unfold Py.int. destruct (Py.int_rstrip (Py.int_lstrip s)) as [|c r]; [discriminate|].
  destruct (Ascii.eqb c "-"); [|destruct (Ascii.eqb c "+")];
    match goal with
    | |- ?o ≫= _ = _ -> _ => destruct o as [d|]; [|discriminate]
    end; apply int_fits_of_digits.
Qed.

Lemma format_after_int (s : string) :
  Py.int s ≫= Py.format_int = Py.str_int <$> Py.int s.
Proof.
  destruct (Py.int s) as [n|] eqn:Hn; [|reflexivity]. simpl.
  unfold Py.format_int. rewrite (int_fits_of_int s n Hn). reflexivity.
Qed.

Lemma to_uint_normal (p : positive) : Decimal.unorm (Pos.to_uint p) = Pos.to_uint p.
Proof.
  rewrite <- DecimalPos.Unsigned.to_of, DecimalPos.Unsigned.of_to. reflexivity.
Qed.

Lemma to_uint_head (p : positive) (u : Decimal.uint) : Pos.to_uint p <> Decimal.D0 u.
Proof.
  intros H. pose proof (to_uint_normal p) as Hn. rewrite H in Hn.
  rewrite unorm_D0 in Hn. unfold Decimal.unorm in Hn.
  destruct (Decimal.nzhead u) eqn:Hz; try discriminate.
  - injection Hn as <-. apply (DecimalPos.Unsigned.to_uint_nonzero p). exact H.
  - apply (nzhead_nonzero u u). congruence.
Qed.

Lemma str_int_no_leading_zeros (n : Z) : no_leading_zeros (Py.str_int n) = true.
Proof.
  destruct n as [|p|p]; [reflexivity | |];
    unfold Py.str_int; simpl;
    pose proof (to_uint_head p) as Hh;
    pose proof (DecimalPos.Unsigned.to_uint_nonnil p) as Hnil;
    destruct (Pos.to_uint p) as [|u|u|u|u|u|u|u|u|u|u]; try congruence;
    try (exfalso; apply (Hh u); reflexivity);
    simpl; try reflexivity; destruct u; reflexivity.
Qed.

Example int_examples :
  Py.int "0048" = Some 48 /\ Py.int " -007 " = Some (-7) /\ Py.int "+7" = Some 7
  /\ Py.int "1_000" = Some 1000 /\ Py.int "4__8" = None /\ Py.int "_1" = None
  /\ Py.int "1_" = None /\ Py.int "" = None /\ Py.int "- 1" = None
  /\ Py.int "4a" = None /\ Py.int (String "028" "5") = None
  /\ Py.strip (String "028" "5") = "5" /\ Py.str_int (-48) = "-48".
Proof. repeat split; reflexivity. Qed.

(** ** The extractors *)

Section ExtractorFacts.

Variable json_loads : string -> result value.

Lemma transform_vnk (col raw : string) :
  Py.lower col = "hiline_section" ->
  transform json_loads "VNK" col raw = Ok (PyStr (_extract_vnk raw)).
Proof. intros H. unfold transform. rewrite H. reflexivity. Qed.

Lemma transform_nnk (col raw : string) :
  Py.lower col = "hiline_section" ->
  transform json_loads "NNK" col raw = Ok (PyStr (_extract_nnk raw)).
Proof. intros H. unfold transform. rewrite H. reflexivity. Qed.

Lemma transform_klasse (col raw : string) :
  Py.lower col = "hiline_road" ->
  transform json_loads "KLASSE" col raw = Ok (PyStr (_extract_klasse raw)).
Proof. intros H. unfold transform. rewrite H. reflexivity. Qed.

Lemma extract_klasse_cons (c : ascii) (rest : string) :
  _extract_klasse (String c rest) =
  Py.upper (String c "") +:+
    match Py.int rest with
    | Some n => Py.str_int n
    | None => rest
    end.
Proof.
  unfold _extract_klasse.
  assert (Hnum : (if (1 <? String.length (String c rest))%nat
                  then Py.drop 1 (String c rest) else "") = rest).
  { destruct rest; reflexivity. }
  rewrite Hnum, format_after_int. cbn [String.eqb negb Py.take].
  destruct (Py.int rest); reflexivity.
Qed.

(** C3. For the target field KLASSE on a source column whose lowercased
    name is hiline_road: the empty string gives the empty string; any
    other string gives its first character uppercased, followed by the
    decimal text of the integer that [int] reads from the remaining
    characters, or by the remaining characters themselves when [int]
    refuses them.  The decimal text has no leading zeros and reads back
    as the same integer.  A run of digits is read when it has at most
    4300 digits and refused when it has more.  "l0048" gives "L48" and
    "x7" gives "X7". *)
Theorem klasse_extraction (col : string) :
  Py.lower col = "hiline_road" ->
  transform json_loads "KLASSE" col "" = Ok (PyStr "")
  /\ (forall c rest,
        transform json_loads "KLASSE" col (String c rest) =
        Ok (PyStr (Py.upper (String c "") +:+
                   match Py.int rest with
                   | Some n => Py.str_int n
                   | None => rest
                   end)))
  /\ (forall rest n, Py.int rest = Some n ->
        no_leading_zeros (Py.str_int n) = true /\ Py.int (Py.str_int n) = Some n)
  /\ (forall u, u <> Decimal.Nil ->
        Py.int (digits_text u)
        = if (Decimal.nb_digits u <=? 4300)%nat then Some (Z.of_uint u) else None)
  /\ transform json_loads "KLASSE" col "l0048" = Ok (PyStr "L48")
  /\ transform json_loads "KLASSE" col "x7" = Ok (PyStr "X7").
Proof.
  intros Hcol. split; [|split; [|split; [|split; [|split]]]];
    intros; rewrite ?transform_klasse by assumption.
  - reflexivity.
  - rewrite extract_klasse_cons. reflexivity.
  - split; [apply str_int_no_leading_zeros|].
    apply int_str_int. eapply int_fits_of_int. eassumption.
  - unfold digits_text. rewrite int_uint by assumption. reflexivity.
  - reflexivity.
  - reflexivity.
Qed.

Lemma extract_halves_long (s : string) :
  (2 <= String.length s)%nat ->
  _extract_vnk s = Py.take (String.length s / 2) s /\
  _extract_nnk s = Py.drop (String.length s / 2) s.
Proof.
  intros Hlen. unfold _extract_vnk, _extract_nnk.
  rewrite eqb_empty_length.
  replace (String.length s =? 0)%nat with false by (symmetry; apply Nat.eqb_neq; lia).
  replace (2 <=? String.length s)%nat with true by (symmetry; apply Nat.leb_le; lia).
  split; reflexivity.
Qed.

Lemma extract_halves_short (s : string) :
  (String.length s < 2)%nat -> _extract_vnk s = s /\ _extract_nnk s = s.
Proof.
  intros Hlen. unfold _extract_vnk, _extract_nnk.
  replace (2 <=? String.length s)%nat with false by (symmetry; apply Nat.leb_gt; lia).
  rewrite andb_false_r. split; reflexivity.
Qed.

(** C4. On a source column whose lowercased name is hiline_section and an
    input of length at least 2, VNK is the first floor(len/2) characters
    and NNK is the rest; an input shorter than 2 comes back unchanged
    from both; for an input of even length, VNK followed by NNK is the
    input. *)
Theorem vnk_nnk_split (col s : string) :
  Py.lower col = "hiline_section" ->
  ((2 <= String.length s)%nat ->
     transform json_loads "VNK" col s = Ok (PyStr (Py.take (String.length s / 2) s)) /\
     transform json_loads "NNK" col s = Ok (PyStr (Py.drop (String.length s / 2) s)) /\
     String.length (Py.take (String.length s / 2) s) = (String.length s / 2)%nat /\
     Py.take (String.length s / 2) s +:+ Py.drop (String.length s / 2) s = s)
  /\ ((String.length s < 2)%nat ->
     transform json_loads "VNK" col s = Ok (PyStr s) /\
     transform json_loads "NNK" col s = Ok (PyStr s))
  /\ (Nat.Even (String.length s) ->
     exists vnk nnk,
       transform json_loads "VNK" col s = Ok (PyStr vnk) /\
       transform json_loads "NNK" col s = Ok (PyStr nnk) /\
       vnk +:+ nnk = s).
Proof.
  intros Hcol. rewrite transform_vnk, transform_nnk by assumption.
  split; [|split].
  - intros Hlen. destruct (extract_halves_long s Hlen) as [-> ->].
    repeat split.
    + apply length_take. apply Nat.Div0.div_le_upper_bound; lia.
    + apply take_drop.
  - intros Hlen. destruct (extract_halves_short s Hlen) as [-> ->]. split; reflexivity.
  - intros Heven. destruct (le_lt_dec 2 (String.length s)) as [Hlen | Hlen].
    + destruct (extract_halves_long s Hlen) as [-> ->].
      eexists _, _. repeat split. apply take_drop.
    + destruct (extract_halves_short s Hlen) as [-> ->].
      exists s, s. repeat split.
      destruct s as [|c [|c' s]]; simpl in *; [reflexivity | | lia].
      destruct Heven as [k Hk]. lia.
Qed.

End ExtractorFacts.

(** ** The business-data extractor *)

Lemma get_chain_spec (data : value) (path : string * string * string) :
  match value_at data path with
  | Some v => get_chain data path = Ok v
  | None => get_chain data path = Ok (PyStr "") \/ get_chain data path = Raise AttributeError
  end.
Proof.
  destruct path as [[outer inner] key]. unfold value_at, get_chain.
  destruct data; simpl; auto.
  destruct (dict_lookup outer d) as [d1|]; simpl.
  - destruct d1; simpl; auto.
    destruct (dict_lookup inner d0) as [d2|]; simpl.
    + destruct d2; simpl; auto.
      destruct (dict_lookup key d1); simpl; auto.
    + auto.
  - auto.
Qed.

Lemma str_in_In (x : string) (l : list string) : str_in x l = true -> In x l.
Proof.
  unfold str_in. intros H. apply existsb_exists in H as (y & Hy & Heq).
  apply String.eqb_eq in Heq. subst. exact Hy.
Qed.

Ltac each_business_field H :=
  apply str_in_In in H; simpl in H;
  repeat (destruct H as [<- | H]); [.. | contradiction].

Lemma dict_lookup_str_ok (key : string) (d : list (string * value)) (v : value) :
  forallb (fun '(_, v') => str_ok v') d = true -> dict_lookup key d = Some v ->
  str_ok v = true.
Proof.
  induction d as [|[k v'] d IH]; simpl; [discriminate|].
  intros H. apply andb_true_iff in H as [Hv Hd].
  destruct (String.eqb k key); [intros [= <-]; exact Hv | apply IH; exact Hd].
Qed.

Lemma py_get_str_ok (obj dflt v : value) (key : string) :
  str_ok obj = true -> str_ok dflt = true -> py_get obj key dflt = Ok v ->
  str_ok v = true.
Proof.
  destruct obj; try discriminate. simpl. intros Hd Hdf [= <-].
  destruct (dict_lookup key d) as [v|] eqn:Hl; [|exact Hdf].
  eapply dict_lookup_str_ok; eassumption.
Qed.

Lemma get_chain_str_ok (data v : value) (path : string * string * string) :
  str_ok data = true -> get_chain data path = Ok v -> str_ok v = true.
Proof.
  destruct path as [[outer inner] key]. unfold get_chain. intros Hd.
  destruct (py_get data outer (PyDict [])) as [d1|] eqn:H1; [|discriminate].
  pose proof (py_get_str_ok data (PyDict []) d1 outer Hd eq_refl H1) as Hd1.
  change (Ok d1 ≫= ?f) with (f d1). cbv beta.
  destruct (py_get d1 inner (PyDict [])) as [d2|] eqn:H2; [|discriminate].
  pose proof (py_get_str_ok d1 (PyDict []) d2 inner Hd1 eq_refl H2) as Hd2.
  change (Ok d2 ≫= ?f) with (f d2). cbv beta.
  apply py_get_str_ok; [exact Hd2 | reflexivity].
Qed.

Section BusinessData.

Variable json_loads : string -> result value.

(** What [json.loads] returns, [str] can write. *)
Lemma loads_str_ok (json_str : string) (data : value) :
  loads json_loads json_str = Ok data -> str_ok data = true.
Proof.
  unfold loads. destruct (json_loads json_str) as [d|e]; [|discriminate].
  destruct (str_ok d) eqn:Hd; [intros [= <-]; exact Hd | discriminate].
Qed.

(** Each of the sixteen fields has a path in the table of the
    specification, and the extractor walks exactly that path. *)
Lemma business_paths (target_field : string) :
  str_in target_field business_fields = true ->
  exists path, spec_path target_field = Some path
    /\ (forall json_str data, loads json_loads json_str = Ok data ->
          business_data_lookup json_loads json_str target_field = get_chain data path)
    /\ (forall json_str e, loads json_loads json_str = Raise e ->
          business_data_lookup json_loads json_str target_field = Raise e).
Proof.
  intros H. each_business_field H;
    (eexists; split; [reflexivity |]; split;
     intros json_str data Hd; unfold business_data_lookup; rewrite Hd; reflexivity).
Qed.

Lemma transform_business (col target_field raw : string) :
  Py.lower col = "business_data" ->
  str_in target_field business_fields = true ->
  transform json_loads target_field col raw =
  _extract_from_business_data json_loads raw target_field.
Proof.
  intros Hcol H. unfold transform. rewrite Hcol.
  each_business_field H; reflexivity.
Qed.

Lemma business_decode_error (json_str target_field : string) (e : exn) :
  loads json_loads json_str = Raise e -> caught e = true ->
  _extract_from_business_data json_loads json_str target_field = Ok (PyStr "").
Proof.
  intros H He. unfold _extract_from_business_data, business_data_lookup.
  rewrite H. destruct e; try discriminate; reflexivity.
Qed.

(** An exception of [json.loads] that line 813 does not catch leaves the
    extractor. *)
Lemma business_error_escapes (json_str target_field : string) (e : exn) :
  loads json_loads json_str = Raise e -> caught e = false ->
  _extract_from_business_data json_loads json_str target_field = Raise e.
Proof.
  intros H He. unfold _extract_from_business_data, business_data_lookup.
  rewrite H. destruct e; try discriminate; reflexivity.
Qed.

Lemma business_found (json_str target_field : string) (data v : value)
    (path : string * string * string) :
  str_in target_field business_fields = true ->
  loads json_loads json_str = Ok data ->
  spec_path target_field = Some path ->
  value_at data path = Some v ->
  _extract_from_business_data json_loads json_str target_field = Ok v.
Proof.
  intros Hf Hd Hp Hv.
  destruct (business_paths target_field Hf) as (path' & Hpath & Hchain & _).
  assert (path' = path) as -> by congruence.
  unfold _extract_from_business_data. rewrite (Hchain _ _ Hd).
  pose proof (get_chain_spec data path) as Hs. rewrite Hv in Hs. rewrite Hs.
  reflexivity.
Qed.

(** On a source column whose lowercased
    name is business_data and one of the sixteen target fields, the
    extraction gives the empty string when [json.loads] raises
    [JSONDecodeError], and when the decoded document lacks an object or
    the key along the path of the field; it raises exactly when
    [json.loads] raises something line 813 does not catch. *)
Lemma business_data_missing (col target_field json_str : string) :
  Py.lower col = "business_data" ->
  str_in target_field business_fields = true ->
  (loads json_loads json_str = Raise JSONDecodeError ->
   transform json_loads target_field col json_str = Ok (PyStr ""))
  /\ (exists path, spec_path target_field = Some path /\
      forall data, loads json_loads json_str = Ok data -> value_at data path = None ->
        transform json_loads target_field col json_str = Ok (PyStr ""))
  /\ (forall e, transform json_loads target_field col json_str = Raise e
        <-> loads json_loads json_str = Raise e /\ caught e = false).
Proof.
  intros Hcol Hf. rewrite transform_business by assumption.
  destruct (business_paths target_field Hf) as (path & Hpath & Hchain & _).
  assert (Hdec : forall data, loads json_loads json_str = Ok data ->
            exists v, _extract_from_business_data json_loads json_str target_field = Ok v
              /\ (value_at data path = None -> v = PyStr "")).
  { intros data Hd. unfold _extract_from_business_data.
    rewrite (Hchain _ _ Hd). pose proof (get_chain_spec data path) as Hs.
    destruct (value_at data path) as [v|].
    - rewrite Hs. exists v. split; [reflexivity | discriminate].
    - exists (PyStr ""). split; [|reflexivity]. destruct Hs as [-> | ->]; reflexivity. }
  split; [|split].
  - intros H. eapply business_decode_error; [exact H | reflexivity].
  - exists path. split; [assumption|]. intros data Hd Hv.
    destruct (Hdec data Hd) as (v & -> & Hnone). rewrite (Hnone Hv). reflexivity.
  - intros e. destruct (loads json_loads json_str) as [data|e'] eqn:Hl.
    + destruct (Hdec data eq_refl) as (v & -> & _). split; [discriminate|].
      intros [H _]. discriminate H.
    + destruct (caught e') eqn:Hc.
      * rewrite (business_decode_error _ _ e' Hl Hc). split; [discriminate|].
        intros [[= ->] H]. congruence.
      * rewrite (business_error_escapes _ _ e' Hl Hc). split.
        -- intros [= ->]. split; [reflexivity | exact Hc].
        -- intros [[= ->] _]. reflexivity.
Qed.

(** C9. When the input decodes and the whole path of the field exists,
    the extraction gives the value found there as it is, and that value
    is what a run stores in the cell; an integer found there is not the
    string of its digits, and becomes that string in the exported cell. *)
Theorem business_data_as_is (py_repr : value -> string)
    (col target_field json_str : string) (data v : value)
    (path : string * string * string) :
  Py.lower col = "business_data" ->
  str_in target_field business_fields = true ->
  loads json_loads json_str = Ok data ->
  spec_path target_field = Some path ->
  value_at data path = Some v ->
  transform json_loads target_field col json_str = Ok v
  /\ cell_value json_loads target_field col json_str = v
  /\ (forall n, v = PyInt n ->
        v <> PyStr (Py.str_int n) /\ export_cell py_repr v = Ok (Py.str_int n)).
Proof.
  intros Hcol Hf Hd Hp Hv.
  assert (Ht : transform json_loads target_field col json_str = Ok v).
  { rewrite transform_business by assumption. eapply business_found; eassumption. }
  split; [exact Ht|]. split.
  - unfold cell_value. rewrite Ht. reflexivity.
  - intros n ->. split; [discriminate|].
    assert (Hok : str_ok (PyInt n) = true).
    { apply (get_chain_str_ok data _ path); [eapply loads_str_ok; exact Hd|].
      pose proof (get_chain_spec data path) as Hs. rewrite Hv in Hs. exact Hs. }
    unfold export_cell, py_str. rewrite Hok. reflexivity.
Qed.

(** What a transformation returns, [str] can write. *)
Lemma transform_str_ok (target_field csv_column raw : string) (v : value) :
  transform json_loads target_field csv_column raw = Ok v -> str_ok v = true.
Proof.
  unfold transform.
  repeat (match goal with |- context [if ?b then _ else _] => destruct b end;
          try (intros [= <-]; reflexivity)).
  unfold _extract_from_business_data, business_data_lookup.
  destruct (loads json_loads raw) as [data|e] eqn:Hl;
    [|destruct e; simpl; first [discriminate | intros [= <-]; reflexivity]].
  pose proof (loads_str_ok _ _ Hl) as Hd.
  change (Ok data ≫= ?f) with (f data). cbv beta.
  assert (Hc : forall path,
     match get_chain data path with
     | Raise JSONDecodeError | Raise AttributeError | Raise TypeError => Ok (PyStr "")
     | r => r
     end = Ok v -> str_ok v = true).
  { intros path. destruct (get_chain data path) as [v'|e] eqn:Hg.
    - intros [= <-]. eapply get_chain_str_ok; eassumption.
    - destruct e; first [discriminate | intros [= <-]; reflexivity]. }
  destruct (assoc target_field survey_tp3_fields) as [key|];
    [apply (Hc ("survey_result", "tp3", key)) |].
  destruct (assoc target_field eval_tp3_fields) as [key|];
    [apply (Hc ("evaluation_result", "tp3", key)) |].
  destruct (assoc target_field overall_fields) as [key|];
    [apply (Hc ("evaluation_result", "overall", key)) |].
  intros [= <-]. reflexivity.
Qed.

Lemma cell_value_str_ok (target_field csv_column raw : string) :
  str_ok (cell_value json_loads target_field csv_column raw) = true.
Proof.
  unfold cell_value.
  destruct (transform json_loads target_field csv_column raw) as [v|e] eqn:Ht;
    [eapply transform_str_ok; exact Ht | reflexivity].
Qed.

Lemma transform_cell_value (target_field csv_column raw : string) (v : value) :
  transform json_loads target_field csv_column raw = Ok v ->
  cell_value json_loads target_field csv_column raw = v.
Proof. intros H. unfold cell_value. rewrite H. reflexivity. Qed.

Lemma transform_empty (target_field csv_column : string) :
  json_loads "" = Raise JSONDecodeError ->
  transform json_loads target_field csv_column "" = Ok (PyStr "").
Proof.
  intros H. unfold transform.
  repeat (match goal with |- context [if ?b then _ else _] => destruct b end;
          try reflexivity).
  apply (business_decode_error _ _ JSONDecodeError); [|reflexivity].
  unfold loads. rewrite H. reflexivity.
Qed.

End BusinessData.

(** The examples of the specification, on the sample decoder. *)
Example extract_examples :
  transform Json.loads "GEB" "business_data" (Json.geb_document (Json.quoted "3"))
    = Ok (PyStr "3")
  /\ transform Json.loads "GEB" "business_data" (Json.geb_document "3") = Ok (PyInt 3)
  /\ transform Json.loads "GEB" "business_data" "{not json" = Ok (PyStr "")
  /\ transform Json.loads "GEB" "Business_Data" "[1, 2]" = Ok (PyStr "")
  /\ transform Json.loads "NUMMER" "hiline_road" "l0048" = Ok (PyStr "0048")
  /\ transform Json.loads "VNK" "hiline_section" "ABCDEF" = Ok (PyStr "ABC")
  /\ transform Json.loads "NNK" "hiline_section" "ABCDEF" = Ok (PyStr "DEF")
  /\ transform Json.loads "ID" "hiline_road" "l0048" = Ok (PyStr "l0048").
Proof. repeat split; reflexivity. Qed.

(** ** Resolving a column *)

Lemma index_headers_notin (headers : list string) :
  forall i (m : gmap string nat) col,
  col ∉ headers -> index_headers i headers m !! col = m !! col.
Proof.
  induction headers as [|h rest IH]; intros i m col Hn; simpl; [reflexivity|].
  rewrite IH by set_solver. apply lookup_insert_ne. set_solver.
Qed.

Lemma index_headers_Some (headers : list string) :
  forall i (m : gmap string nat) col j,
  index_headers i headers m !! col = Some j ->
  m !! col = Some j \/ (i <= j /\ headers !! (j - i)%nat = Some col)%nat.
Proof.
  induction headers as [|h rest IH]; intros i m col j H; simpl in *; [auto|].
  apply IH in H as [H | [Hle Hl]].
  - destruct (decide (h = col)) as [->|Hne].
    + rewrite lookup_insert_eq in H. injection H as <-. right.
      split; [lia|]. replace (i - i)%nat with O by lia. reflexivity.
    + rewrite lookup_insert_ne in H by assumption. auto.
  - right. split; [lia|].
    replace (j - i)%nat with (S (j - S i)) by lia. exact Hl.
Qed.

Lemma header_index_notin (headers : list string) (col : string) :
  col ∉ headers -> csv_col_index headers col = -1.
Proof.
  intros H. unfold csv_col_index, header_index.
  rewrite index_headers_notin by assumption. rewrite lookup_empty. reflexivity.
Qed.

(** A resolved index points at a header with that name. *)
Lemma header_index_Some (headers : list string) (col : string) (i : nat) :
  header_index headers !! col = Some i -> headers !! i = Some col.
Proof.
  intros H. apply index_headers_Some in H as [H | [_ H]].
  - rewrite lookup_empty in H. discriminate.
  - replace (i - 0)%nat with i in H by lia. exact H.
Qed.

Lemma raw_value_unresolved (row : list string) : raw_value row (-1) = "".
Proof. reflexivity. Qed.

Lemma raw_value_short (row : list string) (i : nat) :
  (length row <= i)%nat -> raw_value row (Z.of_nat i) = "".
Proof.
  intros H. unfold raw_value.
  replace (Z.of_nat i <? Z.of_nat (length row)) with false
    by (symmetry; apply Z.ltb_ge; lia).
  rewrite andb_false_r. reflexivity.
Qed.

Lemma fmap_const_replicate {A B : Type} (x : B) (l : list A) :
  (fun _ => x) <$> l = replicate (length l) x.
Proof. induction l; simpl; [reflexivity | f_equal; assumption]. Qed.

(** ** The calculation run *)

Section CalculationFacts.

Variable json_loads : string -> result value.

(** One row that runs through: every mapped field gets one more cell. *)
Lemma process_fields_done (headers row : list string) (items : list (string * string)) :
  forall (t t' : gmap string (list value)),
  NoDup items.*1 ->
  (forall k c, (k, c) ∈ items -> is_Some (t !! k)) ->
  process_fields json_loads headers row items t = Done t' ->
  forall k, t' !! k =
    match (list_to_map items : gmap string string) !! k with
    | Some c => (fun column => column ++ [cell json_loads headers k c row]) <$> t !! k
    | None => t !! k
    end.
Proof.
  induction items as [|[k0 c0] rest IH]; intros t t' Hnd Hdom Hrun.
  - injection Hrun as <-. intros k. rewrite list_to_map_nil, lookup_empty. reflexivity.
  - simpl in Hrun.
    destruct (transform json_loads k0 c0 (raw_value row (csv_col_index headers c0)))
      as [v|e] eqn:Hv; [|discriminate].
    apply transform_cell_value in Hv.
    destruct (Hdom k0 c0) as [col0 Hcol0]; [set_solver|].
    unfold append_cell in Hrun. rewrite Hcol0 in Hrun.
    apply NoDup_cons in Hnd as [Hk0 Hnd].
    assert (Hl := IH (<[k0 := col0 ++ [v]]> t) t' Hnd).
    assert (Hdom' : forall k c, (k, c) ∈ rest -> is_Some (<[k0 := col0 ++ [v]]> t !! k)).
    { intros k c Hin. destruct (decide (k0 = k)) as [->|Hne].
      - rewrite lookup_insert_eq. eauto.
      - rewrite lookup_insert_ne by assumption. apply (Hdom k c). set_solver. }
    specialize (Hl Hdom' Hrun).
    intros k. rewrite Hl, list_to_map_cons. destruct (decide (k0 = k)) as [<-|Hne].
    + rewrite lookup_insert_eq.
      rewrite (not_elem_of_list_to_map_1 _ _ Hk0).
      rewrite lookup_insert_eq, Hcol0. unfold cell. rewrite Hv. reflexivity.
    + rewrite !lookup_insert_ne by assumption. reflexivity.
Qed.

(** The loop over the rows, when it runs through: one cell per row is
    appended to every mapped column. *)
Lemma process_rows_done (tk : tk_env) (headers : list string)
    (active : gmap string string) (rows : list (list string)) :
  forall row_idx (t t' : gmap string (list value)),
  (forall k, is_Some (active !! k) -> is_Some (t !! k)) ->
  process_rows json_loads tk headers active row_idx rows t = Done t' ->
  forall k, t' !! k =
    match active !! k with
    | Some c => (fun column => column ++ (cell json_loads headers k c <$> rows)) <$> t !! k
    | None => t !! k
    end.
Proof.
  induction rows as [|row rest IH]; intros row_idx t t' Hdom Hrun.
  - injection Hrun as <-. intros k. destruct (active !! k); [|reflexivity].
    destruct (t !! k); simpl; [rewrite app_nil_r|]; reflexivity.
  - cbn [process_rows] in Hrun.
    destruct (if (row_idx mod 100 =? 0)%nat then progress_update tk row_idx else Ok ())
      as [[]|e]; [|discriminate].
    destruct (process_fields json_loads headers row (map_to_list active) t)
      as [t1|e t1] eqn:Hfields; [|discriminate].
    pose proof (process_fields_done headers row (map_to_list active) t t1
                  (NoDup_fst_map_to_list _)) as Ht1.
    specialize (Ht1 ltac:(intros k c Hin; apply Hdom;
                          apply elem_of_map_to_list in Hin; eauto) Hfields).
    rewrite list_to_map_to_list in Ht1.
    assert (Hdom1 : forall k, is_Some (active !! k) -> is_Some (t1 !! k)).
    { intros k Hk. rewrite Ht1. pose proof (Hdom k Hk) as Ht.
      destruct Hk as [c ->]. apply fmap_is_Some. exact Ht. }
    pose proof (IH (S row_idx) t1 t' Hdom1 Hrun) as Ht2.
    intros k. rewrite Ht2, Ht1. destruct (active !! k) as [c|]; [|reflexivity].
    destruct (t !! k) as [column|]; [|reflexivity].
    simpl. rewrite <- app_assoc. reflexivity.
Qed.

(** The loop does the same in two environments in which none of its
    updates raises. *)
Lemma process_rows_quiet (tk tk' : tk_env) (headers : list string)
    (active : gmap string string) (rows : list (list string)) :
  forall row_idx (t : gmap string (list value)),
  raises_from tk row_idx (length rows) = false ->
  raises_from tk' row_idx (length rows) = false ->
  process_rows json_loads tk headers active row_idx rows t
  = process_rows json_loads tk' headers active row_idx rows t.
Proof.
  induction rows as [|row rest IH]; intros row_idx t H H'; [reflexivity|].
  cbn [length raises_from] in H, H'.
  apply orb_false_iff in H as [Hu H]. apply orb_false_iff in H' as [Hu' H'].
  cbn [process_rows]. unfold progress_update, tk_do.
  destruct (row_idx mod 100 =? 0)%nat; simpl in Hu, Hu'.
  - destruct (tk (Update row_idx)); [|discriminate].
    destruct (tk' (Update row_idx)); [|discriminate].
    destruct (process_fields json_loads headers row (map_to_list active) t);
      [apply IH; assumption | reflexivity].
  - destruct (process_fields json_loads headers row (map_to_list active) t);
      [apply IH; assumption | reflexivity].
Qed.

Lemma fresh_table_dom (st : App) (k : string) :
  is_Some (active_mappings (mappings st) !! k) -> is_Some (fresh_table st !! k).
Proof. intros Hk. unfold fresh_table. rewrite lookup_fmap. apply fmap_is_Some. exact Hk. Qed.

(** The [try] block that runs through has built the whole table and
    closed the dialog, which sets its flag. *)
Lemma calculate_run_done (tk : tk_env) (st : App) (progress progress' : ProgressDialog)
    (t : gmap string (list value)) :
  calculate_run json_loads tk st progress = Done (progress', t) ->
  t = calc_table json_loads st /\ cancelled progress' = true.
Proof.
  unfold calculate_run, progress_close. intros Hrun.
  destruct (process_rows json_loads tk (csv_headers st) (active_mappings (mappings st))
              0 (csv_data st) (fresh_table st)) as [t1|e t1] eqn:Hrows; [|discriminate].
  destruct (progress_update tk (length (csv_data st))); [|discriminate].
  destruct (tk_do tk Close); [|discriminate].
  destruct (tk_do tk Report); [|discriminate].
  injection Hrun as <- <-. split; [|reflexivity].
  pose proof (process_rows_done _ _ _ _ _ _ _ (fresh_table_dom st) Hrows) as Ht1.
  apply map_eq. intros k. rewrite Ht1. unfold calc_table, fresh_table.
  rewrite map_lookup_imap, lookup_fmap.
  destruct (active_mappings (mappings st) !! k); reflexivity.
Qed.


Lemma calculate_run_quiet (tk tk' : tk_env) (st : App) (progress : ProgressDialog) :
  try_raises tk (length (csv_data st)) = false ->
  try_raises tk' (length (csv_data st)) = false ->
  calculate_run json_loads tk st progress = calculate_run json_loads tk' st progress.
Proof.
  unfold try_raises. intros H H'.
  repeat (apply orb_false_iff in H as [H ?]). repeat (apply orb_false_iff in H' as [H' ?]).
  unfold calculate_run, progress_close, progress_update, tk_do.
  rewrite (process_rows_quiet tk tk') by assumption.
  destruct (tk (Update (length (csv_data st)))); [|discriminate].
  destruct (tk' (Update (length (csv_data st)))); [|discriminate].
  destruct (tk Close); [|discriminate]. destruct (tk' Close); [|discriminate].
  destruct (tk Report); [|discriminate]. destruct (tk' Report); [|discriminate].
  reflexivity.
Qed.

(** [calculate_data] past its two guards. *)
Lemma calculate_data_run (tk : tk_env) (st : App) :
  mappings st <> ∅ -> csv_data st <> [] ->
  calculate_data json_loads tk st =
  match tk_do tk OpenDialog with
  | Raise e => (Crash e, st)
  | Ok _ =>
      match calculate_run json_loads tk st (mkProgress false) with
      | Done (_, t) =>
          (Complete (size (active_mappings (mappings st))) (length (csv_data st)),
           set_calculated_data (Some t) st)
      | Raised e (progress', t) => handle_failure tk e progress' t st
      end
  end.
Proof.
  intros Hm Hd. unfold calculate_data.
  rewrite bool_decide_eq_false_2 by assumption.
  destruct (csv_data st) as [|row rows] eqn:Hrows; [congruence | reflexivity].
Qed.

(** The handler that runs through shows the error and leaves no table;
    otherwise an exception leaves [calculate_data]. *)
Lemma handle_failure_spec (tk : tk_env) (e : exn) (progress : ProgressDialog)
    (t : gmap string (list value)) (st : App) :
  (handler_raises tk = false ->
   handle_failure tk e progress t st = (Failure e, set_calculated_data None st))
  /\ (handler_raises tk = true ->
      (handle_failure tk e progress t st).1 = Crash TclError)
  /\ (forall n m, (handle_failure tk e progress t st).1 <> Complete n m)
  /\ (forall msg, (handle_failure tk e progress t st).1 <> Warning msg).
Proof.
  unfold handle_failure, handler_raises, progress_close, tk_do.
  destruct (tk HandlerClose), (tk HandlerReport), (tk HandlerLabel); simpl;
    repeat split; intros; try discriminate; reflexivity.
Qed.

(** A run that completed has stored the table of the mapping and the
    source table. *)
Lemma calculate_data_complete (tk : tk_env) (st : App) (fields rows : nat) :
  (calculate_data json_loads tk st).1 = Complete fields rows ->
  mappings st <> ∅ /\ csv_data st <> [] /\ tk OpenDialog = TkIdle
  /\ fields = size (active_mappings (mappings st)) /\ rows = length (csv_data st)
  /\ (calculate_data json_loads tk st).2
     = set_calculated_data (Some (calc_table json_loads st)) st.
Proof.
  intros Hc.
  destruct (decide (mappings st = ∅)) as [Hm | Hm].
  { unfold calculate_data in Hc. rewrite bool_decide_eq_true_2 in Hc by assumption.
    discriminate Hc. }
  destruct (decide (csv_data st = [])) as [Hd | Hd].
  { unfold calculate_data in Hc. rewrite bool_decide_eq_false_2, Hd in Hc by assumption.
    discriminate Hc. }
  rewrite calculate_data_run in Hc |- * by assumption. unfold tk_do in *.
  destruct (tk OpenDialog); [|discriminate Hc].
  destruct (calculate_run json_loads tk st (mkProgress false)) as [[p t]|e [p t]] eqn:Hrun.
  - injection Hc as <- <-. destruct (calculate_run_done _ _ _ _ _ Hrun) as [-> _].
    repeat split; assumption.
  - exfalso. exact (proj1 (proj2 (proj2 (handle_failure_spec tk e p t st))) _ _ Hc).
Qed.

(** What a call leaves: the state as it was, no table, the table of the
    mapping and the source table, or, when the handler fails in its
    turn, the table as far as it was built. *)
Lemma calculate_data_cases (tk : tk_env) (st : App) :
  (calculate_data json_loads tk st).2 = st
  \/ (calculate_data json_loads tk st).2 = set_calculated_data None st
  \/ (calculate_data json_loads tk st).2
     = set_calculated_data (Some (calc_table json_loads st)) st
  \/ (tk OpenDialog = TkIdle
      /\ (exists e, (calculate_data json_loads tk st).1 = Crash e)
      /\ exists t, (calculate_data json_loads tk st).2 = set_calculated_data (Some t) st).
Proof.
  destruct (decide (mappings st = ∅)) as [Hm | Hm].
  { left. unfold calculate_data. rewrite bool_decide_eq_true_2 by assumption. reflexivity. }
  destruct (decide (csv_data st = [])) as [Hd | Hd].
  { left. unfold calculate_data. rewrite bool_decide_eq_false_2, Hd by assumption.
    reflexivity. }
  rewrite calculate_data_run by assumption. unfold tk_do.
  destruct (tk OpenDialog) eqn:Hopen; [|left; reflexivity].
  destruct (calculate_run json_loads tk st (mkProgress false)) as [[p t]|e [p t]] eqn:Hrun.
  - right. right. left. destruct (calculate_run_done _ _ _ _ _ Hrun) as [-> _]. reflexivity.
  - unfold handle_failure, progress_close, tk_do.
    destruct (tk HandlerClose); [destruct (tk HandlerReport); [destruct (tk HandlerLabel)|]|];
      simpl; eauto 10.
Qed.

Lemma calculate_keeps_inputs (tk : tk_env) (st : App) :
  TARGET_FIELDS (calculate_data json_loads tk st).2 = TARGET_FIELDS st
  /\ csv_headers (calculate_data json_loads tk st).2 = csv_headers st
  /\ csv_data (calculate_data json_loads tk st).2 = csv_data st
  /\ mappings (calculate_data json_loads tk st).2 = mappings st.
Proof.
  destruct (calculate_data_cases tk st) as [-> | [-> | [-> | (_ & _ & t & ->)]]];
    repeat split.
Qed.

(** Past the guards and with the dialog open, a call does not look at
    the table stored before it. *)
Lemma calculate_data_previous (tk : tk_env) (st : App)
    (previous : option (gmap string (list value))) :
  mappings st <> ∅ -> csv_data st <> [] -> tk OpenDialog = TkIdle ->
  calculate_data json_loads tk (set_calculated_data previous st)
  = calculate_data json_loads tk st.
Proof.
  intros Hm Hd Hopen. rewrite !calculate_data_run by assumption.
  unfold tk_do. rewrite Hopen. reflexivity.
Qed.

(** Two environments in which no call raises give the same call. *)
Lemma calculate_data_quiet (tk tk' : tk_env) (st : App) :
  tk_raises tk (length (csv_data st)) = false ->
  tk_raises tk' (length (csv_data st)) = false ->
  calculate_data json_loads tk st = calculate_data json_loads tk' st.
Proof.
  unfold tk_raises. intros H H'.
  apply orb_false_iff in H as [H Hh]. apply orb_false_iff in H as [Ho Ht].
  apply orb_false_iff in H' as [H' Hh']. apply orb_false_iff in H' as [Ho' Ht'].
  destruct (decide (mappings st = ∅)) as [Hm | Hm].
  { unfold calculate_data. rewrite bool_decide_eq_true_2 by assumption. reflexivity. }
  destruct (decide (csv_data st = [])) as [Hd | Hd].
  { unfold calculate_data. rewrite bool_decide_eq_false_2, Hd by assumption. reflexivity. }
  rewrite !calculate_data_run by assumption. unfold tk_do.
  destruct (tk OpenDialog); [|discriminate]. destruct (tk' OpenDialog); [|discriminate].
  rewrite (calculate_run_quiet tk tk') by assumption.
  destruct (calculate_run json_loads tk' st (mkProgress false)) as [[p t]|e [p t]];
    [reflexivity|].
  rewrite (proj1 (handle_failure_spec tk e p t st) Hh).
  rewrite (proj1 (handle_failure_spec tk' e p t st) Hh'). reflexivity.
Qed.

Lemma active_lookup (m : gmap string string) (field col : string) :
  m !! field = Some col -> col <> "" -> active_mappings m !! field = Some col.
Proof.
  intros Hm Hc. unfold active_mappings. apply map_lookup_filter_Some. split; assumption.
Qed.

Lemma calc_table_lookup (st : App) (field col : string) :
  mappings st !! field = Some col -> col <> "" ->
  calc_table json_loads st !! field
  = Some (cell json_loads (csv_headers st) field col <$> csv_data st).
Proof.
  intros Hm Hc. unfold calc_table. rewrite map_lookup_imap.
  rewrite (active_lookup _ _ _ Hm Hc). reflexivity.
Qed.


(** C2. A call of calculate ends with a warning, computing nothing,
    exactly when the mapping is empty or the source table has no rows;
    the state after such a call is the state before it (stored table,
    mapping and source table included). *)
Theorem calculate_input_error (tk : tk_env) (st : App) :
  ((exists msg, (calculate_data json_loads tk st).1 = Warning msg)
   <-> (mappings st = ∅ \/ csv_data st = []))
  /\ ((mappings st = ∅ \/ csv_data st = []) -> (calculate_data json_loads tk st).2 = st).
Proof.
  destruct (decide (mappings st = ∅)) as [Hm | Hm].
  { unfold calculate_data. rewrite bool_decide_eq_true_2 by assumption. simpl.
    split; [|reflexivity]. split; eauto. }
  destruct (decide (csv_data st = [])) as [Hd | Hd].
  { unfold calculate_data. rewrite bool_decide_eq_false_2, Hd by assumption. simpl.
    split; [|reflexivity]. split; eauto. }
  rewrite calculate_data_run by assumption. split; [|intros [? | ?]; congruence].
  split; [|intros [? | ?]; congruence].
  intros [msg Hmsg]. exfalso. unfold tk_do in Hmsg.
  destruct (tk OpenDialog); [|discriminate Hmsg].
  destruct (calculate_run json_loads tk st (mkProgress false)) as [[p t]|e [p t]];
    [discriminate Hmsg|].
  exact (proj2 (proj2 (proj2 (handle_failure_spec tk e p t st))) _ Hmsg).
Qed.

(** C6. A mapped column name that is not among the headers resolves to
    an index that no row has: for every row the raw value is the empty
    string and the transformation gives the empty string, without
    raising.  Where a row is not longer than the index a column resolved
    to, the raw value is the empty string.  So in a run that completes,
    the column of every mapped field whose source column name is not
    among the headers holds the empty string in every row, and the cell
    of a row that is too short is what the transformation makes of the
    empty string. *)
Theorem unresolved_and_ragged_cells (tk : tk_env) (st : App) :
  json_loads "" = Raise JSONDecodeError ->
  (forall field col row, col ∉ csv_headers st ->
     raw_value row (csv_col_index (csv_headers st) col) = ""
     /\ transform json_loads field col (raw_value row (csv_col_index (csv_headers st) col))
        = Ok (PyStr ""))
  /\ (forall col i row,
        header_index (csv_headers st) !! col = Some i -> (length row <= i)%nat ->
        raw_value row (csv_col_index (csv_headers st) col) = "")
  /\ (forall fields rows,
        (calculate_data json_loads tk st).1 = Complete fields rows ->
        exists t,
          (calculate_data json_loads tk st).2 = set_calculated_data (Some t) st
          /\ (forall field col,
                mappings st !! field = Some col -> col <> "" -> col ∉ csv_headers st ->
                t !! field = Some (replicate (length (csv_data st)) (PyStr "")))
          /\ (forall field col i n row,
                mappings st !! field = Some col -> col <> "" ->
                header_index (csv_headers st) !! col = Some i ->
                csv_data st !! n = Some row -> (length row <= i)%nat ->
                exists column, t !! field = Some column
                  /\ column !! n = Some (cell_value json_loads field col ""))).
Proof.
  intros Hempty.
  assert (Hun : forall field col row, col ∉ csv_headers st ->
     raw_value row (csv_col_index (csv_headers st) col) = ""
     /\ transform json_loads field col (raw_value row (csv_col_index (csv_headers st) col))
        = Ok (PyStr "")).
  { intros field col row Hout. rewrite header_index_notin by assumption.
    rewrite raw_value_unresolved. split; [reflexivity|].
    apply transform_empty. exact Hempty. }
  assert (Hshort : forall col i row,
        header_index (csv_headers st) !! col = Some i -> (length row <= i)%nat ->
        raw_value row (csv_col_index (csv_headers st) col) = "").
  { intros col i row Hi Hlen. unfold csv_col_index. rewrite Hi.
    apply raw_value_short. assumption. }
  split; [exact Hun|]. split; [exact Hshort|].
  intros fields rows Hc. exists (calc_table json_loads st).
  split; [apply (calculate_data_complete tk st fields rows Hc)|]. split.
  - intros field col Hf Hcol Hout. rewrite (calc_table_lookup _ _ _ Hf Hcol). f_equal.
    rewrite <- fmap_const_replicate. apply list_fmap_ext. intros _ row _.
    unfold cell, cell_value. rewrite (proj2 (Hun field col row Hout)). reflexivity.
  - intros field col i n row Hf Hcol Hi Hn Hlen.
    eexists. split; [apply calc_table_lookup; eassumption|].
    rewrite list_lookup_fmap, Hn. simpl. unfold cell.
    rewrite (Hshort col i row Hi Hlen). reflexivity.
Qed.


End CalculationFacts.



Lemma calculate_input_error_witness :
  (mappings Sample.no_mapping = ∅ \/ csv_data Sample.no_mapping = [])
  /\ (exists msg, (calculate_data Json.loads Sample.idle Sample.no_mapping).1 = Warning msg)
  /\ (calculate_data Json.loads Sample.idle Sample.no_mapping).2 = Sample.no_mapping.
Proof.
  assert (H : mappings Sample.no_mapping = ∅ \/ csv_data Sample.no_mapping = [])
    by (left; reflexivity).
  destruct (calculate_input_error Json.loads Sample.idle Sample.no_mapping) as [Hiff Hst].
  split; [exact H|]. split; [apply Hiff; exact H | apply Hst; exact H].
Defined.

(** Where [int] stops reading: 4300 digits after the first character
    are re-rendered, 4301 are kept as they are, leading zero included;
    so is a separator that [str.strip] would drop and [int] does not. *)
Example klasse_keeps_long_suffix :
  transform Json.loads "KLASSE" "hiline_road" ("l0" +:+ ones 4299)
  = Ok (PyStr ("L" +:+ ones 4299))
  /\ transform Json.loads "KLASSE" "hiline_road" ("l0" +:+ ones 4300)
     = Ok (PyStr ("L0" +:+ ones 4300))
  /\ transform Json.loads "KLASSE" "hiline_road" (String "l" (String "028" "5"))
     = Ok (PyStr (String "L" (String "028" "5"))).
Proof. vm_compute. repeat split; reflexivity. Qed.

Lemma klasse_extraction_witness :
  Py.lower "Hiline_Road" = "hiline_road"
  /\ transform Json.loads "KLASSE" "Hiline_Road" "l0048" = Ok (PyStr "L48")
  /\ transform Json.loads "KLASSE" "Hiline_Road" "x7" = Ok (PyStr "X7").
Proof.
  split; [reflexivity|].
  destruct (klasse_extraction Json.loads "Hiline_Road" eq_refl) as (_ & _ & _ & _ & H1 & H2).
  split; [exact H1 | exact H2].
Defined.

Lemma vnk_nnk_split_witness :
  Py.lower "HiLine_Section" = "hiline_section"
  /\ (2 <= String.length "ABCDEF")%nat
  /\ transform Json.loads "VNK" "HiLine_Section" "ABCDEF" = Ok (PyStr "ABC")
  /\ transform Json.loads "NNK" "HiLine_Section" "ABCDEF" = Ok (PyStr "DEF").
Proof.
  assert (Hlen : (2 <= String.length "ABCDEF")%nat) by (simpl; lia).
  split; [reflexivity|]. split; [exact Hlen|].
  destruct (vnk_nnk_split Json.loads "HiLine_Section" "ABCDEF" eq_refl) as (H & _ & _).
  destruct (H Hlen) as (Hv & Hn & _). split; [exact Hv | exact Hn].
Defined.

(** C5 at the failing input.  The cell holds a document with an integer
    of 4301 digits at the path of GEB.  [json.loads] raises
    [ValueError], which the extractor does not catch: the exception
    leaves the extractor and the transformation, and the run over the
    row ends in the error message with no table stored. *)
Theorem long_integer_escapes :
  loads Json.loads Sample.long_integer = Raise ValueError
  /\ caught ValueError = false
  /\ _extract_from_business_data Json.loads Sample.long_integer "GEB" = Raise ValueError
  /\ transform Json.loads "GEB" "business_data" Sample.long_integer = Raise ValueError
  /\ calculate_data Json.loads Sample.idle Sample.long_integer_app
     = (Failure ValueError, set_calculated_data None Sample.long_integer_app).
Proof. vm_compute. repeat split; reflexivity. Qed.

Lemma business_data_as_is_witness :
  loads Json.loads (Json.geb_document "3")
    = Ok (PyDict [("evaluation_result", PyDict [("overall", PyDict [("geb", PyInt 3)])])])
  /\ transform Json.loads "GEB" "business_data" (Json.geb_document "3") = Ok (PyInt 3)
  /\ PyInt 3 <> PyStr "3"
  /\ export_cell Sample.no_repr (PyInt 3) = Ok "3".
Proof.
  split; [reflexivity|].
  destruct (business_data_as_is Json.loads Sample.no_repr "business_data" "GEB"
              (Json.geb_document "3")
              (PyDict [("evaluation_result", PyDict [("overall", PyDict [("geb", PyInt 3)])])])
              (PyInt 3) ("evaluation_result", "overall", "geb")
              eq_refl eq_refl eq_refl eq_refl eq_refl) as (Ht & _ & Hn).
  split; [exact Ht|]. exact (Hn 3 eq_refl).
Defined.

Lemma unresolved_and_ragged_cells_witness :
  Json.loads "" = Raise JSONDecodeError
  /\ (calculate_data Json.loads Sample.idle Sample.ragged).1 = Complete 3 2
  /\ exists t,
       calculated_data (calculate_data Json.loads Sample.idle Sample.ragged).2 = Some t
       /\ t !! "A" = Some [PyStr ""; PyStr ""]
       /\ t !! "GEB" = Some [PyStr ""; PyStr ""]
       /\ exists column, t !! "B" = Some column /\ column !! O = Some (PyStr "").
Proof.
  split; [reflexivity|].
  assert (Hc : (calculate_data Json.loads Sample.idle Sample.ragged).1 = Complete 3 2)
    by reflexivity.
  split; [exact Hc|].
  destruct (proj2 (proj2 (unresolved_and_ragged_cells Json.loads Sample.idle Sample.ragged
                             eq_refl)) 3%nat 2%nat Hc) as (t & Hcalc & Hun & Hrag).
  exists t. split; [rewrite Hcalc; reflexivity|].
  assert (Hout : forall col, bool_decide (col ∉ csv_headers Sample.ragged) = true ->
                 col ∉ csv_headers Sample.ragged).
  { intros col H. exact (bool_decide_unpack _ (Is_true_true_2 _ H)). }
  split; [|split].
  - apply (Hun "A" "a"); [reflexivity | discriminate | apply Hout; reflexivity].
  - apply (Hun "GEB" "business_data");
      [reflexivity | discriminate | apply Hout; reflexivity].
  - destruct (Hrag "B" "c" 1%nat O ["1"]) as (column & Hcol & Hcell);
      [reflexivity | discriminate | reflexivity | reflexivity | simpl; lia |].
    exists column. split; [exact Hcol | exact Hcell].
Defined.



(** ** The mapping table *)

Lemma auto_map_loop_notin (H T : list string) :
  forall i (m : gmap string string) f,
  f ∉ T -> auto_map_loop H i T m !! f = m !! f.
Proof.
  induction T as [|t rest IH]; intros i m f Hf; simpl; [reflexivity|].
  rewrite IH by set_solver.
  destruct (i <? length H)%nat; [|reflexivity].
  destruct (H !! i); [|reflexivity].
  apply lookup_insert_ne. set_solver.
Qed.

(** Without duplicates, the field at position [j] of the remaining
    fields gets the header at position [i + j] when there is one. *)
Lemma auto_map_loop_at (H T : list string) :
  forall i (m : gmap string string) j f,
  NoDup T -> T !! j = Some f ->
  auto_map_loop H i T m !! f =
  if (i + j <? length H)%nat then H !! (i + j)%nat else m !! f.
Proof.
  induction T as [|t rest IH]; intros i m j f Hnd Hj; [discriminate|].
  apply NoDup_cons in Hnd as [Ht Hnd]. destruct j as [|j]; simpl in *.
  - injection Hj as ->. rewrite auto_map_loop_notin by assumption.
    rewrite Nat.add_0_r. destruct (i <? length H)%nat eqn:Hi; [|reflexivity].
    apply Nat.ltb_lt in Hi. destruct (lookup_lt_is_Some_2 H i Hi) as [h Hh].
    rewrite Hh. apply lookup_insert_eq.
  - rewrite (IH (S i) _ j f Hnd Hj).
    replace (S i + j)%nat with (i + S j)%nat by lia.
    destruct (i + S j <? length H)%nat; [reflexivity|].
    assert (t <> f). { intros ->. apply Ht. eapply list_elem_of_lookup_2; eauto. }
    destruct (i <? length H)%nat; [|reflexivity].
    destruct (H !! i); [|reflexivity].
    apply lookup_insert_ne. assumption.
Qed.

(** C7, as the specification words it, fails twice.  Without headers
    [auto_map] returns at once and the mapping of an earlier file
    survives; and when a target field occurs twice, the later position
    wins, so the field at index 0 is not mapped to the header at
    index 0. *)
Lemma positional_fails :
  ~ positional Sample.no_headers (mappings (auto_map Sample.no_headers))
  /\ ~ positional Sample.twice (mappings (auto_map Sample.twice)).
Proof.
  split.
  - intros (_ & H & _). specialize (H O "A").
    assert (Hm : mappings (auto_map Sample.no_headers) !! "A" = Some "x") by reflexivity.
    rewrite H in Hm; [discriminate | simpl; lia | reflexivity].
  - intros (H & _ & _). specialize (H O "A" "x").
    assert (Hm : mappings (auto_map Sample.twice) !! "A" = Some "y") by reflexivity.
    rewrite H in Hm; [discriminate | simpl; lia | reflexivity | reflexivity].
Qed.

(** C7, as the code has it.  When no target field occurs twice and there
    is at least one header, positional auto-map binds the target field at
    every index below min(len T, len H) to the header at that index,
    leaves every later target field unmapped, keeps no entry of the
    previous mapping, and leaves the stored table absent. *)
Theorem auto_map_positional (st : App) :
  NoDup (TARGET_FIELDS st) -> csv_headers st <> [] ->
  positional st (mappings (auto_map st)) /\ calculated_data (auto_map st) = None.
Proof.
  intros Hnd Hh. unfold auto_map.
  destruct (csv_headers st) as [|h0 hs] eqn:Hhs; [congruence|].
  split; [|reflexivity].
  assert (Hm : mappings
    (set_mappings
       (auto_map_loop (csv_headers (clear_mappings st)) 0
          (TARGET_FIELDS (clear_mappings st)) (mappings (clear_mappings st)))
       (clear_mappings st))
    = auto_map_loop (csv_headers st) 0 (TARGET_FIELDS st) ∅) by reflexivity.
  rewrite Hm. clear Hm. unfold positional.
  set (T := TARGET_FIELDS st) in *. set (H := csv_headers st) in *.
  split; [|split].
  - intros i f h Hi HT HH. rewrite (auto_map_loop_at H T 0 ∅ i f Hnd HT). simpl.
    replace (i <? length H)%nat with true by (symmetry; apply Nat.ltb_lt; lia).
    exact HH.
  - intros i f Hi HT. rewrite (auto_map_loop_at H T 0 ∅ i f Hnd HT). simpl.
    apply lookup_lt_Some in HT.
    replace (i <? length H)%nat with false by (symmetry; apply Nat.ltb_ge; lia).
    apply lookup_empty.
  - intros f h Hf. destruct (decide (f ∈ T)) as [Hin | Hout].
    + apply list_elem_of_lookup in Hin as [i HT].
      rewrite (auto_map_loop_at H T 0 ∅ i f Hnd HT) in Hf. simpl in Hf.
      destruct (i <? length H)%nat eqn:Hi.
      * apply Nat.ltb_lt in Hi. apply lookup_lt_Some in HT as Hlt.
        exists i. split; [lia|]. split; assumption.
      * rewrite lookup_empty in Hf. discriminate.
    + rewrite auto_map_loop_notin in Hf by assumption.
      rewrite lookup_empty in Hf. discriminate.
Qed.

Lemma auto_map_positional_witness :
  NoDup (TARGET_FIELDS Sample.five_three) /\ csv_headers Sample.five_three <> []
  /\ positional Sample.five_three (mappings (auto_map Sample.five_three))
  /\ calculated_data (auto_map Sample.five_three) = None.
Proof.
  assert (Hnd : NoDup (TARGET_FIELDS Sample.five_three)).
  { refine (bool_decide_unpack _ _). vm_compute. exact I. }
  assert (Hh : csv_headers Sample.five_three <> []) by discriminate.
  split; [exact Hnd|]. split; [exact Hh|].
  apply (auto_map_positional Sample.five_three Hnd Hh).
Defined.

(** With five target fields and three headers the first three are bound
    by index, the last two stay unmapped and the old entry is gone. *)
Example auto_map_five_three :
  mappings (auto_map Sample.five_three)
  = <["A" := "x"]> (<["B" := "y"]> {["C" := "z"]}).
Proof. apply map_eq. intros k. vm_compute. reflexivity. Qed.

(** ** Invalidation of the calculated table *)

(** Every edit of the mapping, an accepted edit of the target fields and
    a load that succeeds leave the stored table absent; the two auto-map
    strategies leave the state as it is when there are no headers. *)
Lemma edits_invalidate (st : App) :
  (forall f c, calculated_data (on_mapping_selected f c st) = None)
  /\ (forall f, calculated_data (clear_single_mapping f st) = None)
  /\ calculated_data (clear_mappings st) = None
  /\ (csv_headers st <> [] ->
      calculated_data (auto_map st) = None
      /\ calculated_data (smart_auto_map st).2 = None)
  /\ (csv_headers st = [] -> auto_map st = st /\ (smart_auto_map st).2 = st)
  /\ (forall fields, fields <> [] ->
        calculated_data (edit_target_fields (Some fields) st) = None)
  /\ (forall headers rows, calculated_data (load_csv (ReadOk headers rows) st) = None).
Proof.
  split; [|split; [|split; [|split; [|split; [|split]]]]].
  - intros f c. unfold on_mapping_selected. destruct (negb (String.eqb c "")); reflexivity.
  - reflexivity.
  - reflexivity.
  - intros Hh. split.
    + unfold auto_map. destruct (csv_headers st); [congruence | reflexivity].
    + unfold smart_auto_map. destruct (csv_headers st) as [|h hs]; [congruence|].
      match goal with |- context [foldl ?f ?a ?l] => destruct (foldl f a l) end.
      reflexivity.
  - intros Hh. split.
    + unfold auto_map. rewrite Hh. reflexivity.
    + unfold smart_auto_map. rewrite Hh. reflexivity.
  - intros [|f fs] Hf; [congruence|]. reflexivity.
  - reflexivity.
Qed.

(** C8 at the failing input.  A table has been calculated; the next file
    has a header row that reads, and then the reader raises (a field
    over the size limit of the csv module, say).  [self.csv_headers] has
    been replaced, yet the table of the old file is still stored and
    export still accepts it. *)
Theorem failed_load_keeps_stale_table :
  let st := Sample.calculated in
  let st' := load_csv (ReadFailed (Some ["b"])) st in
  calculated_data st <> None
  /\ csv_headers st' = ["b"]
  /\ csv_headers st' <> csv_headers st
  /\ calculated_data st' = calculated_data st
  /\ can_export st' = true.
Proof.
  cbv zeta. repeat split.
  - vm_compute. discriminate.
  - vm_compute. discriminate.
Qed.

(** * Further properties *)

(** ** More on the extractors *)

Section ExtractorExtras.

Variable json_loads : string -> result value.

Lemma transform_nummer (col raw : string) :
  Py.lower col = "hiline_road" ->
  transform json_loads "NUMMER" col raw = Ok (PyStr (_extract_nummer raw)).
Proof. intros H. unfold transform. rewrite H. reflexivity. Qed.

Lemma extract_nummer_drop (s : string) : _extract_nummer s = Py.drop 1 s.
Proof. destruct s as [|c [|c' s]]; reflexivity. Qed.

(** X1. NUMMER on a hiline_road column is the input without its first
    character, zero padding kept: the first character followed by NUMMER
    is the input, NUMMER is one character shorter than a non-empty
    input, and inputs shorter than two characters give the empty
    string. *)
Theorem nummer_is_the_tail (col s : string) :
  Py.lower col = "hiline_road" ->
  exists nummer,
    transform json_loads "NUMMER" col s = Ok (PyStr nummer)
    /\ Py.take 1 s +:+ nummer = s
    /\ String.length nummer = (String.length s - 1)%nat
    /\ ((String.length s < 2)%nat -> nummer = "").
Proof.
  intros Hcol. exists (_extract_nummer s). rewrite transform_nummer by assumption.
  rewrite extract_nummer_drop. split; [reflexivity|]. split; [apply take_drop|].
  destruct s as [|c [|c' s]]; simpl; (split; [try reflexivity; lia | intros; try reflexivity; lia]).
Qed.

Lemma length_digits_text (u : Decimal.uint) :
  String.length (digits_text u) = Decimal.nb_digits u.
Proof. unfold digits_text. induction u; simpl; congruence. Qed.

Lemma int_digits_text (u : Decimal.uint) :
  u <> Decimal.Nil -> (String.length (digits_text u) <= 4300)%nat ->
  Py.int (digits_text u) = Some (Z.of_uint u).
Proof.
  intros Hu Hlen. rewrite length_digits_text in Hlen.
  unfold digits_text. rewrite int_uint by assumption.
  apply (int_of_digits_fits false). exact Hlen.
Qed.

Lemma str_int_of_uint (u : Decimal.uint) :
  Py.str_int (Z.of_uint u) = NilZero.string_of_uint (Decimal.unorm u).
Proof.
  unfold Py.str_int.
  change (Z.of_uint u) with (Z.of_int (Decimal.Pos u)).
  rewrite DecimalZ.to_of. reflexivity.
Qed.

(** X2. When the characters after the first are decimal digits, at most
    the 4300 that the interpreter converts, KLASSE is the first
    character uppercased followed by those digits without their leading
    zeros (a single 0 when all of them are zeros). *)
Theorem klasse_strips_leading_zeros (col : string) (c : ascii) (u : Decimal.uint) :
  Py.lower col = "hiline_road" -> u <> Decimal.Nil ->
  (String.length (digits_text u) <= 4300)%nat ->
  transform json_loads "KLASSE" col (String c (digits_text u))
  = Ok (PyStr (Py.upper (String c "") +:+ digits_text (Decimal.unorm u))).
Proof.
  intros Hcol Hu Hlen. rewrite transform_klasse by assumption.
  rewrite extract_klasse_cons, int_digits_text by assumption.
  rewrite str_int_of_uint, string_of_uint_nonnil by apply unorm_nonnil.
  reflexivity.
Qed.

(** A column whose lowercased name is none of hiline_section,
    hiline_road and business_data is copied as it is, whatever the
    target field; so is one of the three columns for a target field
    that has no rule on it. *)
Lemma transform_other (target_field col raw : string) :
  (Py.lower col <> "hiline_section" \/ (target_field <> "VNK" /\ target_field <> "NNK")) ->
  (Py.lower col <> "hiline_road" \/ (target_field <> "KLASSE" /\ target_field <> "NUMMER")) ->
  (Py.lower col <> "business_data" \/ str_in target_field business_fields = false) ->
  transform json_loads target_field col raw = Ok (PyStr raw).
Proof.
  intros Hs Hr Hb. unfold transform.
  assert (Heq : forall a b : string, a <> b -> String.eqb a b = false)
    by (intros a b; apply String.eqb_neq).
  destruct Hs as [Hs | [Hv Hn]], Hr as [Hr | [Hk Hm]], Hb as [Hb | Hb];
    rewrite ?(Heq _ _ Hs), ?(Heq _ _ Hr), ?(Heq _ _ Hb), ?(Heq _ _ Hv), ?(Heq _ _ Hn),
            ?(Heq _ _ Hk), ?(Heq _ _ Hm), ?Hb, ?andb_false_r, ?andb_false_l;
    reflexivity.
Qed.

End ExtractorExtras.

Lemma nummer_is_the_tail_witness :
  Py.lower "HILINE_ROAD" = "hiline_road"
  /\ exists nummer,
       transform Json.loads "NUMMER" "HILINE_ROAD" "l0048" = Ok (PyStr nummer)
       /\ "l" +:+ nummer = "l0048".
Proof.
  split; [reflexivity|].
  destruct (nummer_is_the_tail Json.loads "HILINE_ROAD" "l0048" eq_refl)
    as (nummer & Ht & Hcat & _).
  exists nummer. split; [exact Ht | exact Hcat].
Defined.

Lemma klasse_strips_leading_zeros_witness :
  Py.lower "hiline_road" = "hiline_road"
  /\ Decimal.D0 (Decimal.D0 (Decimal.D4 (Decimal.D8 Decimal.Nil))) <> Decimal.Nil
  /\ transform Json.loads "KLASSE" "hiline_road" "l0048" = Ok (PyStr "L48").
Proof.
  split; [reflexivity|]. split; [discriminate|].
  apply (klasse_strips_leading_zeros Json.loads "hiline_road" "l"
           (Decimal.D0 (Decimal.D0 (Decimal.D4 (Decimal.D8 Decimal.Nil)))) eq_refl).
  - discriminate.
  - simpl. lia.
Defined.

Example transform_other_columns :
  transform Json.loads "VNK" "road_name" "ABCDEF" = Ok (PyStr "ABCDEF")
  /\ transform Json.loads "ONA" "business_data" "{}" = Ok (PyStr "{}").
Proof. split; reflexivity. Qed.

(** ** More on resolving a column *)

Lemma index_headers_last (headers : list string) :
  forall i (m : gmap string nat) col j,
  index_headers i headers m !! col = Some j ->
  (m !! col = Some j /\ col ∉ headers)
  \/ (i <= j /\ headers !! (j - i)%nat = Some col
      /\ forall k, (j - i < k)%nat -> headers !! k <> Some col)%nat.
Proof.
  induction headers as [|h rest IH]; intros i m col j H; simpl in *.
  - left. split; [exact H | apply not_elem_of_nil].
  - apply IH in H as [[H Hout] | (Hle & Hl & Hlast)].
    + destruct (decide (h = col)) as [->|Hne].
      * rewrite lookup_insert_eq in H. injection H as <-. right.
        split; [lia|]. replace (i - i)%nat with O by lia. split; [reflexivity|].
        intros [|k] Hk; [lia|]. simpl. intros Hin.
        apply Hout. eapply list_elem_of_lookup_2. exact Hin.
      * rewrite lookup_insert_ne in H by assumption. left. split; [exact H|].
        intros Hin. apply elem_of_cons in Hin as [-> | Hin]; [congruence | auto].
    + right. split; [lia|].
      replace (j - i)%nat with (S (j - S i)) by lia. split; [exact Hl|].
      intros [|k] Hk; [lia|]. simpl. apply Hlast. lia.
Qed.

Lemma csv_col_index_last (headers : list string) (col : string) :
  col ∈ headers ->
  exists i, csv_col_index headers col = Z.of_nat i
    /\ headers !! i = Some col
    /\ forall k, (i < k)%nat -> headers !! k <> Some col.
Proof.
  intros Hin. unfold csv_col_index.
  destruct (header_index headers !! col) as [i|] eqn:Hi.
  - exists i. split; [reflexivity|]. unfold header_index in Hi.
    apply index_headers_last in Hi as [[Hi _] | (_ & Hl & Hlast)].
    + rewrite lookup_empty in Hi. discriminate.
    + rewrite Nat.sub_0_r in Hl, Hlast. split; assumption.
  - exfalso. unfold header_index in Hi.
    assert (Hgen : forall i (m : gmap string nat), index_headers i headers m !! col <> None).
    { clear Hi. induction headers as [|h rest IH]; intros i m; [inversion Hin|].
      simpl. destruct (decide (col ∈ rest)) as [Hr | Hr]; [apply IH; assumption|].
      rewrite index_headers_notin by assumption.
      apply elem_of_cons in Hin as [-> | Hin]; [|contradiction].
      rewrite lookup_insert_eq. discriminate. }
    exact (Hgen _ _ Hi).
Qed.

(** X3. The index a column name resolves to is the position of the last
    header with that name: an earlier column of the same name is never
    read.  A name that is no header resolves to -1. *)
Theorem duplicate_header_last_wins (headers : list string) (col : string) :
  (col ∉ headers -> csv_col_index headers col = -1)
  /\ (col ∈ headers ->
      exists i, csv_col_index headers col = Z.of_nat i
        /\ headers !! i = Some col
        /\ forall k, (i < k)%nat -> headers !! k <> Some col).
Proof.
  split; [apply header_index_notin | apply csv_col_index_last].
Qed.

Lemma duplicate_header_last_wins_witness :
  "a" ∈ ["a"; "b"; "a"]
  /\ exists i, csv_col_index ["a"; "b"; "a"] "a" = Z.of_nat i
       /\ ["a"; "b"; "a"] !! i = Some "a"
       /\ forall k, (i < k)%nat -> ["a"; "b"; "a"] !! k <> Some "a".
Proof.
  assert (Hin : "a" ∈ ["a"; "b"; "a"]) by apply list_elem_of_here.
  split; [exact Hin|].
  exact (proj2 (duplicate_header_last_wins ["a"; "b"; "a"] "a") Hin).
Defined.

(** ** More on the calculation run *)

Lemma raw_value_nat (row : list string) (i : nat) :
  raw_value row (Z.of_nat i) = default "" (row !! i).
Proof.
  unfold raw_value. rewrite Nat2Z.id.
  destruct (Z.of_nat i <? Z.of_nat (length row)) eqn:Hlt.
  - replace (0 <=? Z.of_nat i) with true by (symmetry; apply Z.leb_le; lia).
    reflexivity.
  - rewrite andb_false_r. apply Z.ltb_ge in Hlt.
    rewrite lookup_ge_None_2 by lia. reflexivity.
Qed.

Lemma map_size_imap_total {A B : Type} (f : string -> A -> B) (m : gmap string A) :
  size (map_imap (fun k x => Some (f k x)) m) = size m.
Proof.
  induction m as [|k x m Hk _ IH] using map_first_key_ind.
  - rewrite map_imap_empty, !map_size_empty. reflexivity.
  - rewrite (map_imap_insert_Some _ _ _ _ (f k x)) by reflexivity.
    rewrite !map_size_insert_None; [congruence | exact Hk |].
    rewrite map_lookup_imap, Hk. reflexivity.
Qed.

Section CalculationExtras.

Variable json_loads : string -> result value.

Lemma calc_table_is_Some (st : App) (field : string) :
  is_Some (calc_table json_loads st !! field)
  <-> exists col, mappings st !! field = Some col /\ col <> "".
Proof.
  unfold calc_table. rewrite map_lookup_imap. unfold active_mappings. split.
  - intros [column Hc].
    destruct (filter (fun kv : string * string => kv.2 <> "") (mappings st) !! field)
      as [col|] eqn:Hf; [|discriminate].
    apply map_lookup_filter_Some in Hf as [Hm Hne]. eauto.
  - intros (col & Hm & Hne).
    rewrite (proj2 (map_lookup_filter_Some _ _ _ _) (conj Hm Hne)). simpl. eauto.
Qed.

(** X4. The table a completed run stores has one column for each target
    field that is mapped to a non-empty column name and no other, and
    every column has as many cells as the source table has rows; the
    message of the run gives these two numbers. *)
Theorem calculated_table_shape (tk : tk_env) (st : App) (fields rows : nat) :
  (calculate_data json_loads tk st).1 = Complete fields rows ->
  exists t,
    calculated_data (calculate_data json_loads tk st).2 = Some t
    /\ (forall field, is_Some (t !! field)
          <-> exists col, mappings st !! field = Some col /\ col <> "")
    /\ (forall field column, t !! field = Some column -> length column = rows)
    /\ fields = size t /\ rows = length (csv_data st).
Proof.
  intros Hc. exists (calc_table json_loads st).
  destruct (calculate_data_complete json_loads tk st fields rows Hc)
    as (_ & _ & _ & -> & -> & ->).
  split; [reflexivity|]. split; [apply calc_table_is_Some|]. split; [|split].
  - intros field column Hcol.
    destruct (proj1 (calc_table_is_Some st field) (ex_intro _ _ Hcol)) as (col & Hf & Hne).
    rewrite (calc_table_lookup json_loads st field col Hf Hne) in Hcol.
    injection Hcol as <-. apply length_fmap.
  - unfold calc_table. symmetry. apply map_size_imap_total.
  - reflexivity.
Qed.

(** X5. In a run that completes, a target field mapped to a header that
    has no rule (its lowercased name is none of the three special ones)
    gets a copy of that column: cell n is the cell of row n at the
    position of the last header of that name, and the empty string where
    the row is too short. *)
Theorem ordinary_column_is_copied (tk : tk_env) (st : App)
    (field col : string) (fields rows : nat) :
  mappings st !! field = Some col -> col <> "" -> col ∈ csv_headers st ->
  Py.lower col <> "hiline_section" -> Py.lower col <> "hiline_road" ->
  Py.lower col <> "business_data" ->
  (calculate_data json_loads tk st).1 = Complete fields rows ->
  exists t i,
    calculated_data (calculate_data json_loads tk st).2 = Some t
    /\ csv_headers st !! i = Some col
    /\ (forall k, (i < k)%nat -> csv_headers st !! k <> Some col)
    /\ t !! field = Some ((fun row => PyStr (default "" (row !! i))) <$> csv_data st).
Proof.
  intros Hf Hne Hin Hs Hr Hb Hc.
  destruct (csv_col_index_last (csv_headers st) col Hin) as (i & Hi & Hl & Hlast).
  exists (calc_table json_loads st), i.
  destruct (calculate_data_complete json_loads tk st fields rows Hc)
    as (_ & _ & _ & _ & _ & ->).
  split; [reflexivity|]. split; [exact Hl|]. split; [exact Hlast|].
  rewrite (calc_table_lookup json_loads st field col Hf Hne). f_equal.
  apply list_fmap_ext. intros _ row _. unfold cell, cell_value.
  rewrite Hi, raw_value_nat.
  rewrite transform_other by (left; assumption). reflexivity.
Qed.

(** X6. Calculating again without changing anything gives the same
    message and the same state. *)
Theorem calculate_twice (tk tk' : tk_env) (st : App) :
  mappings st <> ∅ -> csv_data st <> [] ->
  tk_raises tk (length (csv_data st)) = false ->
  tk_raises tk' (length (csv_data st)) = false ->
  calculate_data json_loads tk' (calculate_data json_loads tk st).2
  = calculate_data json_loads tk st.
Proof.
  intros Hm Hd Htk Htk'.
  assert (Hopen : tk' OpenDialog = TkIdle).
  { unfold tk_raises in Htk'. apply orb_false_iff in Htk' as [H _].
    apply orb_false_iff in H as [H _]. destruct (tk' OpenDialog); [reflexivity | discriminate]. }
  rewrite <- (calculate_data_quiet json_loads tk' tk st Htk' Htk).
  destruct (calculate_data_cases json_loads tk' st) as [-> | [-> | [-> | (_ & _ & t & ->)]]];
    [reflexivity | apply calculate_data_previous; assumption ..].
Qed.

(** X7. After a run that completed, export is possible exactly when some
    target field is mapped to a non-empty column name: a run over
    mappings that are all empty names completes with zero fields and
    leaves a table that the export refuses. *)
Theorem export_needs_a_named_column (tk : tk_env) (st : App) (fields rows : nat) :
  (calculate_data json_loads tk st).1 = Complete fields rows ->
  fields = size (active_mappings (mappings st))
  /\ (can_export (calculate_data json_loads tk st).2 = true
      <-> exists field col, mappings st !! field = Some col /\ col <> "").
Proof.
  intros Hc.
  destruct (calculate_data_complete json_loads tk st fields rows Hc)
    as (_ & _ & _ & -> & _ & ->).
  split; [reflexivity|]. unfold can_export. cbn [snd calculated_data set_calculated_data].
  rewrite negb_true_iff, bool_decide_eq_false. split.
  - intros Hne. apply map_choose in Hne as (field & column & Hcol).
    exists field. apply calc_table_is_Some. eauto.
  - intros (field & col & Hf & Hcol) He.
    pose proof (proj2 (calc_table_is_Some st field) (ex_intro _ col (conj Hf Hcol))) as Hs.
    rewrite He, lookup_empty in Hs. destruct Hs as [? Hs]. discriminate.
Qed.

End CalculationExtras.

(** ** The usage counters *)

Lemma bound_to_lookup (m : gmap string string) (col field c : string) :
  bound_to m col !! field = Some c <-> m !! field = Some c /\ c = col.
Proof. unfold bound_to. rewrite map_lookup_filter_Some. reflexivity. Qed.

Lemma bound_to_delete_size (m : gmap string string) (col field : string) :
  (size (bound_to (delete field m) col)
   + (if decide (m !! field = Some col) then 1 else 0)
   = size (bound_to m col))%nat.
Proof.
  unfold bound_to. rewrite map_filter_delete, map_size_delete.
  destruct (filter (fun kv : string * string => kv.2 = col) m !! field) as [c|] eqn:Hf.
  - apply map_lookup_filter_Some in Hf as [Hm Hc]. simpl in Hc. subst c.
    rewrite decide_True by assumption.
    assert (size (filter (fun kv : string * string => kv.2 = col) m) <> O).
    { apply map_size_non_empty_iff. intros He.
      pose proof (proj2 (map_lookup_filter_Some (fun kv : string * string => kv.2 = col)
                           m field col) (conj Hm eq_refl)) as Hs.
      rewrite He, lookup_empty in Hs. discriminate. }
    simpl. lia.
  - rewrite decide_False; [simpl; lia|].
    intros Hm. rewrite (proj2 (map_lookup_filter_Some (fun kv : string * string => kv.2 = col)
                           m field col) (conj Hm eq_refl)) in Hf. discriminate.
Qed.

Lemma bound_to_insert_fresh_size (m : gmap string string) (col field c : string) :
  m !! field = None ->
  size (bound_to (<[field := c]> m) col)
  = (size (bound_to m col) + (if decide (c = col) then 1 else 0))%nat.
Proof.
  intros Hm. unfold bound_to. rewrite map_filter_insert. simpl.
  destruct (decide (c = col)) as [Hc | Hc].
  - rewrite map_size_insert_None; [lia|].
    apply map_lookup_filter_None_2. left. exact Hm.
  - rewrite delete_id by assumption. lia.
Qed.

Lemma usage_count_spec (m : gmap string string) (col : string) :
  usage_count m col = size (bound_to m col).
Proof.
  unfold usage_count, column_usage_count. revert col.
  apply (map_fold_weak_ind
           (fun (counts : gmap string nat) (m : gmap string string) =>
              forall col, default O (counts !! col) = size (bound_to m col))).
  - intros col. unfold bound_to. rewrite lookup_empty, map_filter_empty, map_size_empty.
    reflexivity.
  - intros field c m' counts Hm IH col.
    rewrite bound_to_insert_fresh_size by assumption.
    destruct (decide (c = col)) as [-> | Hc].
    + rewrite lookup_insert_eq. simpl. rewrite IH. reflexivity.
    + rewrite lookup_insert_ne by assumption. rewrite IH. lia.
Qed.

(** X8. The usage count shown for a column is the number of target
    fields mapped to it; it is zero exactly when no field is mapped to
    the column, and at least two when two different fields are. *)
Theorem usage_count_counts_fields (m : gmap string string) (col : string) :
  usage_count m col = size (bound_to m col)
  /\ (usage_count m col = O <-> forall field, m !! field <> Some col)
  /\ (forall f g, f <> g -> m !! f = Some col -> m !! g = Some col ->
        (2 <= usage_count m col)%nat).
Proof.
  rewrite usage_count_spec. split; [reflexivity|]. split.
  - rewrite map_size_empty_iff. split.
    + intros He field Hf.
      pose proof (proj2 (bound_to_lookup m col field col) (conj Hf eq_refl)) as Hs.
      rewrite He, lookup_empty in Hs. discriminate.
    + intros Hno. apply map_eq. intros field. rewrite lookup_empty.
      destruct (bound_to m col !! field) as [c|] eqn:Hb; [|reflexivity].
      apply bound_to_lookup in Hb as [Hm ->]. destruct (Hno _ Hm).
  - intros f g Hne Hf Hg.
    pose proof (bound_to_delete_size m col f) as H1.
    pose proof (bound_to_delete_size (delete f m) col g) as H2.
    rewrite decide_True in H1 by assumption.
    rewrite decide_True in H2 by (rewrite lookup_delete_ne; assumption).
    lia.
Qed.

(** X9. Choosing a column for a target field moves one unit of usage:
    for every column, the count after the choice plus one if the field
    was mapped to that column before equals the count before plus one if
    that column is the one chosen (the empty choice adds nothing). *)
Theorem selection_moves_usage (st : App) (target_field csv_column col : string) :
  (usage_count (mappings (on_mapping_selected target_field csv_column st)) col
   + (if decide (mappings st !! target_field = Some col) then 1 else 0)
   = usage_count (mappings st) col
     + (if decide (csv_column <> "" /\ csv_column = col) then 1 else 0))%nat.
Proof.
  rewrite !usage_count_spec. unfold on_mapping_selected.
  pose proof (bound_to_delete_size (mappings st) col target_field) as Hdel.
  destruct (String.eqb csv_column "") eqn:He; simpl.
  - apply String.eqb_eq in He.
    destruct (decide (csv_column <> "" /\ csv_column = col)) as [[Hn _] | _];
      [congruence | lia].
  - apply String.eqb_neq in He.
    rewrite <- (insert_delete_eq (mappings st)).
    rewrite bound_to_insert_fresh_size by apply lookup_delete_eq.
    destruct (decide (csv_column = col)) as [Hc | Hc];
      destruct (decide (csv_column <> "" /\ csv_column = col)) as [[_ Hc'] | Hn];
      try congruence; try lia.
    exfalso. apply Hn. split; assumption.
Qed.

(** The example of two fields on one column. *)
Example two_fields_one_column :
  let st := on_mapping_selected "B" "col1"
              (on_mapping_selected "A" "col1" (mkApp ["A"; "B"] ["col1"] [] ∅ None)) in
  usage_count (mappings st) "col1" = 2%nat
  /\ mappings st !! "A" = Some "col1" /\ mappings st !! "B" = Some "col1".
Proof. vm_compute. repeat split; reflexivity. Qed.

Lemma size_two_keys {A : Type} (m : gmap string A) :
  (2 <= size m)%nat ->
  exists f g x y, f <> g /\ m !! f = Some x /\ m !! g = Some y.
Proof.
  intros Hs.
  assert (Hne : m <> ∅) by (intros ->; rewrite map_size_empty in Hs; lia).
  apply map_choose in Hne as (f & x & Hf).
  assert (Hne' : delete f m <> ∅).
  { intros He. pose proof (map_size_delete f m) as Hd. rewrite Hf, He, map_size_empty in Hd.
    lia. }
  apply map_choose in Hne' as (g & y & Hg).
  apply lookup_delete_Some in Hg as [Hfg Hg]. exists f, g, x, y. auto.
Qed.

(** X10. The shared-columns counter is the number of columns used by
    more than one target field, so the label is shown exactly when two
    different target fields are mapped to the same column. *)
Theorem shared_label_shown (st : App) :
  (0 < shared_columns st)%nat
  <-> exists f g col, f <> g /\ mappings st !! f = Some col /\ mappings st !! g = Some col.
Proof.
  unfold shared_columns. split.
  - intros Hs.
    assert (Hne : filter (fun kv : string * nat => (1 < kv.2)%nat)
                    (column_usage_count (mappings st)) <> ∅).
    { intros He. rewrite He, map_size_empty in Hs. lia. }
    apply map_choose in Hne as (col & n & Hn).
    apply map_lookup_filter_Some in Hn as [Hc Hn]. simpl in Hn.
    pose proof (usage_count_spec (mappings st) col) as Hu.
    unfold usage_count in Hu. rewrite Hc in Hu. simpl in Hu.
    destruct (size_two_keys (bound_to (mappings st) col)) as (f & g & x & y & Hfg & Hf & Hg);
      [lia|].
    apply bound_to_lookup in Hf as [Hf ->]. apply bound_to_lookup in Hg as [Hg ->].
    exists f, g, col. auto.
  - intros (f & g & col & Hfg & Hf & Hg).
    pose proof (bound_to_delete_size (mappings st) col f) as H1.
    pose proof (bound_to_delete_size (delete f (mappings st)) col g) as H2.
    rewrite decide_True in H1 by assumption.
    rewrite decide_True in H2 by (rewrite lookup_delete_ne; assumption).
    pose proof (usage_count_spec (mappings st) col) as Hu. unfold usage_count in Hu.
    destruct (column_usage_count (mappings st) !! col) as [n|] eqn:Hc; simpl in Hu; [|lia].
    assert (Hin : filter (fun kv : string * nat => (1 < kv.2)%nat)
                    (column_usage_count (mappings st)) !! col = Some n).
    { apply map_lookup_filter_Some. split; [exact Hc | simpl; lia]. }
    destruct (decide (size (filter (fun kv : string * nat => (1 < kv.2)%nat)
                              (column_usage_count (mappings st))) = O)) as [Hz|Hz]; [|lia].
    apply map_size_empty_iff in Hz. rewrite Hz, lookup_empty in Hin. discriminate.
Qed.

(** ** More on positional auto-map *)

Lemma auto_map_loop_spec (H T : list string) :
  forall i (m : gmap string string) f c,
  auto_map_loop H i T m !! f = Some c
  <-> (exists j, T !! j = Some f /\ H !! (i + j)%nat = Some c
         /\ forall k, (j < k)%nat -> (i + k < length H)%nat -> T !! k <> Some f)
      \/ (m !! f = Some c
          /\ forall k, (i + k < length H)%nat -> T !! k <> Some f).
Proof.
  induction T as [|t rest IH]; intros i m f c.
  - simpl. split.
    + intros Hm. right. split; [exact Hm|]. intros k _. rewrite lookup_nil. discriminate.
    + intros [(j & Hj & _) | [Hm _]]; [rewrite lookup_nil in Hj; discriminate | exact Hm].
  - cbn [auto_map_loop]. rewrite IH. clear IH. split.
    + intros [(j & Hj & Hh & Hlast) | [Hm Hfree]].
      * left. exists (S j). split; [exact Hj|].
        replace (i + S j)%nat with (S i + j)%nat by lia. split; [exact Hh|].
        intros [|k] Hk Hlen; [lia|]. simpl. apply Hlast; lia.
      * destruct (i <? length H)%nat eqn:Hi.
        -- apply Nat.ltb_lt in Hi. destruct (lookup_lt_is_Some_2 H i Hi) as [h Hh].
           rewrite Hh in Hm. destruct (decide (t = f)) as [-> | Hne].
           ++ rewrite lookup_insert_eq in Hm. injection Hm as ->.
              left. exists O. split; [reflexivity|]. rewrite Nat.add_0_r.
              split; [exact Hh|].
              intros [|k] Hk Hlen; [lia|]. simpl. apply Hfree. lia.
           ++ rewrite lookup_insert_ne in Hm by assumption.
              right. split; [exact Hm|].
              intros [|k] Hlen; simpl; [congruence|]. apply Hfree. lia.
        -- apply Nat.ltb_ge in Hi. right. split; [exact Hm|]. intros k Hlen. lia.
    + intros [(j & Hj & Hh & Hlast) | [Hm Hfree]].
      * destruct j as [|j].
        -- right. simpl in Hj. injection Hj as ->. rewrite Nat.add_0_r in Hh.
           replace (i <? length H)%nat with true
             by (symmetry; apply Nat.ltb_lt; eapply lookup_lt_Some; exact Hh).
           rewrite Hh, lookup_insert_eq. split; [reflexivity|].
           intros k Hlen. apply (Hlast (S k)); lia.
        -- left. exists j. split; [exact Hj|].
           replace (S i + j)%nat with (i + S j)%nat by lia. split; [exact Hh|].
           intros k Hk Hlen. apply (Hlast (S k)); lia.
      * right. split.
        -- destruct (i <? length H)%nat eqn:Hi; [|exact Hm].
           apply Nat.ltb_lt in Hi. destruct (lookup_lt_is_Some_2 H i Hi) as [h Hh].
           rewrite Hh. rewrite lookup_insert_ne; [exact Hm|].
           intros ->. apply (Hfree O); [lia | reflexivity].
        -- intros k Hlen. apply (Hfree (S k)). lia.
Qed.

Lemma auto_map_mappings (st : App) :
  csv_headers st <> [] ->
  mappings (auto_map st) = auto_map_loop (csv_headers st) 0 (TARGET_FIELDS st) ∅.
Proof.
  intros Hh. unfold auto_map. destruct (csv_headers st) eqn:He; [congruence|].
  cbn. rewrite He. reflexivity.
Qed.

(** X11. Positional auto-map with any list of target fields, duplicates
    included: when there is a header, a target field is bound to a
    column exactly when the column is the header at the last position,
    among those that have a header, where the field occurs. *)
Theorem auto_map_last_position_wins (st : App) (f c : string) :
  csv_headers st <> [] ->
  (mappings (auto_map st) !! f = Some c
   <-> exists j, TARGET_FIELDS st !! j = Some f /\ csv_headers st !! j = Some c
         /\ forall k, (j < k)%nat -> (k < length (csv_headers st))%nat ->
              TARGET_FIELDS st !! k <> Some f).
Proof.
  intros Hh. rewrite auto_map_mappings by assumption. rewrite auto_map_loop_spec.
  split.
  - intros [H | [H _]]; [exact H | rewrite lookup_empty in H; discriminate].
  - intros H. left. exact H.
Qed.

Lemma zip_keys_NoDup (T H : list string) : NoDup T -> NoDup (zip T H).*1.
Proof.
  intros Hnd. eapply sublist_NoDup; [exact Hnd|]. clear Hnd.
  revert H. induction T as [|t T IH]; intros [|h H]; simpl; try apply sublist_nil_l.
  apply sublist_skip. apply IH.
Qed.

Lemma auto_map_is_zip (st : App) :
  NoDup (TARGET_FIELDS st) -> csv_headers st <> [] ->
  mappings (auto_map st) = list_to_map (zip (TARGET_FIELDS st) (csv_headers st)).
Proof.
  intros Hnd Hh. apply map_eq. intros f. apply option_eq. intros c.
  rewrite auto_map_mappings, auto_map_loop_spec by assumption.
  pose proof (zip_keys_NoDup _ (csv_headers st) Hnd) as Hkeys.
  rewrite <- (elem_of_list_to_map _ _ _ Hkeys).
  rewrite list_elem_of_lookup. split.
  - intros [(j & Hj & Hc & _) | [H _]]; [|rewrite lookup_empty in H; discriminate].
    exists j. apply lookup_zip_with_Some. eauto.
  - intros [j Hj]. apply lookup_zip_with_Some in Hj as (f' & c' & [= <- <-] & Hf & Hc).
    left. exists j. split; [exact Hf|]. split; [exact Hc|].
    intros k Hk _ Hfk. pose proof (NoDup_lookup _ _ _ _ Hnd Hf Hfk). lia.
Qed.

(** X12. With target fields that are all different and at least one
    header, positional auto-map binds min(len T, len H) fields, and the
    remaining counter shows the rest. *)
Theorem auto_map_count (st : App) :
  NoDup (TARGET_FIELDS st) -> csv_headers st <> [] ->
  mapped_count (auto_map st)
    = Nat.min (length (TARGET_FIELDS st)) (length (csv_headers st))
  /\ remaining_count (auto_map st)
    = Z.of_nat (length (TARGET_FIELDS st)
                - Nat.min (length (TARGET_FIELDS st)) (length (csv_headers st))).
Proof.
  intros Hnd Hh.
  assert (Hsize : size (mappings (auto_map st))
                  = Nat.min (length (TARGET_FIELDS st)) (length (csv_headers st))).
  { rewrite auto_map_is_zip by assumption. rewrite map_size_list_to_map.
    - apply length_zip_with.
    - apply zip_keys_NoDup. exact Hnd. }
  unfold mapped_count, remaining_count. rewrite Hsize.
  split; [reflexivity|].
  assert (HT : TARGET_FIELDS (auto_map st) = TARGET_FIELDS st).
  { unfold auto_map. destruct (csv_headers st); reflexivity. }
  rewrite HT. lia.
Qed.

(** ** Smart auto-map *)

Lemma str_in_iff (x : string) (l : list string) : str_in x l = true <-> x ∈ l.
Proof.
  unfold str_in. rewrite existsb_exists, list_elem_of_In. split.
  - intros (y & Hy & Heq). apply String.eqb_eq in Heq. subst. exact Hy.
  - intros H. exists x. split; [exact H | apply String.eqb_refl].
Qed.

Lemma header_map_fold (headers : list string) :
  forall (m : gmap string string) k h,
  foldl (fun m h => <[Py.lower h := h]> m) m headers !! k = Some h ->
  (h ∈ headers /\ Py.lower h = k) \/ m !! k = Some h.
Proof.
  induction headers as [|h0 rest IH]; intros m k h H; simpl in *; [auto|].
  apply IH in H as [[Hin Hl] | H].
  - left. split; [apply list_elem_of_further; exact Hin | exact Hl].
  - destruct (decide (Py.lower h0 = k)) as [<- | Hne].
    + rewrite lookup_insert_eq in H. injection H as <-. left.
      split; [apply list_elem_of_here | reflexivity].
    + rewrite lookup_insert_ne in H by assumption. auto.
Qed.

Lemma header_map_fold_Some (headers : list string) :
  forall (m : gmap string string) k,
  (exists h, h ∈ headers /\ Py.lower h = k) \/ is_Some (m !! k) ->
  is_Some (foldl (fun m h => <[Py.lower h := h]> m) m headers !! k).
Proof.
  induction headers as [|h0 rest IH]; intros m k H; simpl.
  - destruct H as [(h & Hin & _) | H]; [inversion Hin | exact H].
  - apply IH. destruct H as [(h & Hin & Hl) | H].
    + apply elem_of_cons in Hin as [-> | Hin]; [|left; eauto].
      right. rewrite Hl, lookup_insert_eq. eauto.
    + right. destruct (decide (Py.lower h0 = k)) as [<- | Hne].
      * rewrite lookup_insert_eq. eauto.
      * rewrite lookup_insert_ne by assumption. exact H.
Qed.

(** The header a rule key resolves to has the key's lowercased name, and
    a key resolves as soon as some header has it. *)
Lemma csv_header_map_spec (headers : list string) (k : string) :
  (forall h, csv_header_map headers !! k = Some h -> h ∈ headers /\ Py.lower h = k)
  /\ ((exists h, h ∈ headers /\ Py.lower h = k) -> is_Some (csv_header_map headers !! k)).
Proof.
  unfold csv_header_map. split.
  - intros h H. apply header_map_fold in H as [H | H]; [exact H|].
    rewrite lookup_empty in H. discriminate.
  - intros H. apply header_map_fold_Some. left. exact H.
Qed.

Lemma smart_rule_loop_cons (st : App) (actual t : string) (rest : list string)
    (m : gmap string string) (n : nat) :
  smart_rule_loop st actual (t :: rest) (m, n)
  = smart_rule_loop st actual rest
      (if str_in t (TARGET_FIELDS st) then (<[t := actual]> m, S n) else (m, n)).
Proof. reflexivity. Qed.

Lemma smart_rule_loop_spec (st : App) (actual : string) (targets : list string) :
  forall (m : gmap string string) (n : nat),
  NoDup targets -> (forall f, f ∈ targets -> m !! f = None) ->
  (forall f c, (smart_rule_loop st actual targets (m, n)).1 !! f = Some c
     <-> m !! f = Some c \/ (f ∈ targets /\ f ∈ TARGET_FIELDS st /\ c = actual))
  /\ ((smart_rule_loop st actual targets (m, n)).2 + size m
      = n + size (smart_rule_loop st actual targets (m, n)).1)%nat.
Proof.
  induction targets as [|t rest IH]; intros m n Hnd Hfresh.
  - simpl. split; [|lia]. intros f c. split; [auto|].
    intros [H | (Hin & _)]; [exact H | inversion Hin].
  - apply NoDup_cons in Hnd as [Ht Hnd]. rewrite smart_rule_loop_cons.
    destruct (str_in t (TARGET_FIELDS st)) eqn:Hw.
    + destruct (IH (<[t := actual]> m) (S n) Hnd) as [Hl Hs].
      { intros f Hf. rewrite lookup_insert_ne by (intros ->; contradiction).
        apply Hfresh. apply list_elem_of_further. exact Hf. }
      split.
      * intros f c. rewrite Hl. destruct (decide (t = f)) as [<- | Hne].
        -- rewrite lookup_insert_eq. rewrite (Hfresh t) by apply list_elem_of_here.
           split.
           ++ intros [[= <-] | (Hin & _)]; [|contradiction].
              right. split; [apply list_elem_of_here|].
              split; [apply str_in_iff; exact Hw | reflexivity].
           ++ intros [H | (_ & _ & ->)]; [discriminate | left; reflexivity].
        -- rewrite lookup_insert_ne by assumption. split.
           ++ intros [H | (Hin & Hrest)]; [left; exact H|].
              right. split; [apply list_elem_of_further; exact Hin | exact Hrest].
           ++ intros [H | (Hin & Hrest)]; [left; exact H|].
              right. apply elem_of_cons in Hin as [-> | Hin]; [congruence|].
              split; assumption.
      * rewrite map_size_insert_None in Hs by (apply Hfresh; apply list_elem_of_here).
        lia.
    + destruct (IH m n Hnd) as [Hl Hs].
      { intros f Hf. apply Hfresh. apply list_elem_of_further. exact Hf. }
      split; [|exact Hs].
      intros f c. rewrite Hl. split.
      * intros [H | (Hin & Hrest)]; [left; exact H|].
        right. split; [apply list_elem_of_further; exact Hin | exact Hrest].
      * intros [H | (Hin & HT & Hc)]; [left; exact H|].
        apply elem_of_cons in Hin as [-> | Hin].
        -- apply str_in_iff in HT. congruence.
        -- right. split; [exact Hin|]. split; assumption.
Qed.

Lemma smart_rules_loop_spec (st : App) (header_map : gmap string string)
    (rules : list (string * list string)) :
  forall (m : gmap string string) (n : nat),
  NoDup (concat rules.*2) -> (forall f, f ∈ concat rules.*2 -> m !! f = None) ->
  (forall f c, (smart_rules_loop st header_map rules (m, n)).1 !! f = Some c
     <-> m !! f = Some c
         \/ exists key targets, (key, targets) ∈ rules /\ f ∈ targets
              /\ f ∈ TARGET_FIELDS st /\ header_map !! Py.lower key = Some c)
  /\ ((smart_rules_loop st header_map rules (m, n)).2 + size m
      = n + size (smart_rules_loop st header_map rules (m, n)).1)%nat.
Proof.
  induction rules as [|[key targets] rest IH]; intros m n Hnd Hfresh.
  - simpl. split; [|lia]. intros f c. split; [auto|].
    intros [H | (k & t & Hin & _)]; [exact H | inversion Hin].
  - simpl in Hnd, Hfresh. apply NoDup_app in Hnd as (Hnt & Hdisj & Hnr).
    assert (Hstep : forall acc,
              smart_rules_loop st header_map ((key, targets) :: rest) acc
              = smart_rules_loop st header_map rest
                  (match header_map !! Py.lower key with
                   | Some actual => smart_rule_loop st actual targets acc
                   | None => acc
                   end)) by reflexivity.
    rewrite Hstep. clear Hstep.
    destruct (header_map !! Py.lower key) as [actual|] eqn:Hk.
    + destruct (smart_rule_loop_spec st actual targets m n Hnt) as [Hl1 Hs1].
      { intros f Hf. apply Hfresh. apply elem_of_app. left. exact Hf. }
      destruct (smart_rule_loop st actual targets (m, n)) as [m1 n1] eqn:Hacc.
      simpl in Hl1, Hs1.
      destruct (IH m1 n1 Hnr) as [Hl Hs].
      { intros f Hf. destruct (m1 !! f) as [c|] eqn:Hm1; [|reflexivity].
        apply Hl1 in Hm1 as [Hm | (Hin & _)].
        - rewrite Hfresh in Hm by (apply elem_of_app; right; exact Hf). discriminate.
        - destruct (Hdisj f Hin Hf). }
      split; [|lia].
      intros f c. rewrite Hl, Hl1. split.
      * intros [[H | (Hin & HT & ->)] | (k & t & Hin & Hrest)].
        -- left. exact H.
        -- right. exists key, targets. split; [apply list_elem_of_here|]. auto.
        -- right. exists k, t. split; [apply list_elem_of_further; exact Hin | exact Hrest].
      * intros [H | (k & t & Hin & Hf & HT & Hc)]; [left; left; exact H|].
        apply elem_of_cons in Hin as [[= -> ->] | Hin].
        -- left. right. split; [exact Hf|]. split; [exact HT | congruence].
        -- right. exists k, t. auto.
    + destruct (IH m n Hnr) as [Hl Hs].
      { intros f Hf. apply Hfresh. apply elem_of_app. right. exact Hf. }
      split; [|exact Hs].
      intros f c. rewrite Hl. split.
      * intros [H | (k & t & Hin & Hrest)]; [left; exact H|].
        right. exists k, t. split; [apply list_elem_of_further; exact Hin | exact Hrest].
      * intros [H | (k & t & Hin & Hf & HT & Hc)]; [left; exact H|].
        apply elem_of_cons in Hin as [[= -> ->] | Hin]; [congruence|].
        right. exists k, t. auto.
Qed.

Lemma smart_auto_map_unfold (st : App) :
  csv_headers st <> [] ->
  smart_auto_map st
  = ((smart_rules_loop (clear_mappings st) (csv_header_map (csv_headers st))
        mapping_rules (∅, O)).2,
     set_mappings
       (smart_rules_loop (clear_mappings st) (csv_header_map (csv_headers st))
          mapping_rules (∅, O)).1
       (clear_mappings st)).
Proof.
  intros Hh. unfold smart_auto_map. destruct (csv_headers st) eqn:He; [congruence|].
  unfold smart_rules_loop. cbn [csv_headers clear_mappings set_calculated_data set_mappings mappings].
  rewrite He.
  match goal with |- context [foldl ?f ?a ?l] => destruct (foldl f a l) end.
  reflexivity.
Qed.

Lemma mapping_rules_NoDup : NoDup (concat mapping_rules.*2).
Proof. refine (bool_decide_unpack _ _). vm_compute. exact I. Qed.

(** The bindings smart auto-map makes. *)
Lemma smart_auto_map_bindings (st : App) (f c : string) :
  csv_headers st <> [] ->
  (mappings (smart_auto_map st).2 !! f = Some c
   <-> exists key targets, (key, targets) ∈ mapping_rules /\ f ∈ targets
         /\ f ∈ TARGET_FIELDS st
         /\ csv_header_map (csv_headers st) !! Py.lower key = Some c).
Proof.
  intros Hh. rewrite smart_auto_map_unfold by assumption. cbn [snd set_mappings mappings].
  destruct (smart_rules_loop_spec (clear_mappings st) (csv_header_map (csv_headers st))
              mapping_rules ∅ O mapping_rules_NoDup) as [Hl _].
  { intros f' _. apply lookup_empty. }
  rewrite Hl. split.
  - intros [H | H]; [rewrite lookup_empty in H; discriminate | exact H].
  - intros H. right. exact H.
Qed.

Lemma smart_auto_map_sound (st : App) (f c : string) :
  csv_headers st <> [] ->
  mappings (smart_auto_map st).2 !! f = Some c ->
  f ∈ TARGET_FIELDS st /\ c ∈ csv_headers st
  /\ exists key targets, (key, targets) ∈ mapping_rules /\ f ∈ targets
       /\ Py.lower c = Py.lower key.
Proof.
  intros Hh Hf.
  apply smart_auto_map_bindings in Hf as (key & targets & Hr & Hin & HT & Hc);
    [|assumption].
  apply (proj1 (csv_header_map_spec _ _)) in Hc as [Hch Hl].
  split; [exact HT|]. split; [exact Hch|]. exists key, targets. auto.
Qed.

(** X13. Smart auto-map, when there is a header: the number it reports is
    the number of target fields mapped afterwards; a field is mapped only
    if it is a target field listed by a rule, and then to a header whose
    lowercased name is the rule's; and every target field listed by a
    rule whose name some header has, in any case, is mapped. *)
Theorem smart_auto_map_follows_rules (st : App) :
  csv_headers st <> [] ->
  (smart_auto_map st).1 = size (mappings (smart_auto_map st).2)
  /\ (forall f c, mappings (smart_auto_map st).2 !! f = Some c ->
        f ∈ TARGET_FIELDS st /\ c ∈ csv_headers st
        /\ exists key targets, (key, targets) ∈ mapping_rules /\ f ∈ targets
             /\ Py.lower c = Py.lower key)
  /\ (forall key targets f h,
        (key, targets) ∈ mapping_rules -> f ∈ targets -> f ∈ TARGET_FIELDS st ->
        h ∈ csv_headers st -> Py.lower h = Py.lower key ->
        exists c, mappings (smart_auto_map st).2 !! f = Some c
                  /\ Py.lower c = Py.lower key).
Proof.
  intros Hh. split; [|split].
  - rewrite smart_auto_map_unfold by assumption. cbn [fst snd set_mappings mappings].
    destruct (smart_rules_loop_spec (clear_mappings st) (csv_header_map (csv_headers st))
                mapping_rules ∅ O mapping_rules_NoDup) as [_ Hs].
    { intros f' _. apply lookup_empty. }
    rewrite map_size_empty in Hs. lia.
  - intros f c. apply smart_auto_map_sound. exact Hh.
  - intros key targets f h Hr Hin HT Hh' Hl.
    destruct (proj2 (csv_header_map_spec (csv_headers st) (Py.lower key))) as [c Hc];
      [eauto|].
    exists c. split.
    + apply smart_auto_map_bindings; [assumption|]. exists key, targets. auto.
    + apply (proj1 (csv_header_map_spec _ _)) in Hc as [_ Hl']. exact Hl'.
Qed.

Section SmartThenCalculate.

Variable json_loads : string -> result value.

Ltac lower_of_key H :=
  match type of H with
  | _ = Py.lower ?k =>
      let v := eval vm_compute in (Py.lower k) in change (Py.lower k) with v in H
  end.

(** X14. A binding made by smart auto-map always meets the test of the
    transformation meant for its field: VNK and NNK get the halves,
    KLASSE and NUMMER the parts of the road code, the sixteen
    business-data fields the JSON extractor, and ID, LAGE and FS the raw
    value; no other field is ever bound. *)
Theorem smart_bindings_use_their_rule (st : App) (f c raw : string) :
  csv_headers st <> [] ->
  mappings (smart_auto_map st).2 !! f = Some c ->
  (f = "VNK" -> transform json_loads f c raw = Ok (PyStr (_extract_vnk raw)))
  /\ (f = "NNK" -> transform json_loads f c raw = Ok (PyStr (_extract_nnk raw)))
  /\ (f = "KLASSE" -> transform json_loads f c raw = Ok (PyStr (_extract_klasse raw)))
  /\ (f = "NUMMER" -> transform json_loads f c raw = Ok (PyStr (_extract_nummer raw)))
  /\ (str_in f business_fields = true ->
      transform json_loads f c raw = _extract_from_business_data json_loads raw f)
  /\ (str_in f ["ID"; "LAGE"; "FS"] = true ->
      transform json_loads f c raw = Ok (PyStr raw))
  /\ str_in f (["VNK"; "NNK"; "KLASSE"; "NUMMER"; "ID"; "LAGE"; "FS"] ++ business_fields)
     = true.
Proof.
  intros Hh Hf.
  destruct (smart_auto_map_sound st f c Hh Hf) as (_ & _ & key & targets & Hr & Hin & Hl).
  apply list_elem_of_In in Hr. simpl in Hr.
  repeat (destruct Hr as [[= <- <-] | Hr]); try contradiction;
    apply list_elem_of_In in Hin; simpl in Hin;
    repeat (destruct Hin as [<- | Hin]); try contradiction;
    lower_of_key Hl;
    (repeat split; try (intros Hx; discriminate Hx); intros _;
     first [ apply transform_vnk; exact Hl
           | apply transform_nnk; exact Hl
           | apply transform_klasse; exact Hl
           | apply transform_nummer; exact Hl
           | apply transform_business; [exact Hl | reflexivity]
           | apply transform_other;
             first [ right; split; discriminate | right; reflexivity ] ]).
Qed.

End SmartThenCalculate.

(** ** Editing the target fields *)

Lemma rebuild_fold_spec (fields headers : list string) (old : gmap string string) :
  map_fold (fun field_name csv_col (m : gmap string string) =>
              if str_in field_name fields && str_in csv_col headers
              then <[field_name := csv_col]> m
              else m)
           ∅ old
  = filter (fun kv => kv.1 ∈ fields /\ kv.2 ∈ headers) old.
Proof.
  apply (map_fold_weak_ind
           (fun (r : gmap string string) (m : gmap string string) =>
              r = filter (fun kv => kv.1 ∈ fields /\ kv.2 ∈ headers) m)).
  - rewrite map_filter_empty. reflexivity.
  - intros f c m r Hm ->. rewrite map_filter_insert. cbn [fst snd].
    destruct (str_in f fields && str_in c headers) eqn:Hc.
    + apply andb_true_iff in Hc as [Hf Hh]. apply str_in_iff in Hf, Hh.
      rewrite decide_True by (split; assumption). reflexivity.
    + rewrite decide_False.
      * rewrite delete_id by assumption. reflexivity.
      * intros [Hf Hh]. apply str_in_iff in Hf, Hh. rewrite Hf, Hh in Hc. discriminate.
Qed.

Lemma edit_target_fields_saved (st : App) (f0 : string) (fs : list string) :
  TARGET_FIELDS (edit_target_fields (Some (f0 :: fs)) st) = f0 :: fs
  /\ calculated_data (edit_target_fields (Some (f0 :: fs)) st) = None
  /\ csv_headers (edit_target_fields (Some (f0 :: fs)) st) = csv_headers st
  /\ csv_data (edit_target_fields (Some (f0 :: fs)) st) = csv_data st
  /\ (forall f c,
        mappings (edit_target_fields (Some (f0 :: fs)) st) !! f = Some c
        <-> mappings st !! f = Some c /\ f ∈ f0 :: fs /\ c ∈ csv_headers st).
Proof.
  unfold edit_target_fields, rebuild_target_panel.
  cbn [csv_headers set_mappings set_TARGET_FIELDS set_calculated_data mappings
       TARGET_FIELDS csv_data calculated_data].
  destruct (csv_headers st) as [|h hs] eqn:Hh;
    cbn [csv_headers set_mappings set_TARGET_FIELDS set_calculated_data mappings
         TARGET_FIELDS csv_data calculated_data].
  - split; [reflexivity|]. split; [reflexivity|]. split; [congruence|].
    split; [reflexivity|].
    intros f c. rewrite lookup_empty. split; [discriminate|].
    intros (_ & _ & Hc). inversion Hc.
  - split; [reflexivity|]. split; [reflexivity|]. split; [congruence|].
    split; [reflexivity|].
    intros f c. unfold in_target_widgets.
    cbn [TARGET_FIELDS set_mappings set_TARGET_FIELDS].
    rewrite rebuild_fold_spec, map_lookup_filter_Some. cbn [fst snd]. tauto.
Qed.

(** X15. Saving the edit dialog with a non-empty list of fields replaces
    the target fields, discards the calculated table and keeps exactly
    the old bindings whose field is still listed and whose column is one
    of the current headers (none at all when no file is loaded); the
    source table is untouched.  A cancelled dialog changes nothing. *)
Theorem edit_keeps_matching_bindings (st : App) (fields : list string) :
  fields <> [] ->
  TARGET_FIELDS (edit_target_fields (Some fields) st) = fields
  /\ calculated_data (edit_target_fields (Some fields) st) = None
  /\ csv_headers (edit_target_fields (Some fields) st) = csv_headers st
  /\ csv_data (edit_target_fields (Some fields) st) = csv_data st
  /\ (forall f c,
        mappings (edit_target_fields (Some fields) st) !! f = Some c
        <-> mappings st !! f = Some c /\ f ∈ fields /\ c ∈ csv_headers st)
  /\ edit_target_fields None st = st.
Proof.
  intros Hf. destruct fields as [|f0 fs]; [congruence|].
  destruct (edit_target_fields_saved st f0 fs) as (HT & Hc & Hh & Hd & Hm).
  repeat (split; [assumption|]). reflexivity.
Qed.

Lemma edit_keeps_matching_bindings_witness :
  ["B"; "GEB"] <> []
  /\ mappings (edit_target_fields (Some ["B"; "GEB"]) Sample.app)
     = {["GEB" := "business_data"]}
  /\ calculated_data (edit_target_fields (Some ["B"; "GEB"]) Sample.app) = None.
Proof.
  assert (Hne : ["B"; "GEB"] <> []) by discriminate.
  destruct (edit_keeps_matching_bindings Sample.app ["B"; "GEB"] Hne)
    as (_ & Hc & _ & _ & _ & _).
  split; [exact Hne|]. split; [|exact Hc].
  apply map_eq. intros k. vm_compute. reflexivity.
Defined.

(** ** Sessions *)

Lemma size_le_fields (m : gmap string string) (fields : list string) :
  (forall f, is_Some (m !! f) -> f ∈ fields) -> (size m <= length fields)%nat.
Proof.
  intros Hk. rewrite <- length_map_to_list, <- (length_fmap fst).
  apply submseteq_length. apply NoDup_submseteq; [apply NoDup_fst_map_to_list|].
  intros f Hf. apply list_elem_of_fmap in Hf as ([f' c] & -> & Hin).
  apply elem_of_map_to_list in Hin. apply Hk. simpl. eauto.
Qed.

Section SessionFacts.

Variable json_loads : string -> result value.

Lemma step_keeps_keys (ev : event) (st : App) :
  keys_are_fields st -> enabled ev st ->
  keys_are_fields (apply_event json_loads ev st).
Proof.
  intros Hk Hen. destruct ev as [f c | f | | | | r | r | tk]; cbn [apply_event].
  - intros g [x Hg]. unfold on_mapping_selected in Hg |- *.
    destruct (negb (String.eqb c "")); cbn in Hg |- *.
    + destruct (decide (f = g)) as [<- | Hne]; [exact Hen|].
      rewrite lookup_insert_ne in Hg by assumption. apply Hk. eauto.
    + destruct (decide (f = g)) as [<- | Hne]; [exact Hen|].
      rewrite lookup_delete_ne in Hg by assumption. apply Hk. eauto.
  - intros g [x Hg]. cbn in Hg |- *.
    destruct (decide (f = g)) as [<- | Hne]; [exact Hen|].
    rewrite lookup_delete_ne in Hg by assumption. apply Hk. eauto.
  - intros g [x Hg]. cbn in Hg. rewrite lookup_empty in Hg. discriminate.
  - destruct (decide (csv_headers st = [])) as [Hh | Hh].
    + unfold auto_map. rewrite Hh. exact Hk.
    + intros g [x Hg]. rewrite auto_map_mappings in Hg by assumption.
      apply auto_map_loop_spec in Hg as [(j & Hj & _) | [Hg _]];
        [|rewrite lookup_empty in Hg; discriminate].
      assert (HT : TARGET_FIELDS (auto_map st) = TARGET_FIELDS st)
        by (unfold auto_map; destruct (csv_headers st); reflexivity).
      rewrite HT. eapply list_elem_of_lookup_2. exact Hj.
  - destruct (decide (csv_headers st = [])) as [Hh | Hh].
    + unfold smart_auto_map. rewrite Hh. exact Hk.
    + intros g [x Hg].
      destruct (smart_auto_map_sound st g x Hh Hg) as (HT & _).
      rewrite smart_auto_map_unfold by assumption. exact HT.
  - destruct r as [[|f0 fs]|]; [exact Hk | | exact Hk].
    intros g [x Hg].
    destruct (edit_target_fields_saved st f0 fs) as (HT & _ & _ & _ & Hm).
    rewrite HT. apply Hm in Hg as (_ & Hin & _). exact Hin.
  - destruct r as [ | [h|] | h rows]; exact Hk.
  - destruct (calculate_keeps_inputs json_loads tk st) as (HT & _ & _ & Hm).
    intros g Hg. rewrite HT. apply Hk. rewrite <- Hm. exact Hg.
Qed.

(** X16. In every state a session reaches from a state where every
    mapped field is a target field, that is still so; the mapped counter
    never exceeds the number of target fields and the remaining counter
    is never negative. *)
Theorem mapped_fields_are_target_fields (start st : App) :
  keys_are_fields start -> reachable json_loads start st ->
  keys_are_fields st
  /\ (mapped_count st <= length (TARGET_FIELDS st))%nat
  /\ 0 <= remaining_count st.
Proof.
  intros Hstart Hreach.
  assert (Hk : keys_are_fields st).
  { induction Hreach as [|st ev _ IH Hen]; [exact Hstart|].
    apply step_keeps_keys; assumption. }
  pose proof (size_le_fields _ _ Hk) as Hs.
  split; [exact Hk|]. split; [exact Hs|]. unfold remaining_count. lia.
Qed.

Lemma step_keeps_table_current (ev : event) (st : App) :
  table_is_current json_loads st -> ~ half_loaded ev ->
  ~ handler_failed json_loads ev st ->
  table_is_current json_loads (apply_event json_loads ev st).
Proof.
  intros Hc Hok Hlive.
  assert (Hnone : forall st', calculated_data st' = None ->
                              table_is_current json_loads st')
    by (intros st' Hn t Ht; congruence).
  destruct ev as [f c | f | | | | r | r | tk]; cbn [apply_event].
  - apply Hnone. apply (proj1 (edits_invalidate st)).
  - apply Hnone. reflexivity.
  - apply Hnone. reflexivity.
  - destruct (decide (csv_headers st = [])) as [Hh | Hh].
    + unfold auto_map. rewrite Hh. exact Hc.
    + apply Hnone. unfold auto_map. destruct (csv_headers st); [congruence | reflexivity].
  - destruct (decide (csv_headers st = [])) as [Hh | Hh].
    + unfold smart_auto_map. rewrite Hh. exact Hc.
    + apply Hnone. rewrite smart_auto_map_unfold by assumption. reflexivity.
  - destruct r as [[|f0 fs]|]; [exact Hc | | exact Hc]. apply Hnone. reflexivity.
  - destruct r as [ | [h|] | h rows]; [exact Hc | | exact Hc | apply Hnone; reflexivity].
    exfalso. apply Hok. exact I.
  - destruct (calculate_data_cases json_loads tk st)
      as [-> | [-> | [-> | (Hopen & Hcrash & _)]]].
    + exact Hc.
    + apply Hnone. reflexivity.
    + intros t Ht. injection Ht as <-. reflexivity.
    + exfalso. apply Hlive. split; assumption.
Qed.

Lemma clean_session_table (start st : App) :
  calculated_data start = None -> reachable_clean json_loads start st ->
  table_is_current json_loads st.
Proof.
  intros Hstart Hreach. induction Hreach as [|st ev _ IH Hen Hok Hlive].
  - intros t Ht. congruence.
  - apply step_keeps_table_current; assumption.
Qed.

Lemma calc_table_column (st : App) (field : string) (column : list value) :
  calc_table json_loads st !! field = Some column ->
  length column = length (csv_data st)
  /\ exists col, mappings st !! field = Some col /\ col <> "".
Proof.
  intros Hcol.
  destruct (proj1 (calc_table_is_Some json_loads st field) (ex_intro _ _ Hcol))
    as (col & Hf & Hne).
  split; [|eauto].
  rewrite (calc_table_lookup json_loads st field col Hf Hne) in Hcol.
  injection Hcol as <-. apply length_fmap.
Qed.

(** X17. In a session without a load that fails after the header row was
    read, and as long as the application lives, a stored table is always
    the table of the current mapping and source table: one column for
    each field mapped to a named column, one cell per row.  Whatever
    export accepts is up to date. *)
Theorem stored_table_is_current (start st : App) :
  calculated_data start = None -> reachable_clean json_loads start st ->
  forall t, calculated_data st = Some t ->
    t = calc_table json_loads st
    /\ forall field column, t !! field = Some column ->
         length column = length (csv_data st)
         /\ exists col, mappings st !! field = Some col /\ col <> "".
Proof.
  intros Hstart Hreach t Ht.
  pose proof (clean_session_table start st Hstart Hreach t Ht) as ->.
  split; [reflexivity | apply calc_table_column].
Qed.

End SessionFacts.

(** ** Building the exported rows *)

Lemma collect_fmap {A B : Type} (f : A -> Save.error + B) (g : A -> B) (l : list A) :
  (forall x, x ∈ l -> f x = inr (g x)) -> Save.collect f l = inr (g <$> l).
Proof.
  induction l as [|x l IH]; intros H; simpl; [reflexivity|].
  rewrite (H x) by apply list_elem_of_here.
  rewrite IH by (intros y Hy; apply H; apply list_elem_of_further; exact Hy).
  reflexivity.
Qed.

Lemma collect_inr {A B : Type} (f : A -> Save.error + B) (l : list A) (ys : list B) :
  Save.collect f l = inr ys ->
  length ys = length l
  /\ forall i x, l !! i = Some x -> exists y, ys !! i = Some y /\ f x = inr y.
Proof.
  revert ys. induction l as [|x l IH]; intros ys H; simpl in H.
  - injection H as <-. split; [reflexivity|]. intros i x Hi. rewrite lookup_nil in Hi.
    discriminate.
  - destruct (f x) as [e|y] eqn:Hx; [discriminate|].
    destruct (Save.collect f l) as [e|ys'] eqn:Hl; [discriminate|].
    injection H as <-. destruct (IH ys' eq_refl) as [Hlen Hcells].
    split; [simpl; congruence|].
    intros [|i] x' Hi; simpl in *.
    + injection Hi as <-. eauto.
    + apply Hcells. exact Hi.
Qed.

Lemma collect_inl {A B : Type} (f : A -> Save.error + B) (l : list A) (e : Save.error) :
  Save.collect f l = inl e -> exists x, x ∈ l /\ f x = inl e.
Proof.
  induction l as [|x l IH]; intros H; simpl in H; [discriminate|].
  destruct (f x) as [e'|y] eqn:Hx.
  - injection H as <-. exists x. split; [apply list_elem_of_here | exact Hx].
  - destruct (Save.collect f l) as [e'|ys'] eqn:Hl; [|discriminate].
    injection H as <-. destruct (IH eq_refl) as (x' & Hin & Hx').
    exists x'. split; [apply list_elem_of_further; exact Hin | exact Hx'].
Qed.

Section SaveFacts.

Variable py_repr : value -> string.

Lemma fields_with_data_elem (keys : list string) (t : gmap string (list value)) (f : string) :
  f ∈ Save.fields_with_data keys t
  <-> f ∈ keys /\ exists v column, t !! f = Some (v :: column).
Proof.
  unfold Save.fields_with_data. rewrite !list_elem_of_In, filter_In. split.
  - intros [Hin Hc]. split; [exact Hin|].
    destruct (t !! f) as [[|v column]|]; try discriminate. eauto.
  - intros [Hin (v & column & ->)]. split; [exact Hin | reflexivity].
Qed.

Lemma save_cases (keys : list string) (t : gmap string (list value)) :
  (Save.fields_with_data keys t = []
   /\ Save._save_as_csv py_repr keys t = Save.NoData)
  \/ exists first fields v0 column0,
       Save.fields_with_data keys t = first :: fields
       /\ t !! first = Some (v0 :: column0)
       /\ Save._save_as_csv py_repr keys t
          = match Save.collect
                    (fun i => Save.collect (Save.cell_text py_repr t i) (first :: fields))
                    (seq 0 (length (v0 :: column0))) with
            | inr rows => Save.Written (first :: fields) rows
            | inl e => Save.Failed e
            end.
Proof.
  unfold Save._save_as_csv.
  destruct (Save.fields_with_data keys t) as [|first fields] eqn:Hfields.
  - left. split; reflexivity.
  - right.
    assert (Hfirst : exists v column, t !! first = Some (v :: column)).
    { apply (fields_with_data_elem keys t first). rewrite Hfields.
      apply list_elem_of_here. }
    destruct Hfirst as (v0 & column0 & Hfirst). exists first, fields, v0, column0.
    split; [reflexivity|]. split; [exact Hfirst|]. rewrite Hfirst. reflexivity.
Qed.

Lemma export_cell_text (v : value) :
  str_ok v = true -> export_cell py_repr v = Ok (export_text py_repr v).
Proof.
  intros Hv. unfold export_cell, export_text, py_str. rewrite Hv.
  destruct v; reflexivity.
Qed.

Lemma export_cell_raises (v : value) (e : exn) :
  export_cell py_repr v = Raise e -> str_ok v = false.
Proof.
  unfold export_cell, py_str. destruct v; try discriminate;
    match goal with |- context [str_ok ?v] => destruct (str_ok v) end;
    first [discriminate | reflexivity].
Qed.

(** Why building the rows fails: a column is shorter than the first, or
    a cell holds a value [str] refuses. *)
Lemma save_failed (keys : list string) (t : gmap string (list value)) (e : Save.error) :
  Save._save_as_csv py_repr keys t = Save.Failed e ->
  (e = Save.IndexError
   /\ exists first column f shorter,
        head (Save.fields_with_data keys t) = Some first
        /\ t !! first = Some column /\ f ∈ Save.fields_with_data keys t
        /\ t !! f = Some shorter /\ (length shorter < length column)%nat)
  \/ (e = Save.ValueError
      /\ exists f column i v,
           f ∈ Save.fields_with_data keys t
           /\ t !! f = Some column /\ column !! i = Some v /\ str_ok v = false).
Proof.
  destruct (save_cases keys t)
    as [[_ ->] | (first & fields & v0 & column0 & Hfields & Hfirst & ->)];
    [discriminate|].
  destruct (Save.collect _ _) as [e'|rows] eqn:Hrows; [|discriminate].
  intros [= <-]. apply collect_inl in Hrows as (i & Hi & Hrow).
  apply collect_inl in Hrow as (f & Hf & Hcell).
  apply elem_of_seq in Hi. unfold Save.cell_text in Hcell.
  assert (Hfd : exists v column, t !! f = Some (v :: column)).
  { apply (fields_with_data_elem keys t f). rewrite Hfields. exact Hf. }
  destruct Hfd as (v & column & Ht). rewrite Ht in Hcell.
  destruct ((v :: column) !! i) as [w|] eqn:Hw.
  - right. destruct (export_cell py_repr w) as [text|e''] eqn:Hw'; [discriminate|].
    injection Hcell as <-. split; [reflexivity|].
    exists f, (v :: column), i, w. rewrite Hfields.
    split; [exact Hf|]. split; [exact Ht|]. split; [exact Hw|].
    eapply export_cell_raises. exact Hw'.
  - left. injection Hcell as <-. split; [reflexivity|].
    exists first, (v0 :: column0), f, (v :: column). rewrite Hfields.
    split; [reflexivity|]. split; [exact Hfirst|]. split; [exact Hf|].
    split; [exact Ht|]. apply lookup_ge_None in Hw. lia.
Qed.

(** X18. What [_save_as_csv] hands to the writer, for any table.  It
    warns that there is no data exactly when no key has a non-empty
    column.  When it writes, the header is the list of keys with a
    non-empty column, there are as many rows as the first of these
    columns has cells (longer columns are cut), each row has one cell per
    header field and the cell is the converted value at that row.  When
    it fails, it is with an index error, because some column is shorter
    than the first, or with a value error, because some cell holds an
    integer of more than 4300 digits. *)
Theorem save_rows (keys : list string) (t : gmap string (list value)) :
  (Save._save_as_csv py_repr keys t = Save.NoData
   <-> forall f v column, f ∈ keys -> t !! f <> Some (v :: column))
  /\ (forall header rows,
        Save._save_as_csv py_repr keys t = Save.Written header rows ->
        header = Save.fields_with_data keys t
        /\ (exists first column, head header = Some first
              /\ t !! first = Some column /\ length rows = length column)
        /\ forall i row, rows !! i = Some row ->
             length row = length header
             /\ forall j f, header !! j = Some f ->
                  exists column v text,
                    t !! f = Some column /\ column !! i = Some v
                    /\ export_cell py_repr v = Ok text /\ row !! j = Some text)
  /\ (forall e, Save._save_as_csv py_repr keys t = Save.Failed e ->
        (e = Save.IndexError
         /\ exists first column f shorter,
              head (Save.fields_with_data keys t) = Some first
              /\ t !! first = Some column /\ f ∈ Save.fields_with_data keys t
              /\ t !! f = Some shorter /\ (length shorter < length column)%nat)
        \/ (e = Save.ValueError
            /\ exists f column i v,
                 f ∈ Save.fields_with_data keys t
                 /\ t !! f = Some column /\ column !! i = Some v /\ str_ok v = false)).
Proof.
  split; [|split; [|intros e; apply save_failed]].
  - destruct (save_cases keys t)
      as [[Hfields ->] | (first & fields & v0 & column0 & Hfields & Hfirst & ->)].
    + split; [|reflexivity]. intros _ f v column Hin Ht.
      assert (Hf : f ∈ Save.fields_with_data keys t)
        by (apply fields_with_data_elem; eauto).
      rewrite Hfields in Hf. inversion Hf.
    + split; [destruct (Save.collect _ _); intros Hx; discriminate Hx|].
      intros Hno. destruct (Hno first v0 column0); [|exact Hfirst].
      apply (fields_with_data_elem keys t first). rewrite Hfields.
      apply list_elem_of_here.
  - intros header rows.
    destruct (save_cases keys t)
      as [[_ ->] | (first & fields & v0 & column0 & Hfields & Hfirst & ->)];
      [discriminate|].
    destruct (Save.collect _ _) as [e|rows'] eqn:Hrows; [discriminate|].
    intros [= <- <-]. split; [symmetry; exact Hfields|].
    apply collect_inr in Hrows as [Hlen Hcells]. rewrite length_seq in Hlen.
    split; [exists first, (v0 :: column0); auto|].
    intros i row Hrow.
    assert (Hi : (i < length (v0 :: column0))%nat)
      by (rewrite <- Hlen; eapply lookup_lt_Some; exact Hrow).
    destruct (Hcells i i) as (row' & Hrow' & Hinner);
      [apply lookup_seq; split; [reflexivity | exact Hi]|].
    assert (row' = row) as -> by congruence.
    apply collect_inr in Hinner as [Hrlen Hrcells].
    split; [exact Hrlen|].
    intros j f Hj. destruct (Hrcells j f Hj) as (s & Hs & Hcell).
    unfold Save.cell_text in Hcell.
    destruct (t !! f) as [column|] eqn:Ht; [|discriminate].
    destruct (column !! i) as [v|] eqn:Hv; [|discriminate].
    destruct (export_cell py_repr v) as [text|e] eqn:Hx; [|discriminate].
    injection Hcell as <-. exists column, v, text. auto.
Qed.

End SaveFacts.

Lemma filter_all {A : Type} (p : A -> bool) (l : list A) :
  (forall x, x ∈ l -> p x = true) -> List.filter p l = l.
Proof.
  induction l as [|x l IH]; intros H; simpl; [reflexivity|].
  rewrite (H x) by apply list_elem_of_here. f_equal.
  apply IH. intros y Hy. apply H. apply list_elem_of_further. exact Hy.
Qed.

Lemma fmap_seq_lookup {A B : Type} (g : A -> B) (d : A) (l : list A) :
  (fun i => g (default d (l !! i))) <$> seq 0 (length l) = g <$> l.
Proof.
  apply list_eq. intros i. rewrite !list_lookup_fmap.
  destruct (l !! i) as [x|] eqn:Hx.
  - rewrite (proj2 (lookup_seq 0 (length l) i i)).
    + simpl. rewrite Hx. reflexivity.
    + split; [reflexivity | eapply lookup_lt_Some; exact Hx].
  - apply lookup_ge_None in Hx. rewrite lookup_seq_ge by lia. reflexivity.
Qed.

Section SaveCalculated.

Variable json_loads : string -> result value.
Variable py_repr : value -> string.

(** X19. Exporting the table of a completed run: for any order of its
    keys, nothing fails; the header is that list of keys, there is one
    row per source row, in the order of the source, and the cell of a
    field in a row is the converted cell the run calculated for it (the
    conversion of such a cell does not raise).  A run that completes
    stores this table. *)
Theorem save_calculated_table (st : App) (keys : list string) :
  csv_data st <> [] -> keys <> [] ->
  (forall f, f ∈ keys -> exists col, mappings st !! f = Some col /\ col <> "") ->
  Save._save_as_csv py_repr keys (calc_table json_loads st)
  = Save.Written keys
      ((fun source_row =>
          (fun f => export_text py_repr
                      (cell json_loads (csv_headers st) f
                            (default "" (mappings st !! f)) source_row)) <$> keys)
       <$> csv_data st)
  /\ (forall f source_row,
        export_cell py_repr
          (cell json_loads (csv_headers st) f (default "" (mappings st !! f)) source_row)
        = Ok (export_text py_repr
                (cell json_loads (csv_headers st) f (default "" (mappings st !! f))
                      source_row)))
  /\ (forall tk fields rows,
        (calculate_data json_loads tk st).1 = Complete fields rows ->
        calculated_data (calculate_data json_loads tk st).2
        = Some (calc_table json_loads st)).
Proof.
  intros Hd Hk Hkeys.
  assert (Hcell : forall f source_row,
        export_cell py_repr
          (cell json_loads (csv_headers st) f (default "" (mappings st !! f)) source_row)
        = Ok (export_text py_repr
                (cell json_loads (csv_headers st) f (default "" (mappings st !! f))
                      source_row))).
  { intros f source_row. apply export_cell_text. apply cell_value_str_ok. }
  split; [|split; [exact Hcell|]].
  2: { intros tk fields rows Hc.
       destruct (calculate_data_complete json_loads tk st fields rows Hc)
         as (_ & _ & _ & _ & _ & ->). reflexivity. }
  unfold Save._save_as_csv.
  assert (Hcol : forall f, f ∈ keys ->
            calc_table json_loads st !! f
            = Some (cell json_loads (csv_headers st) f (default "" (mappings st !! f))
                      <$> csv_data st)).
  { intros f Hf. destruct (Hkeys f Hf) as (col & Hm & Hne).
    rewrite Hm. apply calc_table_lookup; assumption. }
  assert (Hfields : Save.fields_with_data keys (calc_table json_loads st) = keys).
  { apply filter_all. intros f Hf. rewrite (Hcol f Hf).
    destruct (csv_data st); [congruence | reflexivity]. }
  rewrite Hfields. destruct keys as [|first rest] eqn:Hkeq; [congruence|].
  rewrite <- Hkeq in *. rewrite (Hcol first) by (rewrite Hkeq; apply list_elem_of_here).
  change (default [] (Some ?x)) with x. rewrite length_fmap.
  rewrite (collect_fmap _
             (fun i => (fun f => export_text py_repr
                          (cell json_loads (csv_headers st) f
                                (default "" (mappings st !! f))
                                (default [] (csv_data st !! i)))) <$> keys)).
  - f_equal.
    apply (fmap_seq_lookup
             (fun source_row =>
                (fun f => export_text py_repr
                            (cell json_loads (csv_headers st) f
                                  (default "" (mappings st !! f)) source_row)) <$> keys)
             [] (csv_data st)).
  - intros i Hi. apply elem_of_seq in Hi as [_ Hi]. simpl in Hi.
    apply collect_fmap. intros f Hf. unfold Save.cell_text.
    rewrite (Hcol f Hf), list_lookup_fmap.
    destruct (lookup_lt_is_Some_2 (csv_data st) i Hi) as [source_row Hrow].
    rewrite Hrow. simpl. rewrite Hcell. reflexivity.
Qed.

End SaveCalculated.

Section SessionExport.

Variable json_loads : string -> result value.
Variable py_repr : value -> string.

(** X20. In a session without a half-finished load, started without a
    table, and as long as the application lives, building the rows of an
    export of the stored table never fails, whatever was done before:
    the table is either refused for having no data or written in
    full. *)
Theorem export_of_stored_table (start st : App) (keys : list string)
    (t : gmap string (list value)) :
  calculated_data start = None -> reachable_clean json_loads start st ->
  calculated_data st = Some t ->
  forall e, Save._save_as_csv py_repr keys t <> Save.Failed e.
Proof.
  intros Hstart Hreach Ht e He.
  pose proof (clean_session_table json_loads start st Hstart Hreach t Ht) as ->.
  apply save_failed in He
    as [(_ & first & column & f & shorter & _ & Hfirst & _ & Hf & Hlt)
       | (_ & f & column & i & v & _ & Hf & Hv & Hbad)].
  - destruct (calc_table_column json_loads st _ _ Hfirst) as [H1 _].
    destruct (calc_table_column json_loads st _ _ Hf) as [H2 _]. lia.
  - destruct (calc_table_column json_loads st _ _ Hf) as (_ & col & Hm & Hne).
    rewrite (calc_table_lookup json_loads st f col Hm Hne) in Hf.
    injection Hf as <-. rewrite list_lookup_fmap in Hv.
    destruct (csv_data st !! i) as [row|]; [|discriminate]. injection Hv as <-.
    unfold cell in Hbad. rewrite cell_value_str_ok in Hbad. discriminate.
Qed.

End SessionExport.

(** ** White space and lines *)

Lemma app_cons (c : ascii) (s t : string) : String c s +:+ t = String c (s +:+ t).
Proof. reflexivity. Qed.

Lemma app_empty_l (t : string) : "" +:+ t = t.
Proof. reflexivity. Qed.

Lemma lstrip_head_ok (s : string) : head_ok (Py.lstrip s).
Proof.
  induction s as [|c s IH]; simpl; [exact I|].
  destruct (Py.is_space c) eqn:Hc; [exact IH | exact Hc].
Qed.

Lemma lstrip_fixed (s : string) : head_ok s -> Py.lstrip s = s.
Proof. destruct s as [|c s]; simpl; [reflexivity|]. intros ->. reflexivity. Qed.

Lemma rstrip_cons (c : ascii) (s : string) :
  Py.rstrip (String c s)
  = match Py.rstrip s with
    | EmptyString => if Py.is_space c then EmptyString else String c EmptyString
    | r => String c r
    end.
Proof. reflexivity. Qed.

Lemma rstrip_head_ok (s : string) : head_ok s -> head_ok (Py.rstrip s).
Proof.
  destruct s as [|c s]; [intros _; exact I|]. intros Hc.
  change (Py.is_space c = false) in Hc.
  rewrite rstrip_cons, Hc. destruct (Py.rstrip s); exact Hc.
Qed.

Lemma rstrip_nonspace_head (c : ascii) (s : string) :
  Py.is_space c = false -> exists r, Py.rstrip (String c s) = String c r.
Proof.
  intros Hc. rewrite rstrip_cons, Hc. destruct (Py.rstrip s); eauto.
Qed.

Lemma rstrip_idem (s : string) : Py.rstrip (Py.rstrip s) = Py.rstrip s.
Proof.
  induction s as [|c s IH]; [reflexivity|]. rewrite rstrip_cons.
  destruct (Py.rstrip s) as [|c' r] eqn:Hr.
  - destruct (Py.is_space c) eqn:Hc; [reflexivity|].
    rewrite rstrip_cons. simpl Py.rstrip. rewrite Hc. reflexivity.
  - rewrite rstrip_cons, IH. reflexivity.
Qed.

Lemma strip_head_ok (s : string) : head_ok (Py.strip s).
Proof. apply rstrip_head_ok, lstrip_head_ok. Qed.

Lemma strip_idem (s : string) : Py.strip (Py.strip s) = Py.strip s.
Proof.
  unfold Py.strip at 1. rewrite lstrip_fixed by apply strip_head_ok.
  apply rstrip_idem.
Qed.

Lemma strip_fixed_parts (f : string) :
  Py.strip f = f -> head_ok f /\ Py.lstrip f = f /\ Py.rstrip f = f.
Proof.
  intros H. assert (Hh : head_ok f) by (rewrite <- H; apply strip_head_ok).
  split; [exact Hh|]. split; [apply lstrip_fixed; exact Hh|].
  unfold Py.strip in H. rewrite lstrip_fixed in H by exact Hh. exact H.
Qed.

Lemma count_lstrip (c : ascii) (s : string) :
  (count_char c (Py.lstrip s) <= count_char c s)%nat.
Proof.
  induction s as [|c' s IH]; simpl; [lia|].
  destruct (Py.is_space c'); simpl; lia.
Qed.

Lemma count_rstrip (c : ascii) (s : string) :
  (count_char c (Py.rstrip s) <= count_char c s)%nat.
Proof.
  induction s as [|c' s IH]; [simpl; lia|]. rewrite rstrip_cons.
  destruct (Py.rstrip s) as [|c'' r].
  - destruct (Py.is_space c'); simpl in *; lia.
  - simpl in *. lia.
Qed.

Lemma count_strip (c : ascii) (s : string) :
  (count_char c (Py.strip s) <= count_char c s)%nat.
Proof.
  unfold Py.strip. pose proof (count_rstrip c (Py.lstrip s)).
  pose proof (count_lstrip c s). lia.
Qed.

Lemma split_cons (c : ascii) (s : string) :
  EditTargetFieldsDialog.split (String c s)
  = if Ascii.eqb c EditTargetFieldsDialog.newline
    then "" :: EditTargetFieldsDialog.split s
    else match EditTargetFieldsDialog.split s with
         | line :: lines => String c line :: lines
         | [] => [String c ""]
         end.
Proof. reflexivity. Qed.

Lemma split_nonempty (s : string) : EditTargetFieldsDialog.split s <> [].
Proof.
  induction s as [|c s IH]; [discriminate|]. rewrite split_cons.
  destruct (Ascii.eqb c EditTargetFieldsDialog.newline); [discriminate|].
  destruct (EditTargetFieldsDialog.split s); discriminate.
Qed.

(** No piece of a split holds a newline. *)
Lemma split_pieces (s : string) :
  Forall (fun line => count_char EditTargetFieldsDialog.newline line = O)
         (EditTargetFieldsDialog.split s).
Proof.
  induction s as [|c s IH]; [repeat constructor|]. rewrite split_cons.
  destruct (Ascii.eqb c EditTargetFieldsDialog.newline) eqn:Hc.
  - constructor; [reflexivity | exact IH].
  - destruct (EditTargetFieldsDialog.split s) as [|line lines].
    + repeat constructor. simpl. rewrite Hc. reflexivity.
    + inversion IH as [|? ? Hline Hlines]; subst. constructor; [|exact Hlines].
      simpl. rewrite Hc. exact Hline.
Qed.

Lemma split_one_line (f : string) :
  count_char EditTargetFieldsDialog.newline f = O ->
  EditTargetFieldsDialog.split f = [f].
Proof.
  induction f as [|c f IH]; [reflexivity|]. simpl count_char. rewrite split_cons.
  destruct (Ascii.eqb c EditTargetFieldsDialog.newline); [discriminate|].
  intros H. rewrite IH by exact H. reflexivity.
Qed.

Lemma split_first_line (f s : string) :
  count_char EditTargetFieldsDialog.newline f = O ->
  EditTargetFieldsDialog.split (f +:+ String EditTargetFieldsDialog.newline s)
  = f :: EditTargetFieldsDialog.split s.
Proof.
  induction f as [|c f IH].
  - intros _. rewrite app_empty_l, split_cons. reflexivity.
  - simpl count_char. rewrite app_cons, split_cons.
    destruct (Ascii.eqb c EditTargetFieldsDialog.newline); [discriminate|].
    intros H. rewrite IH by exact H. reflexivity.
Qed.

(** ** The dialog that edits the target fields *)

Lemma lstrip_app (x y : string) :
  head_ok x -> x <> "" -> Py.lstrip (x +:+ y) = x +:+ y.
Proof.
  destruct x as [|c x]; [congruence|]. intros Hc _.
  change (Py.is_space c = false) in Hc. rewrite app_cons. simpl. rewrite Hc. reflexivity.
Qed.

Lemma rstrip_app_blank (x y : string) :
  Py.rstrip y = "" -> Py.rstrip (x +:+ y) = Py.rstrip x.
Proof.
  intros Hy. induction x as [|c x IH]; [exact Hy|].
  rewrite app_cons, !rstrip_cons, IH. reflexivity.
Qed.

Lemma rstrip_app_fixed (x y : string) :
  Py.rstrip y = y -> y <> "" -> Py.rstrip (x +:+ y) = x +:+ y.
Proof.
  intros Hy Hne. induction x as [|c x IH]; [exact Hy|].
  rewrite app_cons, rstrip_cons, IH.
  destruct (x +:+ y) eqn:Hxy; [|reflexivity].
  destruct x; [rewrite app_empty_l in Hxy; congruence | discriminate].
Qed.

Lemma clean_parts (f : string) :
  clean f ->
  f <> "" /\ head_ok f /\ Py.rstrip f = f
  /\ count_char EditTargetFieldsDialog.newline f = O.
Proof.
  intros (Hne & Hs & Hc). destruct (strip_fixed_parts f Hs) as (Hh & _ & Hr). auto.
Qed.

Lemma joined_cons (f g : string) (fields : list string) :
  joined (f :: g :: fields)
  = f +:+ String EditTargetFieldsDialog.newline (joined (g :: fields)).
Proof. reflexivity. Qed.

Lemma joined_clean (fields : list string) :
  fields <> [] -> Forall clean fields ->
  joined fields <> "" /\ head_ok (joined fields)
  /\ Py.rstrip (joined fields) = joined fields
  /\ EditTargetFieldsDialog.split (joined fields) = fields.
Proof.
  induction fields as [|f [|g fields] IH]; [congruence | |]; intros _ Hall.
  - inversion Hall as [|? ? Hf _]; subst.
    destruct (clean_parts f Hf) as (Hne & Hh & Hr & Hc).
    change (joined [f]) with f. repeat split; try assumption.
    apply split_one_line. exact Hc.
  - inversion Hall as [|? ? Hf Hrest]; subst.
    destruct (clean_parts f Hf) as (Hne & Hh & Hr & Hc).
    destruct (IH ltac:(discriminate) Hrest) as (Hjne & Hjh & Hjr & Hjs).
    rewrite joined_cons. split; [|split; [|split]].
    + destruct f; [congruence | discriminate].
    + destruct f; [congruence | exact Hh].
    + change (f +:+ String EditTargetFieldsDialog.newline (joined (g :: fields)))
        with (f +:+ (String EditTargetFieldsDialog.newline "" +:+ joined (g :: fields))).
      rewrite (rstrip_app_fixed f).
      * reflexivity.
      * apply rstrip_app_fixed; assumption.
      * destruct (joined (g :: fields)); discriminate.
    + rewrite split_first_line by exact Hc. rewrite Hjs. reflexivity.
Qed.

Lemma shown_strip (fields : list string) :
  fields <> [] -> Forall clean fields ->
  Py.strip (EditTargetFieldsDialog.shown fields) = joined fields.
Proof.
  intros Hne Hall. destruct (joined_clean fields Hne Hall) as (Hjne & Hjh & Hjr & _).
  unfold EditTargetFieldsDialog.shown, Py.strip. fold (joined fields).
  rewrite lstrip_app by assumption.
  rewrite rstrip_app_blank by reflexivity. exact Hjr.
Qed.

Lemma fmap_strip_clean (fields : list string) :
  Forall clean fields ->
  Py.strip <$> List.filter (fun f => negb (String.eqb (Py.strip f) "")) fields = fields.
Proof.
  intros Hall. rewrite filter_all.
  - induction Hall as [|f fields (_ & Hs & _) _ IH]; [reflexivity|].
    simpl. rewrite Hs. f_equal. exact IH.
  - intros f Hf. rewrite Forall_forall in Hall. destruct (Hall f Hf) as (Hne & Hs & _).
    rewrite Hs. apply negb_true_iff, String.eqb_neq. exact Hne.
Qed.

Lemma save_fields_clean (lines : list string) :
  Forall (fun line => count_char EditTargetFieldsDialog.newline line = O) lines ->
  Forall clean
    (Py.strip <$> List.filter (fun f => negb (String.eqb (Py.strip f) "")) lines).
Proof.
  intros Hall. induction Hall as [|line lines Hline _ IH]; [constructor|].
  simpl. destruct (String.eqb (Py.strip line) "") eqn:He; simpl; [exact IH|].
  constructor; [|exact IH]. apply String.eqb_neq in He.
  split; [exact He|]. split; [apply strip_idem|].
  pose proof (count_strip EditTargetFieldsDialog.newline line). lia.
Qed.

(** X21. Saving the edit dialog.  The warning is shown, and nothing is
    returned, exactly when the text is blank.  Otherwise the fields
    returned are never empty, carry no white space at their ends and no
    line break; and a list of such fields, shown in the dialog and saved
    unchanged, comes back as it was. *)
Theorem dialog_save_fields (text : string) :
  (EditTargetFieldsDialog.save text = None <-> Py.strip text = "")
  /\ (forall fields, EditTargetFieldsDialog.save text = Some fields ->
        fields <> [] /\ Forall clean fields)
  /\ (forall fields, fields <> [] -> Forall clean fields ->
        EditTargetFieldsDialog.save (EditTargetFieldsDialog.shown fields) = Some fields).
Proof.
  split; [|split].
  - unfold EditTargetFieldsDialog.save. split.
    + intros H. destruct (Py.strip text) as [|c r] eqn:Hs; [reflexivity|]. exfalso.
      assert (Hc : Py.is_space c = false).
      { pose proof (strip_head_ok text) as Hh. rewrite Hs in Hh. exact Hh. }
      assert (Hnl : Ascii.eqb c EditTargetFieldsDialog.newline = false).
      { apply Ascii.eqb_neq. intros ->. discriminate Hc. }
      rewrite split_cons, Hnl in H.
      assert (Hkeep : forall line,
                negb (String.eqb (Py.strip (String c line)) "") = true).
      { intros line. unfold Py.strip. simpl Py.lstrip. rewrite Hc.
        destruct (rstrip_nonspace_head c line Hc) as [r' ->]. reflexivity. }
      destruct (EditTargetFieldsDialog.split r) as [|line lines];
        simpl in H; rewrite Hkeep in H; discriminate.
    + intros ->. reflexivity.
  - intros fields H. unfold EditTargetFieldsDialog.save in H.
    pose proof (save_fields_clean _ (split_pieces (Py.strip text))) as Hclean.
    destruct (Py.strip <$> List.filter _ _) as [|f fs]; [discriminate|].
    injection H as <-. split; [discriminate | exact Hclean].
  - intros fields Hne Hall. unfold EditTargetFieldsDialog.save.
    rewrite shown_strip by assumption.
    destruct (joined_clean fields Hne Hall) as (_ & _ & _ & ->).
    rewrite fmap_strip_clean by assumption.
    destruct fields; [congruence | reflexivity].
Qed.

(** ** Detecting the delimiter *)

Lemma first_line_of (line rest : string) :
  count_char EditTargetFieldsDialog.newline line = O ->
  head (EditTargetFieldsDialog.split (line +:+ String EditTargetFieldsDialog.newline rest))
  = Some line
  /\ head (EditTargetFieldsDialog.split line) = Some line.
Proof.
  intros Hc. rewrite split_first_line by exact Hc.
  rewrite (split_one_line line) by exact Hc. split; reflexivity.
Qed.

(** X22. Delimiter detection in [load_csv] looks at the first line of the
    sample only.  A semicolon or a tab is chosen only when it occurs
    strictly more often in that line than each of the other two
    candidates; in every other case, ties included, the comma is chosen,
    whether or not the line holds one. *)
Theorem delimiter_from_first_line (line rest : string) :
  count_char EditTargetFieldsDialog.newline line = O ->
  let d := detect_delimiter (line +:+ String EditTargetFieldsDialog.newline rest) in
  let semicolons := count_char ";" line in
  let commas := count_char "," line in
  let tabs := count_char "009" line in
  d = detect_delimiter line
  /\ (d = ";"%char <-> (commas < semicolons /\ tabs < semicolons)%nat)
  /\ (d = "009"%char <-> (commas < tabs /\ semicolons < tabs)%nat)
  /\ (d = ","%char <->
      ~ (commas < semicolons /\ tabs < semicolons)%nat
      /\ ~ (commas < tabs /\ semicolons < tabs)%nat).
Proof.
  intros Hc. destruct (first_line_of line rest Hc) as [H1 H2].
  cbv zeta. unfold detect_delimiter. rewrite H1, H2. cbn [default].
  change (id line) with line.
  destruct (Nat.ltb_spec (count_char "," line) (count_char ";" line));
    destruct (Nat.ltb_spec (count_char "009" line) (count_char ";" line));
    destruct (Nat.ltb_spec (count_char "," line) (count_char "009" line));
    destruct (Nat.ltb_spec (count_char ";" line) (count_char "009" line));
    cbn [andb]; (split; [reflexivity|]);
    repeat split; intros; try discriminate; try lia; try reflexivity.
Qed.

Lemma delimiter_from_first_line_witness :
  detect_delimiter ("a;b" +:+ String EditTargetFieldsDialog.newline "1,2,3,4")
  = detect_delimiter "a;b".
Proof.
  exact (proj1 (delimiter_from_first_line "a;b" "1,2,3,4" eq_refl)).
Defined.

(** ** The further properties at sample inputs *)

Lemma calculated_table_shape_witness :
  (calculate_data Json.loads Sample.idle Sample.app).1 = Complete 2 1
  /\ exists t,
       calculated_data (calculate_data Json.loads Sample.idle Sample.app).2 = Some t
       /\ (forall field column, t !! field = Some column -> length column = 1%nat)
       /\ size t = 2%nat.
Proof.
  assert (Hc : (calculate_data Json.loads Sample.idle Sample.app).1 = Complete 2 1)
    by reflexivity.
  split; [exact Hc|].
  destruct (calculated_table_shape Json.loads Sample.idle Sample.app 2 1 Hc)
    as (t & Ht & _ & Hlen & Hsize & _).
  exists t. split; [exact Ht|]. split; [exact Hlen | symmetry; exact Hsize].
Defined.

Lemma ordinary_column_is_copied_witness :
  mappings Sample.app !! "A" = Some "a"
  /\ (calculate_data Json.loads Sample.idle Sample.app).1 = Complete 2 1
  /\ exists t i,
       calculated_data (calculate_data Json.loads Sample.idle Sample.app).2 = Some t
       /\ csv_headers Sample.app !! i = Some "a"
       /\ t !! "A" = Some ((fun row => PyStr (default "" (row !! i))) <$> csv_data Sample.app).
Proof.
  assert (Hc : (calculate_data Json.loads Sample.idle Sample.app).1 = Complete 2 1)
    by reflexivity.
  split; [reflexivity|]. split; [exact Hc|].
  destruct (ordinary_column_is_copied Json.loads Sample.idle Sample.app "A" "a" 2 1)
    as (t & i & Ht & Hi & _ & Hcol);
    [reflexivity | discriminate | apply list_elem_of_here
    | discriminate | discriminate | discriminate | exact Hc |].
  exists t, i. split; [exact Ht|]. split; [exact Hi | exact Hcol].
Defined.

Lemma calculate_twice_witness :
  tk_raises Sample.idle (length (csv_data Sample.long_integer_app)) = false
  /\ (calculate_data Json.loads Sample.idle Sample.long_integer_app).1 = Failure ValueError
  /\ calculate_data Json.loads Sample.idle
       (calculate_data Json.loads Sample.idle Sample.long_integer_app).2
     = calculate_data Json.loads Sample.idle Sample.long_integer_app.
Proof.
  split; [reflexivity|]. split; [vm_compute; reflexivity|].
  apply (calculate_twice Json.loads Sample.idle Sample.idle Sample.long_integer_app);
    [apply insert_non_empty | discriminate | reflexivity | reflexivity].
Defined.

Lemma export_needs_a_named_column_witness :
  (calculate_data Json.loads Sample.idle Session.unnamed).1 = Complete 0 1
  /\ can_export (calculate_data Json.loads Sample.idle Session.unnamed).2 = false.
Proof.
  assert (Hc : (calculate_data Json.loads Sample.idle Session.unnamed).1 = Complete 0 1)
    by reflexivity.
  split; [exact Hc|].
  destruct (export_needs_a_named_column Json.loads Sample.idle Session.unnamed 0 1 Hc)
    as [_ Hiff].
  destruct (can_export (calculate_data Json.loads Sample.idle Session.unnamed).2) eqn:He;
    [|reflexivity].
  destruct (proj1 Hiff eq_refl) as (field & col & Hf & Hne).
  exfalso. apply Hne.
  destruct (decide (field = "A")) as [-> | Hfield].
  - vm_compute in Hf. congruence.
  - assert (Hnone : mappings Session.unnamed !! field = None).
    { change (mappings Session.unnamed) with (<["A" := ""]> (∅ : gmap string string)).
      rewrite lookup_insert_ne by congruence. apply lookup_empty. }
    congruence.
Defined.

Lemma auto_map_last_position_wins_witness :
  csv_headers Sample.twice <> []
  /\ mappings (auto_map Sample.twice) !! "A" = Some "y".
Proof.
  assert (Hh : csv_headers Sample.twice <> []) by discriminate.
  split; [exact Hh|].
  apply (proj2 (auto_map_last_position_wins Sample.twice "A" "y" Hh)).
  exists 1%nat. split; [reflexivity|]. split; [reflexivity|].
  intros k Hk Hlen. simpl in Hlen. lia.
Defined.

Lemma DEFAULT_TARGET_FIELDS_NoDup : NoDup DEFAULT_TARGET_FIELDS.
Proof. refine (bool_decide_unpack _ _). vm_compute. exact I. Qed.

Lemma auto_map_count_witness :
  NoDup (TARGET_FIELDS Session.loaded) /\ csv_headers Session.loaded <> []
  /\ mapped_count (auto_map Session.loaded) = 2%nat
  /\ remaining_count (auto_map Session.loaded) = 175.
Proof.
  assert (Hh : csv_headers Session.loaded <> []) by discriminate.
  split; [exact DEFAULT_TARGET_FIELDS_NoDup|]. split; [exact Hh|].
  exact (auto_map_count Session.loaded DEFAULT_TARGET_FIELDS_NoDup Hh).
Defined.

Lemma smart_auto_map_follows_rules_witness :
  csv_headers Session.loaded <> []
  /\ (smart_auto_map Session.loaded).1 = size (mappings Session.mapped)
  /\ exists c, mappings Session.mapped !! "KLASSE" = Some c
               /\ Py.lower c = Py.lower "hiline_road".
Proof.
  assert (Hh : csv_headers Session.loaded <> []) by discriminate.
  destruct (smart_auto_map_follows_rules Session.loaded Hh) as (Hn & _ & Hall).
  split; [exact Hh|]. split; [exact Hn|].
  apply (Hall "hiline_road" ["KLASSE"; "NUMMER"] "KLASSE" "HiLine_Road").
  - refine (bool_decide_unpack _ _). vm_compute. exact I.
  - apply list_elem_of_here.
  - refine (bool_decide_unpack _ _). vm_compute. exact I.
  - apply list_elem_of_here.
  - reflexivity.
Defined.

Lemma smart_bindings_use_their_rule_witness :
  mappings (smart_auto_map Session.loaded).2 !! "KLASSE" = Some "HiLine_Road"
  /\ transform Json.loads "KLASSE" "HiLine_Road" "l0048"
     = Ok (PyStr (_extract_klasse "l0048")).
Proof.
  assert (Hh : csv_headers Session.loaded <> []) by discriminate.
  assert (Hf : mappings (smart_auto_map Session.loaded).2 !! "KLASSE" = Some "HiLine_Road")
    by (vm_compute; reflexivity).
  split; [exact Hf|].
  exact (proj1 (proj2 (proj2 (smart_bindings_use_their_rule Json.loads Session.loaded
                                 "KLASSE" "HiLine_Road" "l0048" Hh Hf))) eq_refl).
Defined.

Lemma initial_keys_are_fields : keys_are_fields initial.
Proof.
  intros f [c Hf]. change (mappings initial) with (∅ : gmap string string) in Hf.
  rewrite lookup_empty in Hf. discriminate.
Qed.

Lemma session_reachable : reachable_clean Json.loads initial Session.calculated.
Proof.
  change Session.calculated
    with (apply_event Json.loads (Calculate Sample.idle) Session.mapped).
  apply clean_step; [|exact I | intros H; exact H |].
  2: { intros [_ [e He]]. vm_compute in He. discriminate He. }
  change Session.mapped with (apply_event Json.loads SmartAutoMap Session.loaded).
  apply clean_step; [|exact I | intros H; exact H ..].
  change Session.loaded
    with (apply_event Json.loads
            (LoadCsv (ReadOk ["HiLine_Road"; "Id"] [["l0048"; "7"]; ["k0012"]])) initial).
  apply clean_step; [apply clean_start | exact I | intros H; exact H ..].
Qed.

Lemma reachable_clean_reachable (json_loads : string -> result value) (start st : App) :
  reachable_clean json_loads start st -> reachable json_loads start st.
Proof.
  induction 1 as [|st ev _ IH Hen _ _]; [apply reach_start | apply reach_step; assumption].
Qed.

Lemma session_table :
  calculated_data Session.calculated = Some (calc_table Json.loads Session.mapped).
Proof. vm_compute. reflexivity. Qed.

Lemma mapped_fields_are_target_fields_witness :
  keys_are_fields initial
  /\ (mapped_count Session.calculated <= length (TARGET_FIELDS Session.calculated))%nat
  /\ 0 <= remaining_count Session.calculated.
Proof.
  split; [exact initial_keys_are_fields|].
  exact (proj2 (mapped_fields_are_target_fields Json.loads initial Session.calculated
                  initial_keys_are_fields
                  (reachable_clean_reachable _ _ _ session_reachable))).
Defined.

Lemma stored_table_is_current_witness :
  calculated_data initial = None
  /\ exists t, calculated_data Session.calculated = Some t
       /\ t = calc_table Json.loads Session.calculated.
Proof.
  split; [reflexivity|].
  exists (calc_table Json.loads Session.mapped). split; [exact session_table|].
  exact (proj1 (stored_table_is_current Json.loads initial Session.calculated eq_refl
                  session_reachable _ session_table)).
Defined.

Lemma save_calculated_table_witness :
  csv_data Sample.app <> [] /\ ["GEB"; "A"] <> []
  /\ Save._save_as_csv Sample.no_repr ["GEB"; "A"] (calc_table Json.loads Sample.app)
     = Save.Written ["GEB"; "A"] [["3"; "1"]].
Proof.
  assert (Hd : csv_data Sample.app <> []) by discriminate.
  assert (Hk : ["GEB"; "A"] <> []) by discriminate.
  split; [exact Hd|]. split; [exact Hk|].
  assert (Hkeys : forall f, f ∈ ["GEB"; "A"] ->
            exists col, mappings Sample.app !! f = Some col /\ col <> "").
  { intros f Hf. apply list_elem_of_In in Hf. simpl in Hf.
    destruct Hf as [<- | [<- | []]].
    - exists "business_data". split; [reflexivity | discriminate].
    - exists "a". split; [reflexivity | discriminate]. }
  rewrite (proj1 (save_calculated_table Json.loads Sample.no_repr Sample.app ["GEB"; "A"]
                    Hd Hk Hkeys)).
  vm_compute. reflexivity.
Defined.

Lemma export_of_stored_table_witness :
  calculated_data initial = None
  /\ forall e,
       Save._save_as_csv Sample.no_repr ["KLASSE"; "NUMMER"; "ID"]
         (calc_table Json.loads Session.mapped) <> Save.Failed e.
Proof.
  split; [reflexivity|].
  exact (export_of_stored_table Json.loads Sample.no_repr initial Session.calculated
           ["KLASSE"; "NUMMER"; "ID"] (calc_table Json.loads Session.mapped)
           eq_refl session_reachable session_table).
Defined.
